(** * Cancer-distribution batch downloader: model and verified properties

    A shallow embedding of [download_cancer_distribution_batch.py]: the
    identifier loader, the two remote queries, the per-project
    denominators cache, the aggregation of rows, the TSV writer and the
    driver loop, followed by the properties proved of them.

    Conventions of the model:
    - a Python [str] is a [string] whose characters are code points below
      256; [strip], [lower], [split], line reading and the csv quoting
      follow the interpreter on those;
    - a Python [int] is a [Z]; a Python [float] is an IEEE-754 binary64
      value, as [spec_float] with precision 53 and maximal exponent 1024,
      so that [/] and [*] round as the interpreter does; only the printing
      of a float ([str]) is left abstract, as the class [FloatStr];
    - a [dict] iterated in insertion order is an association list; the
      denominators, only looked up and extended, are a [gmap]; a [set] of
      case identifiers is a [gset];
    - an exception is a value of [exn]; code that talks to the network,
      the cache, the file system or the console runs in the
      state-and-exception monad [M] over [world];
    - the remote service is a function from the requests sent so far and
      the new request to a response; of a response the model keeps what
      the code reads: [ok], [status_code], [text] and the two JSON paths;
      the total at the second path is an integer, as the resolver's
      docstring has it, and the hits at the first are JSON documents
      built from null, strings, arrays and objects;
    - a [print] appends a structured event to the console log;
      [time.sleep] pacing is not modelled;
    - the files are a map from paths to contents; creating the output
      directory and opening a report for writing ask the operating
      system, which may refuse with an error: what it answers is a
      function of the present files and of the path. *)

From Stdlib Require Import ZArith List Ascii String Sorted Permutation Bool Lia.
From Stdlib Require Import Floats.SpecFloat.
From Stdlib Require Import Decimal DecimalString DecimalPos DecimalZ.
From stdpp Require Import base option list gmap strings sorting.

Set Warnings "-register-all".

Local Open Scope string_scope.
Local Open Scope Z_scope.

(** ** Python string primitives *)

Module PyStr.

Definition TAB : ascii := "009"%char.
Definition LF : ascii := "010"%char.
Definition CR : ascii := "013"%char.
Definition DOT : ascii := "."%char.
Definition DQUOTE : ascii := "034"%char.

(** [str.isspace] on one character, for code points below 256. *)
Definition is_space (c : ascii) : bool :=
  let n := nat_of_ascii c in
  ((9 <=? n)%nat && (n <=? 13)%nat)
  || ((28 <=? n)%nat && (n <=? 32)%nat)
  || (n =? 133)%nat || (n =? 160)%nat.

(** [str.lower] on one character, for code points below 256. *)
Definition lower_char (c : ascii) : ascii :=
  let n := nat_of_ascii c in
  if ((65 <=? n)%nat && (n <=? 90)%nat)
     || ((192 <=? n)%nat && (n <=? 222)%nat && negb (n =? 215)%nat)
  then ascii_of_nat (n + 32) else c.

Fixpoint lower (s : string) : string :=
  match s with
  | EmptyString => EmptyString
  | String c s' => String (lower_char c) (lower s')
  end.

Fixpoint lstrip_by (p : ascii -> bool) (s : string) : string :=
  match s with
  | EmptyString => EmptyString
  | String c s' => if p c then lstrip_by p s' else s
  end.

Fixpoint rstrip_by (p : ascii -> bool) (s : string) : string :=
  match s with
  | EmptyString => EmptyString
  | String c s' =>
      match rstrip_by p s' with
      | EmptyString => if p c then EmptyString else String c EmptyString
      | r => String c r
      end
  end.

(** [s.strip()] *)
Definition strip (s : string) : string := rstrip_by is_space (lstrip_by is_space s).

(** [s.rstrip("\n")] *)
Definition rstrip_newline (s : string) : string := rstrip_by (Ascii.eqb LF) s.

(** [s.split(sep)] for a one-character separator: never empty. *)
Fixpoint split (sep : ascii) (s : string) : list string :=
  match s with
  | EmptyString => [EmptyString]
  | String c s' =>
      if Ascii.eqb c sep then EmptyString :: split sep s'
      else match split sep s' with
           | x :: r => String c x :: r
           | [] => [String c EmptyString]
           end
  end.

(** [s.startswith(p)] *)
Definition startswith (s p : string) : bool := String.prefix p s.

Fixpoint contains_char (c : ascii) (s : string) : bool :=
  match s with
  | EmptyString => false
  | String d s' => Ascii.eqb d c || contains_char c s'
  end.

(** The lines of a text file opened with [newline=""]: a line ends after
    LF, after CR LF, or after a lone CR, and keeps its terminator. *)
Fixpoint readlines (s : string) : list string :=
  match s with
  | EmptyString => []
  | String c s' =>
      if Ascii.eqb c LF then String c EmptyString :: readlines s'
      else if Ascii.eqb c CR then
        match s' with
        | String d s'' =>
            if Ascii.eqb d LF
            then String c (String d EmptyString) :: readlines s''
            else String c EmptyString :: readlines s'
        | EmptyString => [String c EmptyString]
        end
      else match readlines s' with
           | l :: r => String c l :: r
           | [] => [String c EmptyString]
           end
  end.

(** [s[:n]] *)
Definition take (n : nat) (s : string) : string := String.substring 0 n s.

(** [str(n)] for a Python [int]. *)
Definition str_int (z : Z) : string := NilZero.string_of_int (Z.to_int z).

(** Python's [list.sort] / [sorted]: ascending, stable, and comparing
    with [<] only.  [insert_sorted x l] puts [x], which preceded every
    element of [l] in the input, after the elements strictly below it. *)
Section Sort.
Context {A : Type} (lt : A -> A -> bool).

Fixpoint insert_sorted (x : A) (l : list A) : list A :=
  match l with
  | [] => [x]
  | y :: l' => if lt y x then y :: insert_sorted x l' else x :: y :: l'
  end.

Definition sort (l : list A) : list A := foldr insert_sorted [] l.

(** [l.sort(reverse=True)]: the list is reversed, sorted, and reversed
    again, which keeps equal elements in their original order. *)
Definition sort_reverse (l : list A) : list A := rev (sort (rev l)).

(** [x] is not above [y]: how an ascending list shows two elements. *)
Definition not_above (x y : A) : Prop := lt y x = false.

(** Neither is below the other: the two tie. *)
Definition tie (x y : A) : bool := negb (lt x y) && negb (lt y x).
End Sort.

End PyStr.

(** ** Exceptions and results *)

Inductive exn :=
| MissingToColumn                                   (* RuntimeError of the loader *)
| OccurrenceQueryFailed (status : Z) (body : string) (* RuntimeError, ssm_occurrences *)
| DenominatorQueryFailed (status : Z) (body : string) (* RuntimeError, case_ssms *)
| KeyError (key : string)
| TypeError
| FileNotFoundError (path : string)
| LibraryError (what : string).                      (* raised inside requests / json *)

Inductive result (A : Type) : Type :=
| Ok (a : A)
| Raise (e : exn).
Arguments Ok {A} a.
Arguments Raise {A} e.

#[global] Instance result_ret : MRet result := fun A a => Ok a.
#[global] Instance result_bind : MBind result :=
  fun A B f m => match m with Ok a => f a | Raise e => Raise e end.

(** ** 1. Identifier loader *)

Definition MAPPING_FILE : string := "idmapping_2025_12_02.tsv".
Definition OUT_DIR : string := "cancer_distribution_tsv".
Definition GENE_PREFIX : string := "ENSG".

(** [enumerate(headers)] *)
Definition enumerate {A} (l : list A) : list (nat * A) := combine (seq 0 (length l)) l.

(** [[i for i, h in enumerate(headers) if h.strip().lower() == "to"]] *)
Definition is_to_header (h : string) : bool :=
  String.eqb (PyStr.lower (PyStr.strip h)) "to".

Definition to_columns (headers : list string) : list nat :=
  map fst (List.filter (fun ih => is_to_header (snd ih)) (enumerate headers)).

(** The body of the [for line in f] loop: the set after one more line. *)
Definition load_line (to_idx : nat) (gene_ids : gset string) (line : string) : gset string :=
  let line := PyStr.strip line in
  if String.eqb line "" then gene_ids else
  let cols := PyStr.split PyStr.TAB line in
  if (length cols <=? to_idx)%nat then gene_ids else
  let raw_id := PyStr.strip (nth to_idx cols "") in
  if String.eqb raw_id "" then gene_ids else
  let gene_id := hd "" (PyStr.split PyStr.DOT raw_id) in
  if PyStr.startswith gene_id GENE_PREFIX then {[gene_id]} ∪ gene_ids else gene_ids.

(** [sorted(gene_ids)] *)
Definition sorted_strings (s : gset string) : list string :=
  PyStr.sort String.ltb (elements s).

(** The cells of the header row: [f.readline().rstrip("\n").split("\t")]. *)
Definition header_cells (text : string) : list string :=
  PyStr.split PyStr.TAB (PyStr.rstrip_newline (hd "" (PyStr.readlines text))).

(** The identifier a data line contributes, if any: what [load_line]
    adds to the set. *)
Definition line_gene_id (to_idx : nat) (line : string) : option string :=
  let line := PyStr.strip line in
  if String.eqb line "" then None else
  let cols := PyStr.split PyStr.TAB line in
  if (length cols <=? to_idx)%nat then None else
  let raw_id := PyStr.strip (nth to_idx cols "") in
  if String.eqb raw_id "" then None else
  let gene_id := hd "" (PyStr.split PyStr.DOT raw_id) in
  if PyStr.startswith gene_id GENE_PREFIX then Some gene_id else None.

(** [load_gene_ids], on the text of the mapping file. *)
Definition load_gene_ids_text (text : string) : result (list string) :=
  let lines := PyStr.readlines text in
  let header_line := PyStr.rstrip_newline (hd "" lines) in
  let headers := PyStr.split PyStr.TAB header_line in
  match to_columns headers with
  | [] => Raise MissingToColumn
  | to_idx :: _ => Ok (sorted_strings (foldl (load_line to_idx) ∅ (tl lines)))
  end.


(** ** JSON documents

    The hit documents the code walks through.  They are built from null,
    strings, arrays and objects: the identifier fields the code reads are
    strings.  An object is given by the items of the parsed [dict]. *)

Inductive json :=
| JNull
| JStr (s : string)
| JArr (items : list json)
| JObj (members : list (string * json)).

Fixpoint assoc_get {A} (k : string) (l : list (string * A)) : option A :=
  match l with
  | [] => None
  | (k', v) :: l' => if String.eqb k' k then Some v else assoc_get k l'
  end.

(** [v[k]] for a string [k] *)
Definition getitem (v : json) (k : string) : result json :=
  match v with
  | JObj members =>
      match assoc_get k members with
      | Some x => Ok x
      | None => Raise (KeyError k)
      end
  | _ => Raise TypeError
  end.

(** [bool(v)] *)
Definition truthy (v : json) : bool :=
  match v with
  | JNull => false
  | JStr s => negb (String.eqb s "")
  | JArr items => match items with [] => false | _ => true end
  | JObj members => match members with [] => false | _ => true end
  end.

Fixpoint chars (s : string) : list string :=
  match s with
  | EmptyString => []
  | String c s' => String c EmptyString :: chars s'
  end.

(** [for item in v]: the items of a list, the keys of a dict, the
    characters of a string. *)
Definition py_iter (v : json) : result (list json) :=
  match v with
  | JArr items => Ok items
  | JObj members => Ok (map (fun kv => JStr (fst kv)) members)
  | JStr s => Ok (map JStr (chars s))
  | JNull => Raise TypeError
  end.

(** ** The remote service *)

Inductive query_filter :=
| FilterIn (field : string) (values : list string)
| FilterEq (field : string) (value : string)
| FilterAnd (content : list query_filter).

Record request := {
  endpoint : string;
  fields : string;
  page_size : Z;
  filters : query_filter }.

(** What the code reads of a response.  [json_hits] stands for the
    evaluation of [resp.json()["data"]["hits"]] and [json_total] for that
    of [resp.json()["data"]["pagination"]["total"]], the case count of the
    project: either may raise. *)
Record response := {
  ok : bool;
  status_code : Z;
  text : string;
  json_hits : result json;
  json_total : result Z }.

(** A session: the requests sent so far, and a server that answers a
    request knowing the ones before it; [Raise] is a failure of
    [session.get] itself. *)
Record session := {
  sent : list request;
  serve : list request -> request -> result response }.

Inductive event :=
| EvLoading (path : string)
| EvFound (n : nat)
| EvProcessing (idx n : nat) (gene_id : string)
| EvFetchFailed (e : exn)
| EvNoCases
| EvProjects (n_projects total_occ : nat)
| EvTotalFailed (proj : string) (e : exn)
| EvSaved (out_path : string).

(** ** The world and the monad *)

Record world := {
  net : session;
  proj_total_cache : gmap string Z;
  files : gmap string string;
  refused : gmap string string -> string -> option exn;
  stdout : list event }.

(** An operating system that lets every directory be created and every
    file be written. *)
Definition never_refused : gmap string string -> string -> option exn :=
  fun _ _ => None.

Definition M (A : Type) : Type := world -> result A * world.

#[global] Instance M_ret : MRet M := fun A a w => (Ok a, w).
#[global] Instance M_bind : MBind M :=
  fun A B f m w =>
    match m w with
    | (Ok a, w') => f a w'
    | (Raise e, w') => (Raise e, w')
    end.

Definition raise {A} (e : exn) : M A := fun w => (Raise e, w).
Definition lift {A} (r : result A) : M A := fun w => (r, w).

(** [try: m except Exception as e: ...]: the outcome as a value *)
Definition try_ {A} (m : M A) : M (result A) :=
  fun w => let '(r, w') := m w in (Ok r, w').

Definition print (ev : event) : M unit :=
  fun w => (Ok tt, {| net := net w; proj_total_cache := proj_total_cache w;
                      files := files w; refused := refused w; stdout := stdout w ++ [ev] |}).

(** [session.get(endpoint, params=params)]: one request on the wire *)
Definition session_get (rq : request) : M response :=
  fun w =>
    let s := net w in
    (serve s (sent s) rq,
     {| net := {| sent := sent s ++ [rq]; serve := serve s |};
        proj_total_cache := proj_total_cache w;
        files := files w; refused := refused w; stdout := stdout w |}).

Definition cache_lookup (project_id : string) : M (option Z) :=
  fun w => (Ok (proj_total_cache w !! project_id), w).

(** [cache[project_id] = total] *)
Definition cache_store (project_id : string) (total : Z) : M unit :=
  fun w => (Ok tt, {| net := net w;
                      proj_total_cache := <[project_id := total]> (proj_total_cache w);
                      files := files w; refused := refused w; stdout := stdout w |}).

Definition cache_reset : M unit :=
  fun w => (Ok tt, {| net := net w; proj_total_cache := ∅;
                      files := files w; refused := refused w; stdout := stdout w |}).

Definition read_file (path : string) : M string :=
  fun w => match files w !! path with
           | Some txt => (Ok txt, w)
           | None => (Raise (FileNotFoundError path), w)
           end.

(** [os.makedirs(path, exist_ok=True)]: raises what the operating system
    answers when it refuses. *)
Definition makedirs (path : string) : M unit :=
  fun w => match refused w (files w) path with
           | Some e => (Raise e, w)
           | None => (Ok tt, w)
           end.

(** [with open(path, "w", newline="") as f: ...]: the file gets its
    content unless the operating system refuses to open it. *)
Definition write_file (path txt : string) : M unit :=
  fun w => match refused w (files w) path with
           | Some e => (Raise e, w)
           | None =>
               (Ok tt, {| net := net w; proj_total_cache := proj_total_cache w;
                          files := <[path := txt]> (files w); refused := refused w;
                          stdout := stdout w |})
           end.

(** [load_gene_ids(mapping_file)] *)
Definition load_gene_ids (mapping_file : string) : M (list string) :=
  txt ← read_file mapping_file;
  lift (load_gene_ids_text txt).

(** ** 2. Occurrence fetcher *)

Definition SSM_OCC_ENDPOINT : string := "https://api.gdc.cancer.gov/ssm_occurrences".

Definition occurrence_request (gene_id : string) : request :=
  {| endpoint := SSM_OCC_ENDPOINT;
     fields := "case.case_id,case.project.project_id";
     page_size := 100000;
     filters := FilterAnd
       [FilterIn "ssm.consequence.transcript.gene.gene_id" [gene_id]] |}.

(** [defaultdict(set)]: project to case set, in order of first insertion *)
Definition occurrence_map : Type := list (string * gset string).

(** [proj_to_cases[proj].add(case_id)] *)
Fixpoint occ_add (proj case_id : string) (m : occurrence_map) : occurrence_map :=
  match m with
  | [] => [(proj, {[case_id]})]
  | (p, s) :: m' =>
      if String.eqb p proj then (p, {[case_id]} ∪ s) :: m'
      else (p, s) :: occ_add proj case_id m'
  end.

(** The body of [for item in data]. *)
Definition hit_step (m : occurrence_map) (item : json) : result occurrence_map :=
  c ← getitem item "case";
  pr ← getitem c "project";
  proj ← getitem pr "project_id";
  c' ← getitem item "case";
  case_id ← getitem c' "case_id";
  if truthy proj && truthy case_id then
    match proj, case_id with
    | JStr p, JStr cid => Ok (occ_add p cid m)
    | _, _ => Raise TypeError        (* unhashable list or dict *)
    end
  else Ok m.

Fixpoint hits_loop (m : occurrence_map) (data : list json) : result occurrence_map :=
  match data with
  | [] => Ok m
  | item :: rest => m' ← hit_step m item; hits_loop m' rest
  end.

Definition get_mutated_cases_by_project (gene_id : string) : M occurrence_map :=
  resp ← session_get (occurrence_request gene_id);
  if negb (ok resp) then
    raise (OccurrenceQueryFailed (status_code resp) (PyStr.take 500 (text resp)))
  else
    data ← lift (json_hits resp);
    items ← lift (py_iter data);
    lift (hits_loop [] items).

(** The two identifiers of a hit, when the hit carries both fields. *)
Definition hit_ids (item : json) : result (json * json) :=
  c ← getitem item "case";
  pr ← getitem c "project";
  proj ← getitem pr "project_id";
  case_id ← getitem c "case_id";
  Ok (proj, case_id).

Definition is_scalar (v : json) : bool :=
  match v with JNull | JStr _ => true | _ => false end.

(** A hit that carries both identifier fields, each null or a string. *)
Definition hit_complete (item : json) : bool :=
  match hit_ids item with
  | Ok (proj, case_id) => is_scalar proj && is_scalar case_id
  | Raise _ => false
  end.

(** The (project, case) pair of a hit whose two identifiers are
    non-empty strings. *)
Definition hit_pair (item : json) : option (string * string) :=
  match hit_ids item with
  | Ok (JStr p, JStr c) =>
      if negb (String.eqb p "") && negb (String.eqb c "") then Some (p, c) else None
  | _ => None
  end.

Definition add_pair (m : occurrence_map) (pc : string * string) : occurrence_map :=
  occ_add (fst pc) (snd pc) m.

(** The map that a sequence of (project, case) pairs builds. *)
Definition occurrence_map_of (pairs : list (string * string)) : occurrence_map :=
  foldl add_pair [] pairs.

(** A map built by [occ_add] has distinct keys and no empty case set. *)
Definition occ_wf (m : occurrence_map) : Prop :=
  List.NoDup (map fst m) /\ Forall (fun e => snd e <> ∅) m.

(** What a fetch returns, as a function of the session alone. *)
Definition fetch_result (s : session) (gene_id : string) : result occurrence_map :=
  match serve s (sent s) (occurrence_request gene_id) with
  | Raise e => Raise e
  | Ok resp =>
      if negb (ok resp) then
        Raise (OccurrenceQueryFailed (status_code resp) (PyStr.take 500 (text resp)))
      else
        data ← json_hits resp;
        items ← py_iter data;
        hits_loop [] items
  end.

(** The session after one more request. *)
Definition session_after (s : session) (rq : request) : session :=
  {| sent := sent s ++ [rq]; serve := serve s |}.

(** ** 3. Denominator resolver *)

Definition CASE_SSMS_ENDPOINT : string := "https://api.gdc.cancer.gov/case_ssms".

Definition denominator_request (project_id : string) : request :=
  {| endpoint := CASE_SSMS_ENDPOINT;
     fields := "project.project_id,available_variation_data";
     page_size := 1;
     filters := FilterAnd
       [FilterIn "available_variation_data" ["ssm"];
        FilterEq "project.project_id" project_id] |}.

(** Requests by endpoint. *)
Definition is_occurrence_request (rq : request) : bool :=
  String.eqb (endpoint rq) SSM_OCC_ENDPOINT.

Definition get_total_ssm_cases_for_project (project_id : string) : M Z :=
  hit ← cache_lookup project_id;
  match hit with
  | Some v => mret v
  | None =>
      resp ← session_get (denominator_request project_id);
      if negb (ok resp) then
        raise (DenominatorQueryFailed (status_code resp) (PyStr.take 500 (text resp)))
      else
        total ← lift (json_total resp);
        _ ← cache_store project_id total;
        mret total
  end.


(** ** Python floats *)

Module PyFloat.

Definition prec : Z := 53.
Definition emax : Z := 1024.

(** An [int] as an exact, unrounded operand. *)
Definition exact_int (z : Z) : spec_float :=
  match z with
  | Z0 => S754_zero false
  | Zpos p => S754_finite false p 0
  | Zneg p => S754_finite true p 0
  end.

(** [float(z)]: the nearest binary64 value. *)
Definition of_int (z : Z) : spec_float := binary_normalize prec emax z 0 false.

(** [a / b] on two [int]s with [b] not zero: the correctly rounded
    quotient.  (CPython raises OverflowError where the quotient exceeds
    the binary64 range, which needs a numerator above 2^1023; the
    model yields an infinity there.) *)
Definition int_true_div (a b : Z) : spec_float :=
  SFdiv prec emax (exact_int a) (exact_int b).

Definition mul (x y : spec_float) : spec_float := SFmul prec emax x y.
Definition ltb (x y : spec_float) : bool := SFltb x y.
Definition eqb (x y : spec_float) : bool := SFeqb x y.

Definition zero : spec_float := S754_zero false.

Definition is_nan (x : spec_float) : bool :=
  match x with S754_nan => true | _ => false end.

End PyFloat.

(** [str(x)] for a [float] is the language's own shortest round-trip
    printer; the model takes it as given. *)
Class FloatStr := float_str : spec_float -> string.

(** ** 4. Rows, report and TSV file *)

Record row := {
  project_id : string;
  cases_affected : nat;
  total_cases_with_ssm_data : Z;
  percent_cases_affected : option spec_float }.

(** [(cases_affected / total_ssm * 100) if total_ssm else None] *)
Definition percent (cases_affected : nat) (total_ssm : Z) : option spec_float :=
  if Z.eqb total_ssm 0 then None
  else Some (PyFloat.mul (PyFloat.int_true_div (Z.of_nat cases_affected) total_ssm)
                         (PyFloat.of_int 100)).

(** One pass of [for proj, case_set in proj_to_cases.items()]. *)
Definition make_row (proj_total_ssm_cases : gmap string Z)
    (entry : string * gset string) : row :=
  let '(proj, case_set) := entry in
  let cases_affected := size case_set in
  let total_ssm := default 0 (proj_total_ssm_cases !! proj) in
  {| project_id := proj;
     cases_affected := cases_affected;
     total_cases_with_ssm_data := total_ssm;
     percent_cases_affected := percent cases_affected total_ssm |}.

Definition build_rows (proj_to_cases : list (string * gset string))
    (proj_total_ssm_cases : gmap string Z) : list row :=
  map (make_row proj_total_ssm_cases) proj_to_cases.

(** [r["percent_cases_affected"] or 0]: [None] and a zero give the
    integer 0, which compares as the float zero. *)
Definition sort_key (r : row) : spec_float :=
  match percent_cases_affected r with
  | None => PyFloat.zero
  | Some (S754_zero _) => PyFloat.zero
  | Some x => x
  end.

Definition row_lt (r1 r2 : row) : bool := PyFloat.ltb (sort_key r1) (sort_key r2).

(** [rows.sort(key=..., reverse=True)] *)
Definition sort_rows (rows : list row) : list row := PyStr.sort_reverse row_lt rows.

(** The rows as they are written: built, then sorted. *)
Definition distribution_report (proj_to_cases : list (string * gset string))
    (proj_total_ssm_cases : gmap string Z) : list row :=
  sort_rows (build_rows proj_to_cases proj_total_ssm_cases).

(** [csv.writer] with the excel dialect and a tab delimiter. *)
Module Csv.

Definition special (c : ascii) : bool :=
  Ascii.eqb c PyStr.TAB || Ascii.eqb c PyStr.DQUOTE
  || Ascii.eqb c PyStr.CR || Ascii.eqb c PyStr.LF.

Fixpoint has_special (s : string) : bool :=
  match s with
  | EmptyString => false
  | String c s' => special c || has_special s'
  end.

(** The field's characters, each quote character doubled. *)
Fixpoint escape (s : string) : string :=
  match s with
  | EmptyString => EmptyString
  | String c s' =>
      if Ascii.eqb c PyStr.DQUOTE
      then String PyStr.DQUOTE (String PyStr.DQUOTE (escape s'))
      else String c (escape s')
  end.

Definition quote (s : string) : string :=
  String PyStr.DQUOTE (escape s ++ String PyStr.DQUOTE EmptyString).

Definition field (s : string) : string :=
  if has_special s then quote s else s.

Definition CRLF : string := String PyStr.CR (String PyStr.LF EmptyString).

(** [writer.writerow(fields)]: a lone empty field is written quoted. *)
Definition writerow (fields : list string) : string :=
  match fields with
  | [EmptyString] => quote EmptyString ++ CRLF
  | _ => String.concat (String PyStr.TAB EmptyString) (map field fields) ++ CRLF
  end.

Definition writerows (rows : list (list string)) : string :=
  String.concat EmptyString (map writerow rows).

End Csv.

Definition FIELDNAMES : list string :=
  ["project_id"; "cases_affected"; "total_cases_with_ssm_data"; "percent_cases_affected"].

(** The cells of one row, in the order of [FIELDNAMES]; [None] is
    written as the empty string, everything else through [str]. *)
Definition row_cells `{FloatStr} (r : row) : list string :=
  [project_id r;
   PyStr.str_int (Z.of_nat (cases_affected r));
   PyStr.str_int (total_cases_with_ssm_data r);
   match percent_cases_affected r with
   | None => EmptyString
   | Some x => float_str x
   end].

(** [writer.writeheader(); writer.writerows(rows)] *)
Definition tsv_text `{FloatStr} (rows : list row) : string :=
  Csv.writerow FIELDNAMES ++ Csv.writerows (map row_cells rows).

(** [os.path.join(a, b)] for a directory name [a] without trailing slash *)
Definition path_join (a b : string) : string :=
  if PyStr.startswith b "/" then b else a ++ "/" ++ b.

Definition out_path_of (gene_id : string) : string :=
  path_join OUT_DIR (gene_id ++ "_cancer_distribution_ssm.tsv").

Definition write_cancer_distribution_tsv `{FloatStr} (gene_id : string)
    (proj_to_cases : list (string * gset string))
    (proj_total_ssm_cases : gmap string Z) : M string :=
  _ ← makedirs OUT_DIR;
  let out_path := out_path_of gene_id in
  let rows := distribution_report proj_to_cases proj_total_ssm_cases in
  _ ← write_file out_path (tsv_text rows);
  mret out_path.

(** The error that stops the writing of the report of [gene_id] in the
    file system of [w], if any: that of the directory, else that of the
    file. *)
Definition report_error (w : world) (gene_id : string) : option exn :=
  match refused w (files w) OUT_DIR with
  | Some e => Some e
  | None => refused w (files w) (out_path_of gene_id)
  end.

(** ** Reading a report back

    The reader that the round-trip property of the report speaks of: the
    file is split into records and fields as tab-separated text in the
    writer's dialect (a field may be quoted, a doubled quote inside it
    stands for one), the first record must be the documented header, and
    every other record gives a row: an empty last field is an absent
    percentage, anything else a number. *)

Module CsvReader.

Inductive state :=
| RowStart        (* at the start of a record *)
| AfterCR         (* after the CR that ended a record *)
| FieldStart      (* after a delimiter *)
| Unquoted        (* inside an unquoted field *)
| Quoted          (* inside a quoted field *)
| QuoteSeen.      (* after a quote inside a quoted field *)

Definition at_row_start (st : state) : bool :=
  match st with RowStart | AfterCR => true | _ => false end.

(** The record that ends when a terminator is met in state [st]. *)
Definition close_row (st : state) (fld : string) (row : list string) : list string :=
  if at_row_start st then [] else (row ++ [fld])%list.

Fixpoint read_from (s : string) (st : state) (fld : string) (row : list string)
  : list (list string) :=
  match s with
  | EmptyString => if at_row_start st then [] else [(row ++ [fld])%list]
  | String c s' =>
      match st with
      | Quoted =>
          if Ascii.eqb c PyStr.DQUOTE then read_from s' QuoteSeen fld row
          else read_from s' Quoted (fld ++ String c EmptyString) row
      | _ =>
          if Ascii.eqb c PyStr.LF then
            match st with
            | AfterCR => read_from s' RowStart EmptyString []
            | _ => close_row st fld row :: read_from s' RowStart EmptyString []
            end
          else if Ascii.eqb c PyStr.CR then
            close_row st fld row :: read_from s' AfterCR EmptyString []
          else if Ascii.eqb c PyStr.TAB then
            read_from s' FieldStart EmptyString (row ++ [fld])%list
          else if Ascii.eqb c PyStr.DQUOTE then
            match st with
            | Unquoted => read_from s' Unquoted (fld ++ String c EmptyString) row
            | QuoteSeen => read_from s' Quoted (fld ++ String c EmptyString) row
            | _ => read_from s' Quoted EmptyString row
            end
          else read_from s' Unquoted (fld ++ String c EmptyString) row
      end
  end.

Definition read (text : string) : list (list string) :=
  read_from text RowStart EmptyString [].

End CsvReader.

(** The state in which the reader is after the text of field [f], having
    started it in state [st]. *)
Definition after_field (f : string) (st : CsvReader.state) : CsvReader.state :=
  if Csv.has_special f then CsvReader.QuoteSeen
  else match f with EmptyString => st | _ => CsvReader.Unquoted end.

Definition field_start (st : CsvReader.state) : Prop :=
  st = CsvReader.RowStart \/ st = CsvReader.FieldStart.

Definition parse_int (s : string) : option Z :=
  Z.of_int <$> NilZero.int_of_string s.

Definition parse_count (s : string) : option nat :=
  z ← parse_int s; if Z.leb 0 z then Some (Z.to_nat z) else None.

Definition parse_row (float_of_str : string -> option spec_float)
    (cells : list string) : option row :=
  match cells with
  | [proj; cases; total; pct] =>
      n ← parse_count cases;
      t ← parse_int total;
      p ← (if String.eqb pct EmptyString then Some None
           else Some <$> float_of_str pct);
      Some {| project_id := proj; cases_affected := n;
              total_cases_with_ssm_data := t; percent_cases_affected := p |}
  | _ => None
  end.

Definition parse_tsv (float_of_str : string -> option spec_float)
    (text : string) : option (list row) :=
  match CsvReader.read text with
  | header :: records =>
      if decide (header = FIELDNAMES) then mapM (parse_row float_of_str) records
      else None
  | [] => None
  end.

(** ** 5. Driver *)

(** [for proj in proj_to_cases.keys()]: the denominators of one gene. *)
Fixpoint resolve_denominators (projs : list string)
    (proj_total_ssm_cases : gmap string Z) : M (gmap string Z) :=
  match projs with
  | [] => mret proj_total_ssm_cases
  | proj :: rest =>
      r ← try_ (get_total_ssm_cases_for_project proj);
      total_ssm ← match r with
                  | Ok v => mret v
                  | Raise e => _ ← print (EvTotalFailed proj e); mret 0
                  end;
      resolve_denominators rest (<[proj := total_ssm]> proj_total_ssm_cases)
  end.

Definition total_occurrences (proj_to_cases : list (string * gset string)) : nat :=
  foldr (fun e acc => (size (snd e) + acc)%nat) 0%nat proj_to_cases.

(** One pass of the loop over the genes. *)
Definition process_gene `{FloatStr} (idx n : nat) (gene_id : string) : M unit :=
  _ ← print (EvProcessing idx n gene_id);
  r ← try_ (get_mutated_cases_by_project gene_id);
  match r with
  | Raise e => print (EvFetchFailed e)
  | Ok proj_to_cases =>
      match proj_to_cases with
      | [] => print EvNoCases
      | _ =>
          _ ← print (EvProjects (length proj_to_cases) (total_occurrences proj_to_cases));
          proj_total_ssm_cases ← resolve_denominators (map fst proj_to_cases) ∅;
          out_path ← write_cancer_distribution_tsv gene_id proj_to_cases
                       proj_total_ssm_cases;
          print (EvSaved out_path)
      end
  end.

Fixpoint main_loop `{FloatStr} (idx n : nat) (gene_ids : list string) : M unit :=
  match gene_ids with
  | [] => mret tt
  | gene_id :: rest => _ ← process_gene idx n gene_id; main_loop (S idx) n rest
  end.

Definition main `{FloatStr} : M unit :=
  _ ← print (EvLoading MAPPING_FILE);
  gene_ids ← load_gene_ids MAPPING_FILE;
  _ ← print (EvFound (length gene_ids));
  _ ← cache_reset;
  main_loop 1 (length gene_ids) gene_ids.

(** The rows of the report that one pass of the loop writes, if it
    writes one: the fetched map, aggregated with the denominators resolved
    for its projects. *)
Definition gene_report (idx n : nat) (gene_id : string) (w : world) : option (list row) :=
  match fetch_result (net w) gene_id with
  | Ok (entry :: occ) =>
      let proj_to_cases := entry :: occ in
      let w1 := {| net := session_after (net w) (occurrence_request gene_id);
                   proj_total_cache := proj_total_cache w;
                   files := files w; refused := refused w;
                   stdout := (stdout w ++ [EvProcessing idx n gene_id])
                             ++ [EvProjects (length proj_to_cases)
                                            (total_occurrences proj_to_cases)] |} in
      match fst (resolve_denominators (map fst proj_to_cases) ∅ w1) with
      | Ok den =>
          match report_error w gene_id with
          | None => Some (distribution_report proj_to_cases den)
          | Some _ => None
          end
      | Raise _ => None
      end
  | _ => None
  end.

(** ** Views used by the further properties *)

(** Every character of [s] satisfies [p]. *)
Fixpoint all_chars (p : ascii -> bool) (s : string) : bool :=
  match s with
  | EmptyString => true
  | String c s' => p c && all_chars p s'
  end.

(** The distinct elements of a list, in order of first appearance. *)
Definition seen_add (acc : list string) (p : string) : list string :=
  if existsb (String.eqb p) acc then acc else (acc ++ [p])%list.

Definition first_seen_from (acc l : list string) : list string := foldl seen_add acc l.

Definition first_seen (l : list string) : list string := first_seen_from [] l.

(** The case identifiers that a sequence of pairs gives to project [p]. *)
Definition cases_of (p : string) (pairs : list (string * string)) : list string :=
  omap (fun pc => if String.eqb (fst pc) p then Some (snd pc) else None) pairs.

(** In the log [log], a denominator request for [p] was answered with the
    total [v]. *)
Definition answered_in (srv : list request -> request -> result response)
    (log : list request) (p : string) (v : Z) : Prop :=
  exists pre post resp,
    log = (pre ++ denominator_request p :: post)%list
    /\ srv pre (denominator_request p) = Ok resp
    /\ ok resp = true
    /\ json_total resp = Ok v.

(** The cache and the log agree: what was answered is cached, what is
    cached was answered, and no denominator request follows an answered
    one for the same project. *)
Definition cache_agrees (s : session) (c : gmap string Z) : Prop :=
  (forall p v, answered_in (serve s) (sent s) p v -> c !! p = Some v)
  /\ (forall p v, c !! p = Some v -> answered_in (serve s) (sent s) p v)
  /\ (forall pre post p v,
        sent s = (pre ++ denominator_request p :: post)%list ->
        ~ answered_in (serve s) pre p v).

(** What a resolver query returns when the project is not cached, as a
    function of the session alone. *)
Definition denominator_result (s : session) (project_id : string) : result Z :=
  match serve s (sent s) (denominator_request project_id) with
  | Raise e => Raise e
  | Ok resp =>
      if negb (ok resp) then
        Raise (DenominatorQueryFailed (status_code resp) (PyStr.take 500 (text resp)))
      else json_total resp
  end.

(** The exception that the loop body raises on a hit, if it raises one:
    that of the first failing subscript, or the one of an identifier that
    cannot be a dictionary key or a set element. *)
Definition hit_error (item : json) : option exn :=
  match hit_ids item with
  | Raise e => Some e
  | Ok (proj, case_id) =>
      if truthy proj && truthy case_id then
        match proj, case_id with
        | JStr _, JStr _ => None
        | _, _ => Some TypeError
        end
      else None
  end.

(** The sign bit of a float, if it has one. *)
Definition float_sign (x : spec_float) : option bool :=
  match x with
  | S754_zero s | S754_infinity s | S754_finite s _ _ => Some s
  | S754_nan => None
  end.

(** The progress lines of the loop over the genes, numbered from [idx]. *)
Fixpoint progress_events (idx n : nat) (gene_ids : list string) : list event :=
  match gene_ids with
  | [] => []
  | gene_id :: rest => EvProcessing idx n gene_id :: progress_events (S idx) n rest
  end.

Definition is_processing (ev : event) : bool :=
  match ev with EvProcessing _ _ _ => true | _ => false end.

(** The projects of a list for which the cache holds no total. *)
Definition uncached (c : gmap string Z) (projs : list string) : list string :=
  List.filter (fun p => match c !! p with None => true | Some _ => false end) projs.

(** ** Sample inputs *)

Definition hit (proj case_id : json) : json :=
  JObj [("case", JObj [("case_id", case_id);
                       ("project", JObj [("project_id", proj)])])].

(** A hit without the project field. *)
Definition hit_without_project (case_id : json) : json :=
  JObj [("case", JObj [("case_id", case_id)])].

(** A server that answers every query with the same hits and total. *)
Definition sample_server (data : json) (total : Z)
  : list request -> request -> result response :=
  fun _ _ => Ok {| ok := true; status_code := 200; text := "";
                   json_hits := Ok data; json_total := Ok total |}.

Definition hits_server (data : json) : list request -> request -> result response :=
  sample_server data 0.

Definition demo_table : string :=
  "From" ++ String PyStr.TAB "To " ++ String PyStr.CR (String PyStr.LF "") ++
  "P1" ++ String PyStr.TAB "ENSG00000100342.3" ++ String PyStr.LF "" ++
  "P2" ++ String PyStr.TAB "ENSG00000100342" ++ String PyStr.LF "" ++
  "P3" ++ String PyStr.TAB "invalid123" ++ String PyStr.LF "".

Definition demo_server (total : Z) : list request -> request -> result response :=
  sample_server (JArr []) total.

Definition demo_world (srv : list request -> request -> result response) : world :=
  {| net := {| sent := []; serve := srv |};
     proj_total_cache := ∅; files := ∅; refused := never_refused; stdout := [] |}.

Definition demo_hit_list : list json :=
  [hit (JStr "ProjA") (JStr "case1");
   hit JNull (JStr "case9");
   hit (JStr "ProjB") (JStr "case3");
   hit (JStr "ProjA") (JStr "");
   hit (JStr "ProjA") (JStr "case2");
   hit (JStr "ProjA") (JStr "case1")].

Definition demo_hits : json := JArr demo_hit_list.

Definition demo_occurrences : list (string * gset string) :=
  [("ProjA", {[ "case1"; "case2" ]}); ("ProjB", {[ "case3" ]})].

Definition demo_denominators : gmap string Z :=
  <["ProjA" := 10]> (<["ProjB" := 0]> ∅).

(** A printer and a reader of floats for the sample runs: the letter f
    followed by a decimal code of the value.  It is not the language's
    printer, only one that reads back what it prints. *)
Definition float_code (x : spec_float) : positive :=
  match x with
  | S754_zero false => 1
  | S754_zero true => 2
  | S754_infinity false => 3
  | S754_infinity true => 4
  | S754_nan => 5
  | S754_finite s m e => 5 + encode (s, m, e)
  end.

Definition float_of_code (p : positive) : option spec_float :=
  if (p =? 1)%positive then Some (S754_zero false)
  else if (p =? 2)%positive then Some (S754_zero true)
  else if (p =? 3)%positive then Some (S754_infinity false)
  else if (p =? 4)%positive then Some (S754_infinity true)
  else if (p =? 5)%positive then Some S754_nan
  else '(s, m, e) ← decode (p - 5)%positive; Some (S754_finite s m e).

Definition sample_float_str : FloatStr :=
  fun x => String "f" (NilZero.string_of_uint (Pos.to_uint (float_code x))).

Definition sample_float_of_str (s : string) : option spec_float :=
  match s with
  | String c digits =>
      if Ascii.eqb c "f" then
        u ← NilZero.uint_of_string digits;
        match Pos.of_uint u with
        | Npos p => float_of_code p
        | N0 => None
        end
      else None
  | EmptyString => None
  end.

(** A server that cannot be reached. *)
Definition failing_server : list request -> request -> result response :=
  fun _ _ => Raise (LibraryError "connection refused").

Definition demo_gene : string := "ENSG00000100342".

(** The sample table with its data lines in another order, one of them
    repeated and one padded. *)
Definition demo_table_shuffled : string :=
  "From" ++ String PyStr.TAB "To " ++ String PyStr.CR (String PyStr.LF "") ++
  "P3" ++ String PyStr.TAB "invalid123" ++ String PyStr.LF "" ++
  "P2" ++ String PyStr.TAB "ENSG00000100342" ++ String PyStr.CR (String PyStr.LF "") ++
  "P1" ++ String PyStr.TAB "ENSG00000100342.3" ++ String PyStr.LF "" ++
  "P3" ++ String PyStr.TAB "invalid123" ++ String PyStr.LF "".

(** A table whose To column holds no identifier, while its From column
    holds one; its other lines are blank. *)
Definition blank_table : string :=
  "From" ++ String PyStr.TAB "To" ++ String PyStr.LF "" ++
  "ENSG00000100342" ++ String PyStr.TAB "foo" ++ String PyStr.LF "" ++
  String PyStr.LF "" ++ "  " ++ String PyStr.LF "".

(** A server that answers every query with an error status. *)
Definition error_response : response :=
  {| ok := false; status_code := 503; text := "Service Unavailable";
     json_hits := Raise (LibraryError "no JSON");
     json_total := Raise (LibraryError "no JSON") |}.

Definition error_server : list request -> request -> result response :=
  fun _ _ => Ok error_response.

(** Hits of which the second lacks the project field. *)
Definition broken_hit_list : list json :=
  [hit (JStr "ProjA") (JStr "case1");
   hit_without_project (JStr "case2");
   hit (JStr "ProjB") (JStr "case3")].

(** A server that has 10 cases for every project but refuses the
    denominator query of ProjB. *)
Definition partial_server : list request -> request -> result response :=
  fun hist rq =>
    match filters rq with
    | FilterAnd [_; FilterEq _ project] =>
        if String.eqb project "ProjB" then Ok error_response
        else sample_server demo_hits 10 hist rq
    | _ => sample_server demo_hits 10 hist rq
    end.






(** * Properties *)

(** ** Sample evaluations of the primitives *)

Example readlines_sample :
  PyStr.readlines
    ("a" ++ String PyStr.CR (String PyStr.LF "") ++ "b" ++ String PyStr.CR ""
     ++ "c" ++ String PyStr.LF "" ++ String PyStr.LF "" ++ "d")
  = ["a" ++ String PyStr.CR (String PyStr.LF ""); "b" ++ String PyStr.CR "";
     "c" ++ String PyStr.LF ""; String PyStr.LF ""; "d"].
Proof. reflexivity. Qed.

Example split_sample :
  PyStr.split PyStr.DOT "a..b" = ["a"; ""; "b"] /\ PyStr.split PyStr.TAB "" = [""].
Proof. split; reflexivity. Qed.

Example strip_sample :
  PyStr.strip (String PyStr.TAB " To " ++ String PyStr.CR (String PyStr.LF "")) = "To"
  /\ PyStr.lower "To" = "to"
  /\ PyStr.rstrip_newline ("To" ++ String PyStr.LF (String PyStr.LF "")) = "To".
Proof. repeat split; reflexivity. Qed.

Example str_int_sample :
  PyStr.str_int 0 = "0" /\ PyStr.str_int (-10) = "-10" /\ PyStr.str_int 100000 = "100000".
Proof. repeat split; reflexivity. Qed.

Example csv_quoting_sample :
  Csv.writerow ["a" ++ String PyStr.TAB "b"; "2"; "-10"; "20.0"]
  = String PyStr.DQUOTE ("a" ++ String PyStr.TAB "b" ++ String PyStr.DQUOTE "")
    ++ String PyStr.TAB "2" ++ String PyStr.TAB "-10" ++ String PyStr.TAB "20.0"
    ++ Csv.CRLF
  /\ Csv.field ("q" ++ String PyStr.DQUOTE "r")
     = String PyStr.DQUOTE
         ("q" ++ String PyStr.DQUOTE (String PyStr.DQUOTE "r") ++ String PyStr.DQUOTE "")
  /\ Csv.field " sp " = " sp "
  /\ Csv.writerow [""] = String PyStr.DQUOTE (String PyStr.DQUOTE "") ++ Csv.CRLF.
Proof. repeat split; reflexivity. Qed.

(** 2 / 10 * 100, 1 / 3 * 100 and 1 / -4 * 100 as the interpreter
    computes them: 20.0, 33.33333333333333 and -25.0. *)
Example percent_sample :
  percent 2 10 = Some (PyFloat.of_int 20)
  /\ percent 1 3 = Some (S754_finite false 4691249611844266 (-47))
  /\ percent 1 (-4) = Some (PyFloat.of_int (-25))
  /\ percent 3 0 = None.
Proof. repeat split; vm_compute; reflexivity. Qed.

(** The quotient of two integers is rounded once, from the exact
    quotient: (10^30 + 1) / (10^29 + 7) is 10.0. *)
Example int_true_div_rounds_once :
  PyFloat.int_true_div (10 ^ 30 + 1) (10 ^ 29 + 7) = PyFloat.of_int 10.
Proof. vm_compute. reflexivity. Qed.

(** ** Denominator resolver and cache *)

Ltac unfold_M :=
  unfold mbind, mret, M_bind, M_ret, result_bind, result_ret,
    raise, lift, try_, print, session_get, cache_lookup, cache_store,
    cache_reset, read_file, makedirs, write_file in *; cbn [fst snd] in *.

(** What one call of the resolver does, by cases on the cache and on the
    server's answer. *)
Lemma resolver_cases project_id w :
  (exists v, proj_total_cache w !! project_id = Some v
             /\ get_total_ssm_cases_for_project project_id w = (Ok v, w))
  \/ (proj_total_cache w !! project_id = None
      /\ sent (net (snd (get_total_ssm_cases_for_project project_id w)))
         = (sent (net w) ++ [denominator_request project_id])%list
      /\ serve (net (snd (get_total_ssm_cases_for_project project_id w))) = serve (net w)
      /\ files (snd (get_total_ssm_cases_for_project project_id w)) = files w
      /\ stdout (snd (get_total_ssm_cases_for_project project_id w)) = stdout w
      /\ ((exists e, fst (get_total_ssm_cases_for_project project_id w) = Raise e
                     /\ proj_total_cache (snd (get_total_ssm_cases_for_project project_id w))
                        = proj_total_cache w)
          \/ (exists v, fst (get_total_ssm_cases_for_project project_id w) = Ok v
                        /\ proj_total_cache (snd (get_total_ssm_cases_for_project project_id w))
                           = <[project_id := v]> (proj_total_cache w)))).
Proof.
  unfold get_total_ssm_cases_for_project. unfold_M.
  destruct (proj_total_cache w !! project_id) as [v|] eqn:Hc.
  - left. exists v. split; reflexivity.
  - right. split; [reflexivity|].
    destruct (serve (net w) (sent (net w)) (denominator_request project_id)) as [resp|e];
      cbn.
    + destruct (ok resp); cbn.
      * destruct (json_total resp) as [t|e]; cbn.
        -- repeat split. right. exists t. split; reflexivity.
        -- repeat split. left. exists e. split; reflexivity.
      * repeat split. left. eexists. split; reflexivity.
    + repeat split. left. exists e. split; reflexivity.
Qed.

(** A call of the resolver only ever extends the cache. *)
Lemma resolver_cache_mono project_id w :
  proj_total_cache w ⊆ proj_total_cache (snd (get_total_ssm_cases_for_project project_id w)).
Proof.
  destruct (resolver_cases project_id w)
    as [(v & _ & ->)|(Hn & _ & _ & _ & _ & [(e & _ & ->)|(v & _ & ->)])]; cbn.
  - reflexivity.
  - reflexivity.
  - apply insert_subseteq. exact Hn.
Qed.



(** ** Python's stable sort *)

Section SortFacts.
Context {A : Type} (lt : A -> A -> bool) (P : A -> Prop).
Abbreviation not_above := (PyStr.not_above lt).
Abbreviation tie := (PyStr.tie lt).

Hypothesis lt_asym : forall a b, P a -> P b -> lt a b = true -> lt b a = false.
Hypothesis not_above_trans :
  forall a b c, P a -> P b -> P c -> not_above a b -> not_above b c -> not_above a c.

Lemma insert_sorted_perm x l : Permutation (PyStr.insert_sorted lt x l) (x :: l).
Proof.
  induction l as [|y l IH]; cbn; [reflexivity|].
  destruct (lt y x); [|reflexivity].
  rewrite IH. apply perm_swap.
Qed.

Lemma sort_perm l : Permutation (PyStr.sort lt l) l.
Proof.
  induction l as [|x l IH]; cbn; [reflexivity|].
  rewrite insert_sorted_perm. constructor. exact IH.
Qed.

Lemma sort_reverse_perm l : Permutation (PyStr.sort_reverse lt l) l.
Proof.
  unfold PyStr.sort_reverse.
  rewrite <- Permutation_rev, sort_perm, <- Permutation_rev. reflexivity.
Qed.

Lemma insert_sorted_Forall (Q : A -> Prop) x l :
  Q x -> Forall Q l -> Forall Q (PyStr.insert_sorted lt x l).
Proof.
  intros Hx Hl. eapply Permutation_Forall; [symmetry; apply insert_sorted_perm|].
  constructor; assumption.
Qed.

Lemma sort_Forall (Q : A -> Prop) l : Forall Q l -> Forall Q (PyStr.sort lt l).
Proof.
  intros Hl. eapply Permutation_Forall; [symmetry; apply sort_perm|]. exact Hl.
Qed.

Lemma insert_sorted_sorted x l :
  P x -> Forall P l ->
  StronglySorted not_above l -> StronglySorted not_above (PyStr.insert_sorted lt x l).
Proof.
  intros Hx Hl Hs. induction Hs as [|y l Hs IH Hy]; cbn.
  - constructor; constructor.
  - inversion Hl as [|? ? Py Pl]; subst.
    destruct (lt y x) eqn:Hyx.
    + constructor; [apply IH; assumption|].
      apply insert_sorted_Forall; [|exact Hy].
      unfold PyStr.not_above. apply lt_asym; assumption.
    + constructor; [constructor; assumption|].
      constructor; [exact Hyx|].
      rewrite Forall_forall in Hy, Pl. rewrite Forall_forall. intros z Hz.
      apply (not_above_trans x y z); auto.
Qed.

Lemma sort_sorted l : Forall P l -> StronglySorted not_above (PyStr.sort lt l).
Proof.
  induction l as [|x l IH]; intros Hl; cbn; [constructor|].
  inversion Hl; subst.
  apply insert_sorted_sorted; auto. apply sort_Forall. assumption.
Qed.

Lemma StronglySorted_rev_flip (R : A -> A -> Prop) l :
  StronglySorted R l -> StronglySorted (fun x y => R y x) (rev l).
Proof.
  induction 1 as [|x l Hs IH Hx]; cbn; [constructor|].
  apply StronglySorted_app_2; [|exact IH|repeat constructor].
  intros a b Ha Hb. apply list_elem_of_In in Ha, Hb.
  destruct Hb as [<-|[]]. rewrite Forall_forall in Hx. apply Hx.
  apply list_elem_of_In, in_rev. exact Ha.
Qed.

(** [sort_reverse] yields a descending list: no element is below one
    that comes after it. *)
Lemma sort_reverse_sorted l :
  Forall P l -> StronglySorted (fun x y => lt x y = false) (PyStr.sort_reverse lt l).
Proof.
  intros Hl. unfold PyStr.sort_reverse.
  apply (StronglySorted_rev_flip not_above).
  apply sort_sorted. apply Forall_rev. exact Hl.
Qed.

(** Stability: the elements that tie with [k] keep their order. *)
Lemma insert_sorted_stable k x l :
  P k -> P x -> Forall P l ->
  List.filter (tie k) (PyStr.insert_sorted lt x l) = List.filter (tie k) (x :: l).
Proof.
  intros Hk Hx Hl. induction l as [|y l IH]; [reflexivity|].
  inversion Hl as [|? ? Py Pl]; subst.
  cbn [PyStr.insert_sorted]. destruct (lt y x) eqn:Hyx; [|reflexivity].
  cbn [List.filter]. rewrite (IH Pl). cbn [List.filter].
  destruct (tie k x) eqn:Tx; [|reflexivity].
  destruct (tie k y) eqn:Ty; [|reflexivity].
  exfalso. unfold PyStr.tie in Tx, Ty.
  apply andb_prop in Tx as [Tx1 Tx2]. apply andb_prop in Ty as [Ty1 Ty2].
  apply negb_true_iff in Tx1, Tx2, Ty1, Ty2.
  assert (Hc : not_above x y)
    by (apply (not_above_trans x k y); unfold PyStr.not_above; auto).
  unfold PyStr.not_above in Hc. congruence.
Qed.

Lemma sort_stable k l :
  P k -> Forall P l -> List.filter (tie k) (PyStr.sort lt l) = List.filter (tie k) l.
Proof.
  intros Hk. induction l as [|x l IH]; intros Hl; [reflexivity|].
  inversion Hl; subst. cbn [PyStr.sort foldr].
  rewrite insert_sorted_stable; auto; [|apply sort_Forall; assumption].
  cbn [List.filter]. fold (PyStr.sort lt l). rewrite IH by assumption. reflexivity.
Qed.

Lemma filter_rev_comm (f : A -> bool) l : List.filter f (rev l) = rev (List.filter f l).
Proof.
  induction l as [|x l IH]; [reflexivity|]. cbn.
  rewrite List.filter_app, IH. cbn. destruct (f x); cbn; [reflexivity|].
  apply app_nil_r.
Qed.

Lemma sort_reverse_stable k l :
  P k -> Forall P l ->
  List.filter (tie k) (PyStr.sort_reverse lt l) = List.filter (tie k) l.
Proof.
  intros Hk Hl. unfold PyStr.sort_reverse.
  rewrite filter_rev_comm, sort_stable; auto; [|apply Forall_rev; exact Hl].
  rewrite filter_rev_comm. apply rev_involutive.
Qed.
End SortFacts.

(** ** The order on strings *)

Lemma ascii_compare_lt_trans a b c :
  Ascii.compare a b = Lt -> Ascii.compare b c = Lt -> Ascii.compare a c = Lt.
Proof.
  unfold Ascii.compare. rewrite !N.compare_lt_iff. lia.
Qed.

Lemma string_compare_lt_trans a : forall b c,
  String.compare a b = Lt -> String.compare b c = Lt -> String.compare a c = Lt.
Proof.
  induction a as [|x a IH]; intros [|y b] [|z c]; cbn; try congruence.
  destruct (Ascii.compare x y) eqn:Hxy; try discriminate;
    destruct (Ascii.compare y z) eqn:Hyz; try discriminate; intros H1 H2.
  - apply Ascii.compare_eq_iff in Hxy, Hyz. subst.
    replace (Ascii.compare z z) with Eq
      by (symmetry; unfold Ascii.compare; apply N.compare_refl).
    eapply IH; eassumption.
  - apply Ascii.compare_eq_iff in Hxy. subst. rewrite Hyz. reflexivity.
  - apply Ascii.compare_eq_iff in Hyz. subst. rewrite Hxy. reflexivity.
  - rewrite (ascii_compare_lt_trans x y z); auto.
Qed.

Lemma string_ltb_lt a b : String.ltb a b = true <-> String.compare a b = Lt.
Proof. unfold String.ltb. destruct (String.compare a b); split; congruence. Qed.

Lemma string_ltb_asym a b : String.ltb a b = true -> String.ltb b a = false.
Proof.
  unfold String.ltb. rewrite (String.compare_antisym b a).
  destruct (String.compare a b); cbn; congruence.
Qed.

Lemma string_ltb_total a b : String.ltb a b = false -> a <> b -> String.ltb b a = true.
Proof.
  unfold String.ltb. rewrite (String.compare_antisym b a).
  destruct (String.compare a b) eqn:H; cbn; try congruence.
  apply String.compare_eq_iff in H. congruence.
Qed.

Lemma string_not_above_trans a b c :
  PyStr.not_above String.ltb a b -> PyStr.not_above String.ltb b c ->
  PyStr.not_above String.ltb a c.
Proof.
  unfold PyStr.not_above. intros Hab Hbc.
  destruct (string_dec a b) as [->|Nab]; [exact Hbc|].
  destruct (string_dec b c) as [->|Nbc]; [exact Hab|].
  apply string_ltb_asym, string_ltb_lt.
  apply (string_compare_lt_trans a b c); apply string_ltb_lt;
    apply string_ltb_total; auto.
Qed.

(** A sorted list of distinct strings is strictly increasing. *)
Lemma sorted_strings_strict (l : list string) :
  NoDup l -> StronglySorted (PyStr.not_above String.ltb) l ->
  StronglySorted (fun a b => String.ltb a b = true) l.
Proof.
  intros Hnd Hs. induction Hs as [|x l Hs IH Hx]; [constructor|].
  apply NoDup_cons in Hnd as [Hni Hnd].
  constructor; [apply IH; exact Hnd|].
  rewrite Forall_forall in Hx. rewrite Forall_forall. intros y Hy.
  apply string_ltb_total; [apply Hx; exact Hy|].
  intros ->. apply Hni. exact Hy.
Qed.

Lemma sorted_strings_spec (s : gset string) :
  StronglySorted (fun a b => String.ltb a b = true) (sorted_strings s)
  /\ NoDup (sorted_strings s)
  /\ (forall g, In g (sorted_strings s) <-> g ∈ s).
Proof.
  unfold sorted_strings.
  pose proof (sort_perm String.ltb (elements s)) as Hp.
  assert (Hnd : NoDup (PyStr.sort String.ltb (elements s))).
  { rewrite Hp. apply NoDup_elements. }
  split; [|split; [exact Hnd|]].
  - apply sorted_strings_strict; [exact Hnd|].
    apply (sort_sorted String.ltb (fun _ => True)).
    + intros a b _ _. apply string_ltb_asym.
    + intros a b c _ _ _. apply string_not_above_trans.
    + apply Forall_forall. auto.
  - intros g. rewrite <- list_elem_of_In, Hp. apply elem_of_elements.
Qed.

(** ** Identifier loader *)

Lemma to_columns_shape (f : string -> bool) (l : list string) : forall k,
  match map fst (List.filter (fun ih => f (snd ih)) (combine (seq k (length l)) l)) with
  | [] => Forall (fun h => f h = false) l
  | i :: _ =>
      (k <= i)%nat
      /\ (exists h, nth_error l (i - k) = Some h /\ f h = true)
      /\ (forall j h, (j < i - k)%nat -> nth_error l j = Some h -> f h = false)
  end.
Proof.
  induction l as [|x l IH]; intros k; cbn; [constructor|].
  destruct (f x) eqn:Hx; cbn.
  - split; [lia|]. replace (k - k)%nat with 0%nat by lia.
    split; [exists x; auto|]. intros j h Hj. lia.
  - specialize (IH (S k)).
    destruct (map fst (List.filter (fun ih => f (snd ih)) (combine (seq (S k) (length l)) l)))
      as [|i rest].
    + constructor; assumption.
    + destruct IH as (Hle & (h & Hh & Hfh) & Hbefore).
      split; [lia|]. split.
      * exists h. replace (i - k)%nat with (S (i - S k)) by lia. auto.
      * intros j h' Hj Hn. destruct j as [|j]; cbn in Hn.
        -- congruence.
        -- apply (Hbefore j); [lia|exact Hn].
Qed.

Lemma is_to_header_spec h :
  is_to_header h = true <-> PyStr.lower (PyStr.strip h) = "to".
Proof. unfold is_to_header. apply String.eqb_eq. Qed.

Lemma load_line_spec to_idx gene_ids line :
  load_line to_idx gene_ids line =
    match line_gene_id to_idx line with
    | Some g => {[g]} ∪ gene_ids
    | None => gene_ids
    end.
Proof.
  unfold load_line, line_gene_id.
  repeat match goal with |- context [if ?b then _ else _] => destruct b end; reflexivity.
Qed.

Lemma load_lines_spec to_idx lines : forall gene_ids g,
  g ∈ foldl (load_line to_idx) gene_ids lines
  <-> g ∈ gene_ids \/ exists line, In line lines /\ line_gene_id to_idx line = Some g.
Proof.
  induction lines as [|l lines IH]; intros gene_ids g; cbn.
  - split; [auto|]. intros [H|(x & [] & _)]. exact H.
  - rewrite IH, load_line_spec. split.
    + intros [H|(x & Hx & Hg)].
      * destruct (line_gene_id to_idx l) as [g'|] eqn:Hl; [|auto].
        apply elem_of_union in H as [H|H]; [|auto].
        apply elem_of_singleton in H. subst. right. exists l. auto.
      * right. exists x. auto.
    + intros [H|(x & [<-|Hx] & Hg)].
      * left. destruct (line_gene_id to_idx l); [|exact H].
        apply elem_of_union. right. exact H.
      * left. rewrite Hg. apply elem_of_union. left. apply elem_of_singleton. reflexivity.
      * right. exists x. auto.
Qed.

Lemma split_hd_no_sep sep s : PyStr.contains_char sep (hd "" (PyStr.split sep s)) = false.
Proof.
  induction s as [|c s IH]; cbn; [reflexivity|].
  destruct (Ascii.eqb c sep) eqn:Hc; cbn; [reflexivity|].
  destruct (PyStr.split sep s) as [|x r]; cbn in *; rewrite Hc; cbn; auto.
Qed.

Lemma line_gene_id_shape to_idx line g :
  line_gene_id to_idx line = Some g ->
  PyStr.startswith g GENE_PREFIX = true /\ PyStr.contains_char PyStr.DOT g = false.
Proof.
  unfold line_gene_id.
  repeat match goal with |- context [if ?b then _ else _] => destruct b eqn:? end;
    try discriminate.
  intros [= <-]. split; [assumption|apply split_hd_no_sep].
Qed.


Example demo_load : load_gene_ids_text demo_table = Ok ["ENSG00000100342"].
Proof. vm_compute. reflexivity. Qed.

(** C9: the loader fails, with its missing-column error and no other,
    exactly when no cell of the header row equals "to" once trimmed and
    lower-cased; otherwise the column it reads is the first such cell; and
    a run whose mapping file lacks the column stops with that error before
    any request is sent or any file is written. *)
Theorem loader_fails_iff_no_to_column `{FloatStr} (text : string) :
  (load_gene_ids_text text = Raise MissingToColumn
   <-> ~ exists h, In h (header_cells text) /\ PyStr.lower (PyStr.strip h) = "to")
  /\ (forall e, load_gene_ids_text text = Raise e -> e = MissingToColumn)
  /\ (forall to_idx rest, to_columns (header_cells text) = to_idx :: rest ->
        (exists h, nth_error (header_cells text) to_idx = Some h
                   /\ PyStr.lower (PyStr.strip h) = "to")
        /\ (forall j h, (j < to_idx)%nat -> nth_error (header_cells text) j = Some h ->
              PyStr.lower (PyStr.strip h) <> "to")
        /\ load_gene_ids_text text
           = Ok (sorted_strings (foldl (load_line to_idx) ∅ (tl (PyStr.readlines text)))))
  /\ (forall w, files w !! MAPPING_FILE = Some text ->
        load_gene_ids_text text = Raise MissingToColumn ->
        exists w', main w = (Raise MissingToColumn, w')
                   /\ sent (net w') = sent (net w)
                   /\ files w' = files w
                   /\ proj_total_cache w' = proj_total_cache w).
Proof.
  pose proof (to_columns_shape is_to_header (header_cells text) 0) as Hshape.
  assert (Hload : load_gene_ids_text text =
                  match to_columns (header_cells text) with
                  | [] => Raise MissingToColumn
                  | to_idx :: _ =>
                      Ok (sorted_strings (foldl (load_line to_idx) ∅ (tl (PyStr.readlines text))))
                  end) by reflexivity.
  fold (enumerate (header_cells text)) in Hshape.
  fold (to_columns (header_cells text)) in Hshape.
  split; [|split; [|split]].
  - rewrite Hload. destruct (to_columns (header_cells text)) as [|i rest].
    + split; [|reflexivity]. intros _ (h & Hin & Hh).
      rewrite Forall_forall in Hshape. apply list_elem_of_In in Hin.
      apply Hshape in Hin. apply is_to_header_spec in Hh. congruence.
    + split; [discriminate|]. intros Hno. exfalso. apply Hno.
      destruct Hshape as (_ & (h & Hn & Hh) & _).
      exists h. split; [eapply nth_error_In; exact Hn|apply is_to_header_spec; exact Hh].
  - intros e. rewrite Hload. destruct (to_columns (header_cells text)); congruence.
  - intros i rest Hi. rewrite Hload, Hi. rewrite Hi in Hshape.
    destruct Hshape as (_ & (h & Hn & Hh) & Hbefore).
    rewrite Nat.sub_0_r in Hn.
    split; [exists h; split; [exact Hn|apply is_to_header_spec; exact Hh]|].
    split; [|reflexivity].
    intros j h' Hj Hn' Hto. apply is_to_header_spec in Hto.
    rewrite (Hbefore j h') in Hto; [discriminate|lia|exact Hn'].
  - intros w Hfile Hfail. unfold main, load_gene_ids. unfold_M.
    cbn [files net proj_total_cache stdout]. rewrite Hfile, Hfail.
    eexists. split; [reflexivity|]. cbn. auto.
Qed.

(** C4: for a table whose header row has a "to" column the loader
    returns a list in strictly increasing lexicographic order (sorted,
    hence without duplicates) whose entries all start with the prefix and
    contain no dot, and which holds exactly the identifiers its data lines
    contribute; the three-row table of the scenario yields the single
    identifier. *)
Theorem loader_output_sorted_unique_prefixed (text : string) :
  (exists h, In h (header_cells text) /\ PyStr.lower (PyStr.strip h) = "to") ->
  (exists ids to_idx rest,
      load_gene_ids_text text = Ok ids
      /\ to_columns (header_cells text) = to_idx :: rest
      /\ StronglySorted (fun a b => String.ltb a b = true) ids
      /\ NoDup ids
      /\ Forall (fun g => PyStr.startswith g GENE_PREFIX = true
                          /\ PyStr.contains_char PyStr.DOT g = false) ids
      /\ (forall g, In g ids <->
            exists line, In line (tl (PyStr.readlines text))
                         /\ line_gene_id to_idx line = Some g))
  /\ load_gene_ids_text demo_table = Ok ["ENSG00000100342"].
Proof.
  intros (h & Hin & Hh). split; [|vm_compute; reflexivity].
  pose proof (to_columns_shape is_to_header (header_cells text) 0) as Hshape.
  fold (enumerate (header_cells text)) in Hshape.
  fold (to_columns (header_cells text)) in Hshape.
  destruct (to_columns (header_cells text)) as [|i rest] eqn:Hcols.
  { rewrite Forall_forall in Hshape. apply list_elem_of_In in Hin.
    apply Hshape in Hin. apply is_to_header_spec in Hh. congruence. }
  set (s := foldl (load_line i) ∅ (tl (PyStr.readlines text))).
  exists (sorted_strings s), i, rest.
  destruct (sorted_strings_spec s) as (Hsorted & Hnd & Hmem).
  assert (Hset : forall g, g ∈ s <->
            exists line, In line (tl (PyStr.readlines text)) /\ line_gene_id i line = Some g).
  { intros g. unfold s. rewrite load_lines_spec. split; [|auto].
    intros [Hemp|Hl]; [|exact Hl]. apply not_elem_of_empty in Hemp. destruct Hemp. }
  split; [unfold load_gene_ids_text; fold (header_cells text); rewrite Hcols; reflexivity|].
  split; [reflexivity|]. split; [exact Hsorted|]. split; [exact Hnd|]. split.
  - apply Forall_forall. intros g Hg. apply list_elem_of_In, Hmem, Hset in Hg.
    destruct Hg as (line & _ & Hline). eapply line_gene_id_shape. exact Hline.
  - intros g. rewrite Hmem. apply Hset.
Qed.

Lemma loader_output_sorted_unique_prefixed_witness :
  In (nth 1 (header_cells demo_table) "") (header_cells demo_table)
  /\ PyStr.lower (PyStr.strip (nth 1 (header_cells demo_table) "")) = "to"
  /\ exists ids, load_gene_ids_text demo_table = Ok ids
                 /\ StronglySorted (fun a b => String.ltb a b = true) ids
                 /\ NoDup ids.
Proof.
  assert (Hin : In (nth 1 (header_cells demo_table) "") (header_cells demo_table))
    by (vm_compute; auto).
  assert (Hto : PyStr.lower (PyStr.strip (nth 1 (header_cells demo_table) "")) = "to")
    by (vm_compute; reflexivity).
  split; [exact Hin|]. split; [exact Hto|].
  destruct (loader_output_sorted_unique_prefixed demo_table) as [Hgen _].
  - exists (nth 1 (header_cells demo_table) ""). split; [exact Hin|exact Hto].
  - destruct Hgen as (ids & _ & _ & Hload & _ & Hsorted & Hnd & _).
    exists ids. auto.
Defined.

(** ** Occurrence fetcher *)

Lemma hit_step_complete m item :
  hit_complete item = true ->
  hit_step m item = Ok (match hit_pair item with Some pc => add_pair m pc | None => m end).
Proof.
  unfold hit_complete, hit_pair, hit_step, hit_ids.
  destruct (getitem item "case") as [c|e]; cbn; [|discriminate].
  destruct (getitem c "project") as [pr|e]; cbn; [|discriminate].
  destruct (getitem pr "project_id") as [proj|e]; cbn; [|discriminate].
  destruct (getitem c "case_id") as [cid|e]; cbn; [|discriminate].
  destruct proj as [|p| |], cid as [|c'| |]; cbn; try discriminate; intros _;
    try reflexivity.
  - destruct (String.eqb p ""); reflexivity.
  - destruct (String.eqb p ""), (String.eqb c' ""); reflexivity.
Qed.

Lemma hits_loop_complete items : forall m,
  Forall (fun item => hit_complete item = true) items ->
  hits_loop m items = Ok (foldl add_pair m (omap hit_pair items)).
Proof.
  induction items as [|item items IH]; intros m Hall; [reflexivity|].
  inversion Hall as [|? ? Hitem Hrest]; subst. cbn [hits_loop].
  rewrite (hit_step_complete m item Hitem). cbn.
  rewrite (IH _ Hrest). destruct (hit_pair item); reflexivity.
Qed.

Lemma occ_add_lookup proj case_id m p c :
  (exists s, In (p, s) (occ_add proj case_id m) /\ c ∈ s)
  <-> (p = proj /\ c = case_id) \/ (exists s, In (p, s) m /\ c ∈ s).
Proof.
  induction m as [|[q s] m IH]; cbn.
  - split.
    + intros (s & [[= <- <-]|[]] & Hc). apply elem_of_singleton in Hc. auto.
    + intros [[-> ->]|(s & [] & _)]. exists {[case_id]}. split; [auto|].
      apply elem_of_singleton. reflexivity.
  - destruct (String.eqb_spec q proj) as [->|Hne]; cbn.
    + split.
      * intros (s' & [[= <- <-]|Hin] & Hc).
        -- apply elem_of_union in Hc as [Hc|Hc].
           ++ apply elem_of_singleton in Hc. auto.
           ++ right. exists s. auto.
        -- right. exists s'. auto.
      * intros [[-> ->]|(s' & [[= <- <-]|Hin] & Hc)].
        -- exists ({[case_id]} ∪ s). split; [auto|].
           apply elem_of_union. left. apply elem_of_singleton. reflexivity.
        -- exists ({[case_id]} ∪ s). split; [auto|]. apply elem_of_union. auto.
        -- exists s'. auto.
    + split.
      * intros (s' & [[= <- <-]|Hin] & Hc).
        -- right. exists s. auto.
        -- assert (Hex : exists s, In (p, s) (occ_add proj case_id m) /\ c ∈ s)
             by (exists s'; auto).
           apply IH in Hex as [Hex|(s'' & Hin' & Hc')]; [auto|].
           right. exists s''. auto.
      * intros [Heq|(s' & [[= <- <-]|Hin] & Hc)].
        -- assert (Hex : exists s, In (p, s) (occ_add proj case_id m) /\ c ∈ s)
             by (apply IH; auto).
           destruct Hex as (s' & Hin & Hc). exists s'. auto.
        -- exists s. auto.
        -- assert (Hex : exists s, In (p, s) (occ_add proj case_id m) /\ c ∈ s)
             by (apply IH; right; exists s'; auto).
           destruct Hex as (s'' & Hin' & Hc'). exists s''. auto.
Qed.

Lemma occurrence_map_fold_lookup pairs : forall m p c,
  (exists s, In (p, s) (foldl add_pair m pairs) /\ c ∈ s)
  <-> In (p, c) pairs \/ (exists s, In (p, s) m /\ c ∈ s).
Proof.
  induction pairs as [|[q d] pairs IH]; intros m p c; cbn [foldl].
  - split; [auto|]. intros [[]|H]. exact H.
  - rewrite IH. unfold add_pair. cbn [fst snd]. rewrite occ_add_lookup. cbn [In].
    split.
    + intros [H|[[-> ->]|H]]; auto.
    + intros [[[= -> ->]|H]|H]; auto.
Qed.


Lemma occ_add_keys proj case_id m :
  (In proj (map fst m) /\ map fst (occ_add proj case_id m) = map fst m)
  \/ (~ In proj (map fst m) /\ map fst (occ_add proj case_id m) = (map fst m ++ [proj])%list).
Proof.
  induction m as [|[q s] m IH]; cbn.
  - right. split; [tauto|reflexivity].
  - destruct (String.eqb_spec q proj) as [->|Hne]; cbn.
    + left. split; [auto|reflexivity].
    + destruct IH as [[Hin Heq]|[Hni Heq]]; rewrite Heq.
      * left. split; [auto|reflexivity].
      * right. split; [|reflexivity]. intros [H|H]; auto.
Qed.

Lemma occ_add_nonempty proj case_id m :
  Forall (fun e => snd e <> ∅) m -> Forall (fun e => snd e <> ∅) (occ_add proj case_id m).
Proof.
  assert (Hne : forall s : gset string, {[case_id]} ∪ s <> ∅).
  { intros s Hs. assert (Hin : case_id ∈ {[case_id]} ∪ s)
      by (apply elem_of_union; left; apply elem_of_singleton; reflexivity).
    rewrite Hs in Hin. apply not_elem_of_empty in Hin. exact Hin. }
  induction m as [|[q s] m IH]; cbn; intros Hm.
  - constructor; [|constructor]. cbn. rewrite <- (right_id_L ∅ (∪) {[case_id]}). apply Hne.
  - inversion Hm; subst. destruct (String.eqb q proj); constructor; cbn; auto.
Qed.

Lemma occ_add_wf proj case_id m : occ_wf m -> occ_wf (occ_add proj case_id m).
Proof.
  intros [Hnd Hne]. split; [|apply occ_add_nonempty; exact Hne].
  destruct (occ_add_keys proj case_id m) as [[_ ->]|[Hni ->]]; [exact Hnd|].
  apply List.NoDup_app; [exact Hnd|repeat constructor; intros []|].
  intros x Hx [<-|[]]. auto.
Qed.

Lemma hit_step_wf m item m' : hit_step m item = Ok m' -> occ_wf m -> occ_wf m'.
Proof.
  unfold hit_step.
  destruct (getitem item "case") as [c|e]; cbn; [|discriminate].
  destruct (getitem c "project") as [pr|e]; cbn; [|discriminate].
  destruct (getitem pr "project_id") as [proj|e]; cbn; [|discriminate].
  destruct (getitem c "case_id") as [cid|e]; cbn; [|discriminate].
  destruct (truthy proj && truthy cid); [|intros [= <-]; auto].
  destruct proj, cid; try discriminate. intros [= <-]. apply occ_add_wf.
Qed.

Lemma hits_loop_wf items : forall m m', hits_loop m items = Ok m' -> occ_wf m -> occ_wf m'.
Proof.
  induction items as [|item items IH]; intros m m'; cbn.
  - intros [= <-]. auto.
  - destruct (hit_step m item) as [m1|e] eqn:Hstep; cbn; [|discriminate].
    intros Hloop Hwf. eapply IH; [exact Hloop|]. eapply hit_step_wf; eassumption.
Qed.

Lemma occ_wf_nil : occ_wf [].
Proof. split; constructor. Qed.

(** What a fetch does to the world, and the shape of what it returns. *)
Lemma fetch_effect gene_id w :
  net (snd (get_mutated_cases_by_project gene_id w))
    = {| sent := sent (net w) ++ [occurrence_request gene_id]; serve := serve (net w) |}
  /\ proj_total_cache (snd (get_mutated_cases_by_project gene_id w)) = proj_total_cache w
  /\ files (snd (get_mutated_cases_by_project gene_id w)) = files w
  /\ stdout (snd (get_mutated_cases_by_project gene_id w)) = stdout w
  /\ (forall m, fst (get_mutated_cases_by_project gene_id w) = Ok m -> occ_wf m).
Proof.
  unfold get_mutated_cases_by_project. unfold_M.
  destruct (serve (net w) (sent (net w)) (occurrence_request gene_id)) as [resp|e]; cbn;
    [|do 4 (split; [reflexivity|]); discriminate].
  destruct (ok resp); cbn; [|do 4 (split; [reflexivity|]); discriminate].
  destruct (json_hits resp) as [data|e]; cbn; [|do 4 (split; [reflexivity|]); discriminate].
  destruct (py_iter data) as [items|e]; cbn; [|do 4 (split; [reflexivity|]); discriminate].
  do 4 (split; [reflexivity|]).
  intros m Hm. eapply hits_loop_wf; [exact Hm|apply occ_wf_nil].
Qed.

(** C3, as the code has it: when the query succeeds and every hit carries
    both identifier fields (each null or a string), the fetcher does not
    raise; it drops exactly the hits one of whose identifiers is null or
    empty, goes on with the hits after them, and returns the map built, in
    order, from the remaining hits: a case belongs to a project's set
    exactly when one of the hits pairs them. *)
Theorem fetcher_discards_empty_identifiers gene_id w resp items :
  serve (net w) (sent (net w)) (occurrence_request gene_id) = Ok resp ->
  ok resp = true ->
  json_hits resp = Ok (JArr items) ->
  Forall (fun item => hit_complete item = true) items ->
  fst (get_mutated_cases_by_project gene_id w) = Ok (occurrence_map_of (omap hit_pair items))
  /\ (forall p c, (exists s, In (p, s) (occurrence_map_of (omap hit_pair items)) /\ c ∈ s)
                  <-> exists item, In item items /\ hit_pair item = Some (p, c))
  /\ (forall item, In item items ->
        exists proj case_id, hit_ids item = Ok (proj, case_id)
          /\ (hit_pair item = None <-> truthy proj && truthy case_id = false)).
Proof.
  intros Hserve Hok Hhits Hall. split; [|split].
  - unfold get_mutated_cases_by_project. unfold_M.
    rewrite Hserve. cbn. rewrite Hok. cbn. rewrite Hhits. cbn.
    rewrite (hits_loop_complete items [] Hall). reflexivity.
  - intros p c. unfold occurrence_map_of. rewrite occurrence_map_fold_lookup.
    split.
    + intros [Hin|(s & [] & _)]. apply list_elem_of_In, list_elem_of_omap in Hin.
      destruct Hin as (item & Hin & Hp). exists item. split; [apply list_elem_of_In|]; auto.
    + intros (item & Hin & Hp). left. apply list_elem_of_In, list_elem_of_omap.
      exists item. split; [apply list_elem_of_In|]; auto.
  - intros item Hin. rewrite Forall_forall in Hall.
    apply list_elem_of_In, Hall in Hin. unfold hit_complete, hit_pair in *.
    destruct (hit_ids item) as [[proj cid]|e]; [|discriminate].
    exists proj, cid. split; [reflexivity|].
    destruct proj as [|p| |], cid as [|c| |]; cbn in *; try discriminate;
      try (split; reflexivity).
    + destruct (String.eqb p ""); split; reflexivity.
    + destruct (String.eqb p ""), (String.eqb c ""); cbn; split; congruence.
Qed.

Lemma fetcher_discards_empty_identifiers_witness :
  fst (get_mutated_cases_by_project "ENSG00000100342"
         (demo_world (hits_server demo_hits)))
  = Ok [("ProjA", {[ "case2"; "case1" ]}); ("ProjB", {[ "case3" ]})].
Proof.
  destruct (fetcher_discards_empty_identifiers "ENSG00000100342"
              (demo_world (hits_server demo_hits))
              {| ok := true; status_code := 200; text := "";
                 json_hits := Ok demo_hits; json_total := Ok 0 |}
              demo_hit_list) as [Hfetch _].
  - reflexivity.
  - reflexivity.
  - reflexivity.
  - repeat constructor.
  - rewrite Hfetch. vm_compute. reflexivity.
Defined.

(** C3, counterexample: a hit that lacks the project field makes the
    fetcher raise, and the well-formed hit after it is never processed. *)
Lemma fetcher_raises_on_missing_field :
  fst (get_mutated_cases_by_project "ENSG00000100342"
         (demo_world (hits_server
            (JArr [hit_without_project (JStr "case1"); hit (JStr "ProjA") (JStr "case2")]))))
  = Raise (KeyError "project").
Proof. vm_compute. reflexivity. Qed.

(** ** Facts on binary64 arithmetic and order *)

Lemma iter_pos_invariant {A} (f : A -> A) (Q : A -> Prop) :
  (forall x, Q x -> Q (f x)) -> forall p x, Q x -> Q (SpecFloat.iter_pos f p x).
Proof.
  intros Hf. induction p as [p IH|p IH|]; intros x Hx; cbn; auto.
Qed.

Lemma shr_1_nonneg mrs : 0 <= shr_m mrs -> 0 <= shr_m (shr_1 mrs).
Proof.
  destruct mrs as [m r s]. cbn. destruct m as [|[p|p|]|[p|p|]]; cbn; lia.
Qed.

Lemma shr_nonneg mrs e n : 0 <= shr_m mrs -> 0 <= shr_m (fst (shr mrs e n)).
Proof.
  intros H. unfold shr. destruct n as [|p|p]; cbn; auto.
  apply (iter_pos_invariant shr_1 (fun r => 0 <= shr_m r)); auto using shr_1_nonneg.
Qed.

Lemma shr_record_of_loc_m m l : shr_m (shr_record_of_loc m l) = m.
Proof. destruct l as [|[]]; reflexivity. Qed.

Lemma shr_fexp_nonneg prec emax m e l :
  0 <= m -> 0 <= shr_m (fst (shr_fexp prec emax m e l)).
Proof.
  intros H. unfold shr_fexp. apply shr_nonneg. rewrite shr_record_of_loc_m. exact H.
Qed.

Lemma round_nearest_even_nonneg m l : 0 <= m -> 0 <= round_nearest_even m l.
Proof.
  intros H. unfold round_nearest_even. destruct l as [|[]]; try lia.
  destruct (Z.even m); lia.
Qed.

Lemma binary_round_aux_not_nan prec emax s m e l :
  0 <= m -> PyFloat.is_nan (binary_round_aux prec emax s m e l) = false.
Proof.
  intros H. unfold binary_round_aux.
  pose proof (shr_fexp_nonneg prec emax m e l H) as H1.
  destruct (shr_fexp prec emax m e l) as [mrs' e']. cbn [fst] in H1.
  pose proof (shr_fexp_nonneg prec emax
                (round_nearest_even (shr_m mrs') (loc_of_shr_record mrs')) e' loc_Exact
                (round_nearest_even_nonneg _ _ H1)) as H2.
  destruct (shr_fexp prec emax _ e' loc_Exact) as [mrs'' e'']. cbn [fst] in H2.
  destruct (shr_m mrs'') as [|p|p]; [reflexivity| |lia].
  destruct (e'' <=? emax - prec); reflexivity.
Qed.

Lemma div_core_nonneg prec emax m1 e1 m2 e2 :
  0 <= m1 -> 0 < m2 -> 0 <= fst (fst (SFdiv_core_binary prec emax m1 e1 m2 e2)).
Proof.
  intros H1 H2. unfold SFdiv_core_binary.
  set (s := e1 - e2 - _).
  set (m' := match s with Z0 => m1 | Zpos _ => Z.shiftl m1 s | Zneg _ => 0 end).
  assert (Hm' : 0 <= m').
  { unfold m'. destruct s; [exact H1| |lia]. apply Z.shiftl_nonneg. exact H1. }
  pose proof (Z.div_pos m' m2 Hm' H2) as Hq.
  unfold Z.div in Hq. destruct (Z.div_eucl m' m2) as [q r]. exact Hq.
Qed.

Lemma int_true_div_not_nan a b :
  0 <= a -> b <> 0 -> PyFloat.is_nan (PyFloat.int_true_div a b) = false.
Proof.
  intros Ha Hb. unfold PyFloat.int_true_div, PyFloat.exact_int.
  destruct a as [|p|p]; [| |lia]; destruct b as [|q|q]; try congruence; try reflexivity.
  all: unfold SFdiv;
    pose proof (div_core_nonneg PyFloat.prec PyFloat.emax (Z.pos p) 0 (Z.pos q) 0
                  ltac:(lia) ltac:(lia)) as Hq;
    destruct (SFdiv_core_binary PyFloat.prec PyFloat.emax (Z.pos p) 0 (Z.pos q) 0)
      as [[mz ez] lz]; cbn [fst] in Hq;
    apply binary_round_aux_not_nan; exact Hq.
Qed.

Lemma float_100 : PyFloat.of_int 100 = S754_finite false 7036874417766400 (-46).
Proof. vm_compute. reflexivity. Qed.

Lemma mul_100_not_nan x :
  PyFloat.is_nan x = false ->
  PyFloat.is_nan (PyFloat.mul x (PyFloat.of_int 100)) = false.
Proof.
  rewrite float_100. intros Hx. unfold PyFloat.mul, SFmul.
  destruct x as [s|s| |s m e]; try reflexivity; try discriminate.
  apply binary_round_aux_not_nan. lia.
Qed.

Lemma percent_not_nan n t x : percent n t = Some x -> PyFloat.is_nan x = false.
Proof.
  unfold percent. destruct (Z.eqb_spec t 0) as [|Hne]; [discriminate|].
  intros [= <-]. apply mul_100_not_nan. apply int_true_div_not_nan; [lia|exact Hne].
Qed.

Lemma float_ltb_asym x y : PyFloat.ltb x y = true -> PyFloat.ltb y x = false.
Proof.
  unfold PyFloat.ltb, SFltb.
  destruct x as [[]|[]| |[] m1 e1], y as [[]|[]| |[] m2 e2]; cbn; try congruence.
  all: rewrite (Z.compare_antisym e1 e2);
    change (Pos.compare_cont Eq m2 m1) with (Pos.compare m2 m1);
    change (Pos.compare_cont Eq m1 m2) with (Pos.compare m1 m2);
    rewrite (Pos.compare_antisym m1 m2);
    destruct (e1 ?= e2); cbn; try congruence;
    destruct (m1 ?= m2)%positive; cbn; congruence.
Qed.

Ltac float_order_cases :=
  repeat match goal with
    | |- context [Pos.compare_cont Eq ?a ?b] =>
        change (Pos.compare_cont Eq a b) with (Pos.compare a b)
    end;
  repeat match goal with
    | |- context [(?a ?= ?b)] =>
        let H := fresh "Hc" in
        destruct (Z.compare_spec a b) as [H|H|H]; cbn; try congruence
    end;
  repeat match goal with
    | |- context [(?a ?= ?b)%positive] =>
        let H := fresh "Hp" in
        destruct (Pos.compare_spec a b) as [H|H|H]; cbn; try congruence
    end;
  try lia.

Lemma float_not_above_trans a b c :
  PyFloat.is_nan a = false -> PyFloat.is_nan b = false -> PyFloat.is_nan c = false ->
  PyStr.not_above PyFloat.ltb a b -> PyStr.not_above PyFloat.ltb b c ->
  PyStr.not_above PyFloat.ltb a c.
Proof.
  unfold PyStr.not_above, PyFloat.ltb, SFltb.
  destruct a as [[]|[]| |[] m1 e1], b as [[]|[]| |[] m2 e2], c as [[]|[]| |[] m3 e3];
    cbn; try congruence; intros _ _ _; float_order_cases.
Qed.

Lemma float_tie_eqb x y :
  PyFloat.is_nan x = false -> PyFloat.is_nan y = false ->
  PyStr.tie PyFloat.ltb x y = PyFloat.eqb y x.
Proof.
  unfold PyStr.tie, PyFloat.ltb, PyFloat.eqb, SFltb, SFeqb.
  destruct x as [[]|[]| |[] m1 e1], y as [[]|[]| |[] m2 e2];
    cbn; try congruence; intros _ _; float_order_cases.
Qed.

(** ** Aggregation: rows, order, stability *)

Lemma sort_key_not_nan r :
  (forall x, percent_cases_affected r = Some x -> PyFloat.is_nan x = false) ->
  PyFloat.is_nan (sort_key r) = false.
Proof.
  unfold sort_key. intros H. destruct (percent_cases_affected r) as [x|]; [|reflexivity].
  specialize (H x eq_refl). destruct x; auto.
Qed.

Lemma build_rows_keys occ den :
  Forall (fun r => PyFloat.is_nan (sort_key r) = false) (build_rows occ den).
Proof.
  unfold build_rows. apply Forall_forall. intros r Hr.
  apply list_elem_of_In, in_map_iff in Hr as ([p s] & <- & _).
  apply sort_key_not_nan. cbn. apply percent_not_nan.
Qed.

Lemma row_lt_asym r1 r2 : row_lt r1 r2 = true -> row_lt r2 r1 = false.
Proof. apply float_ltb_asym. Qed.

Lemma row_not_above_trans r1 r2 r3 :
  PyFloat.is_nan (sort_key r1) = false ->
  PyFloat.is_nan (sort_key r2) = false ->
  PyFloat.is_nan (sort_key r3) = false ->
  PyStr.not_above row_lt r1 r2 -> PyStr.not_above row_lt r2 r3 ->
  PyStr.not_above row_lt r1 r3.
Proof. apply float_not_above_trans. Qed.

(** Sorting an ascending list leaves it as it is. *)
Lemma sort_of_sorted {A} (lt : A -> A -> bool) l :
  StronglySorted (PyStr.not_above lt) l -> PyStr.sort lt l = l.
Proof.
  induction 1 as [|x l Hs IH Hx]; [reflexivity|].
  cbn [PyStr.sort foldr]. fold (PyStr.sort lt l). rewrite IH.
  destruct l as [|y l]; [reflexivity|]. cbn.
  inversion Hx as [|? ? Hxy _]; subst. unfold PyStr.not_above in Hxy.
  rewrite Hxy. reflexivity.
Qed.

Lemma sort_rows_spec rows :
  Forall (fun r => PyFloat.is_nan (sort_key r) = false) rows ->
  Permutation (sort_rows rows) rows
  /\ StronglySorted (fun r1 r2 => PyFloat.ltb (sort_key r1) (sort_key r2) = false)
       (sort_rows rows)
  /\ (forall x, PyFloat.is_nan x = false ->
        List.filter (fun r => PyFloat.eqb (sort_key r) x) (sort_rows rows)
        = List.filter (fun r => PyFloat.eqb (sort_key r) x) rows)
  /\ sort_rows (sort_rows rows) = sort_rows rows.
Proof.
  intros Hkeys. unfold sort_rows.
  pose proof (sort_reverse_sorted row_lt
                (fun r => PyFloat.is_nan (sort_key r) = false)
                (fun a b _ _ => row_lt_asym a b) row_not_above_trans rows Hkeys) as Hsorted.
  split; [apply sort_reverse_perm|]. split; [exact Hsorted|]. split.
  - intros x Hx.
    set (k := {| project_id := ""; cases_affected := 0; total_cases_with_ssm_data := 0;
                 percent_cases_affected := Some x |}).
    assert (Hk : PyFloat.is_nan (sort_key k) = false)
      by (apply sort_key_not_nan; intros y [= <-]; exact Hx).
    assert (Hext : forall l, Forall (fun r => PyFloat.is_nan (sort_key r) = false) l ->
              List.filter (fun r => PyFloat.eqb (sort_key r) x) l
              = List.filter (PyStr.tie row_lt k) l).
    { intros l Hl. apply List.filter_ext_in. intros r Hr.
      rewrite Forall_forall in Hl. apply list_elem_of_In, Hl in Hr.
      unfold PyStr.tie, row_lt.
      change (PyFloat.eqb (sort_key r) x = PyStr.tie PyFloat.ltb (sort_key k) (sort_key r)).
      rewrite (float_tie_eqb _ _ Hk Hr).
      unfold k, sort_key at 2. cbn. destruct x; reflexivity. }
    rewrite (Hext rows Hkeys), Hext.
    + apply (sort_reverse_stable row_lt (fun r => PyFloat.is_nan (sort_key r) = false));
        [exact row_not_above_trans|exact Hk|exact Hkeys].
    + eapply Permutation_Forall; [symmetry; apply sort_reverse_perm|exact Hkeys].
  - unfold PyStr.sort_reverse at 1. rewrite sort_of_sorted; [apply rev_involutive|].
    apply (StronglySorted_rev_flip (fun r1 r2 => row_lt r1 r2 = false)) in Hsorted.
    exact Hsorted.
Qed.

Lemma build_rows_projects occ den : map project_id (build_rows occ den) = map fst occ.
Proof.
  unfold build_rows. rewrite map_map. apply map_ext. intros [p s]. reflexivity.
Qed.

Lemma write_tsv_effect `{FloatStr} gene_id occ den w :
  write_cancer_distribution_tsv gene_id occ den w
  = match report_error w gene_id with
    | Some e => (Raise e, w)
    | None =>
        (Ok (out_path_of gene_id),
         {| net := net w; proj_total_cache := proj_total_cache w;
            files := <[out_path_of gene_id := tsv_text (distribution_report occ den)]>
                       (files w);
            refused := refused w; stdout := stdout w |})
    end.
Proof.
  unfold write_cancer_distribution_tsv, report_error, makedirs, write_file. unfold_M.
  destruct (refused w (files w) OUT_DIR); [reflexivity|].
  destruct (refused w (files w) (out_path_of gene_id)); reflexivity.
Qed.

(** C2: the report is the built rows (one per project, in the order the
    map iterates them) rearranged so that no row is followed by one with a
    larger sort key, where the key is the percentage and 0 when it is
    absent; the rows that share a key value keep the order they were built
    in; sorting a report again changes nothing; and the file written
    depends on the two inputs only, so that aggregating them a second time
    writes the same report. *)
Theorem report_sorted_descending_and_stable `{FloatStr} occ den :
  map project_id (build_rows occ den) = map fst occ
  /\ Permutation (distribution_report occ den) (build_rows occ den)
  /\ StronglySorted (fun r1 r2 => PyFloat.ltb (sort_key r1) (sort_key r2) = false)
       (distribution_report occ den)
  /\ (forall r, percent_cases_affected r = None -> sort_key r = PyFloat.zero)
  /\ (forall r x, percent_cases_affected r = Some x -> PyFloat.is_nan x = false ->
        PyFloat.eqb (sort_key r) x = true)
  /\ (forall x, PyFloat.is_nan x = false ->
        List.filter (fun r => PyFloat.eqb (sort_key r) x) (distribution_report occ den)
        = List.filter (fun r => PyFloat.eqb (sort_key r) x) (build_rows occ den))
  /\ sort_rows (distribution_report occ den) = distribution_report occ den
  /\ (forall gene_id w1 w2,
        report_error w1 gene_id = None ->
        report_error w2 gene_id = None ->
        files (snd (write_cancer_distribution_tsv gene_id occ den w1)) !! out_path_of gene_id
        = files (snd (write_cancer_distribution_tsv gene_id occ den w2)) !! out_path_of gene_id).
Proof.
  destruct (sort_rows_spec (build_rows occ den) (build_rows_keys occ den))
    as (Hperm & Hsorted & Hstable & Hidem).
  split; [apply build_rows_projects|]. split; [exact Hperm|]. split; [exact Hsorted|].
  split; [intros r Hr; unfold sort_key; rewrite Hr; reflexivity|].
  split.
  { intros r x Hr Hx. unfold sort_key. rewrite Hr.
    destruct x as [[]|[]| |[] m e]; try discriminate; try reflexivity;
      unfold PyFloat.eqb, SFeqb; cbn;
      change (Pos.compare_cont Eq m m) with (Pos.compare m m);
      rewrite Z.compare_refl, Pos.compare_refl; reflexivity. }
  split; [exact Hstable|]. split; [exact Hidem|].
  intros gene_id w1 w2 H1 H2. rewrite !write_tsv_effect, H1, H2. cbn.
  rewrite !lookup_insert_eq. reflexivity.
Qed.

Lemma distribution_report_rows occ den r :
  In r (distribution_report occ den) <->
  exists proj case_set, In (proj, case_set) occ
    /\ r = {| project_id := proj;
              cases_affected := size case_set;
              total_cases_with_ssm_data := default 0 (den !! proj);
              percent_cases_affected := percent (size case_set) (default 0 (den !! proj)) |}.
Proof.
  destruct (sort_rows_spec (build_rows occ den) (build_rows_keys occ den)) as (Hperm & _).
  unfold distribution_report.
  rewrite <- !list_elem_of_In, Hperm, list_elem_of_In. unfold build_rows.
  rewrite in_map_iff. split.
  - intros ([p s] & <- & Hin). exists p, s. split; [exact Hin|reflexivity].
  - intros (p & s & Hin & ->). exists (p, s). split; [reflexivity|exact Hin].
Qed.

(** C5: the rows of the report are exactly one row per entry of the
    occurrence map, holding the project, the size of its case set, the
    denominator looked up for it (0 when the mapping has none) and the
    percentage: the correctly rounded quotient times 100 when the
    denominator is positive, nothing when it is 0.  On the scenario's
    inputs the report is the ProjA row (2, 10, 20.0) followed by the ProjB
    row (1, 0, no percentage). *)
Theorem aggregator_rows occ den :
  (forall r, In r (distribution_report occ den) <->
     exists proj case_set, In (proj, case_set) occ
       /\ r = {| project_id := proj;
                 cases_affected := size case_set;
                 total_cases_with_ssm_data := default 0 (den !! proj);
                 percent_cases_affected := percent (size case_set) (default 0 (den !! proj)) |})
  /\ length (distribution_report occ den) = length occ
  /\ (forall n t, 0 < t ->
        percent n t = Some (PyFloat.mul (PyFloat.int_true_div (Z.of_nat n) t)
                                        (PyFloat.of_int 100)))
  /\ (forall n, percent n 0 = None)
  /\ distribution_report demo_occurrences demo_denominators
     = [ {| project_id := "ProjA"; cases_affected := 2;
            total_cases_with_ssm_data := 10;
            percent_cases_affected := Some (PyFloat.of_int 20) |};
         {| project_id := "ProjB"; cases_affected := 1;
            total_cases_with_ssm_data := 0;
            percent_cases_affected := None |} ].
Proof.
  destruct (sort_rows_spec (build_rows occ den) (build_rows_keys occ den))
    as (Hperm & _).
  split; [|split; [|split; [|split]]].
  - intros r. apply distribution_report_rows.
  - unfold distribution_report. rewrite (Permutation_length Hperm).
    unfold build_rows. apply length_map.
  - intros n t Ht. unfold percent. destruct (Z.eqb_spec t 0); [lia|reflexivity].
  - reflexivity.
  - vm_compute. reflexivity.
Qed.

(** ** Driver *)

Lemma resolver_effect proj w r w1 :
  get_total_ssm_cases_for_project proj w = (r, w1) ->
  files w1 = files w /\ stdout w1 = stdout w /\ serve (net w1) = serve (net w)
  /\ proj_total_cache w ⊆ proj_total_cache w1
  /\ (sent (net w1) = sent (net w)
      \/ sent (net w1) = (sent (net w) ++ [denominator_request proj])%list).
Proof.
  intros Hcall. pose proof (resolver_cache_mono proj w) as Hmono.
  destruct (resolver_cases proj w) as [(v & _ & Heq)|(_ & Hsent & Hserve & Hf & Hs & _)];
    rewrite Hcall in *; cbn in *.
  - injection Heq as _ ->. auto 10.
  - auto 10.
Qed.

(** The denominators of one gene: the loop never raises, gives every
    project an entry, sends at most one request per project, and only
    extends the cache. *)
Lemma resolve_denominators_spec projs : forall d w,
  exists d' w' reqs,
    resolve_denominators projs d w = (Ok d', w')
    /\ files w' = files w
    /\ serve (net w') = serve (net w)
    /\ sent (net w') = (sent (net w) ++ reqs)%list
    /\ sublist reqs (map denominator_request projs)
    /\ proj_total_cache w ⊆ proj_total_cache w'
    /\ (forall p, In p projs -> is_Some (d' !! p))
    /\ (forall p, ~ In p projs -> d' !! p = d !! p).
Proof.
  induction projs as [|proj rest IH]; intros d w.
  - exists d, w, []. cbn. rewrite app_nil_r.
    repeat split; auto; try reflexivity. intros p [].
  - cbn [resolve_denominators]. unfold_M.
    destruct (get_total_ssm_cases_for_project proj w) as [r w1] eqn:Hcall.
    destruct (resolver_effect proj w r w1 Hcall) as (Hf & Hs & Hsv & Hc & Hsent).
    destruct r as [v|e].
    + destruct (IH (<[proj := v]> d) w1)
        as (d' & w' & reqs & Hrun & Hf' & Hsv' & Hsent' & Hsub & Hc' & Hin & Hout).
      rewrite Hrun.
      assert (Hreqs : exists reqs', sent (net w') = (sent (net w) ++ reqs')%list
                 /\ sublist reqs' (denominator_request proj :: map denominator_request rest)).
      { destruct Hsent as [Hsent|Hsent]; rewrite Hsent' , Hsent.
        - exists reqs. split; [reflexivity|apply sublist_cons; exact Hsub].
        - exists (denominator_request proj :: reqs). rewrite <- app_assoc.
          split; [reflexivity|apply sublist_skip; exact Hsub]. }
      destruct Hreqs as (reqs' & Hs1 & Hs2).
      exists d', w', reqs'.
      split; [reflexivity|]. split; [congruence|]. split; [congruence|].
      split; [exact Hs1|]. split; [exact Hs2|]. split; [etransitivity; eassumption|].
      split.
      * intros p [Heq|Hp]; [subst p|auto].
        destruct (in_dec string_dec proj rest) as [Hi|Hni]; [auto|].
        rewrite (Hout proj Hni), lookup_insert_eq. eauto.
      * intros p Hp. rewrite Hout by (intros Hi; apply Hp; right; exact Hi).
        apply lookup_insert_ne. intros ->. apply Hp. left. reflexivity.
    + cbn.
      set (w2 := {| net := net w1; proj_total_cache := proj_total_cache w1;
                    files := files w1; refused := refused w1;
                    stdout := (stdout w1 ++ [EvTotalFailed proj e])%list |}).
      destruct (IH (<[proj := 0]> d) w2)
        as (d' & w' & reqs & Hrun & Hf' & Hsv' & Hsent' & Hsub & Hc' & Hin & Hout).
      rewrite Hrun. cbn in Hf', Hsv', Hsent', Hc'.
      assert (Hreqs : exists reqs', sent (net w') = (sent (net w) ++ reqs')%list
                 /\ sublist reqs' (denominator_request proj :: map denominator_request rest)).
      { destruct Hsent as [Hsent|Hsent]; rewrite Hsent' , Hsent.
        - exists reqs. split; [reflexivity|apply sublist_cons; exact Hsub].
        - exists (denominator_request proj :: reqs). rewrite <- app_assoc.
          split; [reflexivity|apply sublist_skip; exact Hsub]. }
      destruct Hreqs as (reqs' & Hs1 & Hs2).
      exists d', w', reqs'.
      split; [reflexivity|]. split; [congruence|]. split; [congruence|].
      split; [exact Hs1|]. split; [exact Hs2|]. split; [etransitivity; eassumption|].
      split.
      * intros p [Heq|Hp]; [subst p|auto].
        destruct (in_dec string_dec proj rest) as [Hi|Hni]; [auto|].
        rewrite (Hout proj Hni), lookup_insert_eq. eauto.
      * intros p Hp. rewrite Hout by (intros Hi; apply Hp; right; exact Hi).
        apply lookup_insert_ne. intros ->. apply Hp. left. reflexivity.
Qed.

(** A project whose resolver call fails gets the denominator 0, and the
    loop goes on with the projects after it. *)
Lemma resolve_denominators_failure proj rest d w e w1 :
  get_total_ssm_cases_for_project proj w = (Raise e, w1) ->
  resolve_denominators (proj :: rest) d w
  = resolve_denominators rest (<[proj := 0]> d)
      {| net := net w1; proj_total_cache := proj_total_cache w1; files := files w1;
         refused := refused w1;
         stdout := (stdout w1 ++ [EvTotalFailed proj e])%list |}.
Proof.
  intros Hcall. cbn [resolve_denominators]. unfold_M. rewrite Hcall. reflexivity.
Qed.

Lemma resolve_denominators_success proj rest d w v w1 :
  get_total_ssm_cases_for_project proj w = (Ok v, w1) ->
  resolve_denominators (proj :: rest) d w = resolve_denominators rest (<[proj := v]> d) w1.
Proof.
  intros Hcall. cbn [resolve_denominators]. unfold_M. rewrite Hcall. reflexivity.
Qed.

Lemma fetch_run gene_id w :
  get_mutated_cases_by_project gene_id w
  = (fetch_result (net w) gene_id,
     {| net := session_after (net w) (occurrence_request gene_id);
        proj_total_cache := proj_total_cache w; files := files w; refused := refused w;
        stdout := stdout w |}).
Proof.
  unfold get_mutated_cases_by_project, fetch_result, session_after. unfold_M.
  destruct (serve (net w) (sent (net w)) (occurrence_request gene_id)) as [resp|e];
    [|reflexivity].
  cbn. destruct (ok resp); cbn; [|reflexivity].
  destruct (json_hits resp) as [data|e]; cbn; [|reflexivity].
  destruct (py_iter data) as [items|e]; cbn; [|reflexivity].
  destruct (hits_loop [] items); reflexivity.
Qed.

Lemma fetch_result_wf s gene_id m : fetch_result s gene_id = Ok m -> occ_wf m.
Proof.
  intros Hm.
  pose (w := {| net := s; proj_total_cache := ∅; files := ∅; refused := never_refused;
                stdout := [] |}).
  destruct (fetch_effect gene_id w) as (_ & _ & _ & _ & Hwf).
  apply Hwf. rewrite fetch_run. exact Hm.
Qed.

Lemma resolver_refused proj w :
  refused (snd (get_total_ssm_cases_for_project proj w)) = refused w.
Proof.
  unfold get_total_ssm_cases_for_project. unfold_M.
  destruct (proj_total_cache w !! proj); [reflexivity|].
  destruct (serve (net w) (sent (net w)) (denominator_request proj)) as [resp|e];
    cbn; [|reflexivity].
  destruct (ok resp); cbn; [|reflexivity].
  destruct (json_total resp); reflexivity.
Qed.

Lemma resolve_denominators_refused projs : forall d w,
  refused (snd (resolve_denominators projs d w)) = refused w.
Proof.
  induction projs as [|proj rest IH]; intros d w; [reflexivity|].
  pose proof (resolver_refused proj w) as Hstep.
  destruct (get_total_ssm_cases_for_project proj w) as [[v|e] w1] eqn:Hcall.
  - rewrite (resolve_denominators_success _ _ _ _ _ _ Hcall), IH. exact Hstep.
  - rewrite (resolve_denominators_failure _ _ _ _ _ _ Hcall), IH. exact Hstep.
Qed.

(** One pass of the driver loop, as an equation: the pass raises only
    when the report cannot be written. *)
Lemma process_gene_run `{FloatStr} idx n gene_id w :
  process_gene idx n gene_id w
  = match fetch_result (net w) gene_id with
    | Raise e =>
        (Ok tt,
         {| net := session_after (net w) (occurrence_request gene_id);
            proj_total_cache := proj_total_cache w; files := files w;
            refused := refused w;
            stdout := (stdout w ++ [EvProcessing idx n gene_id])
                      ++ [EvFetchFailed e] |})
    | Ok [] =>
        (Ok tt,
         {| net := session_after (net w) (occurrence_request gene_id);
            proj_total_cache := proj_total_cache w; files := files w;
            refused := refused w;
            stdout := (stdout w ++ [EvProcessing idx n gene_id]) ++ [EvNoCases] |})
    | Ok occ =>
        match resolve_denominators (map fst occ) ∅
                {| net := session_after (net w) (occurrence_request gene_id);
                   proj_total_cache := proj_total_cache w; files := files w;
                   refused := refused w;
                   stdout := (stdout w ++ [EvProcessing idx n gene_id])
                             ++ [EvProjects (length occ) (total_occurrences occ)] |}
        with
        | (Ok den, w2) =>
            match report_error w gene_id with
            | None =>
                (Ok tt,
                 {| net := net w2; proj_total_cache := proj_total_cache w2;
                    files := <[out_path_of gene_id :=
                                 tsv_text (distribution_report occ den)]> (files w);
                    refused := refused w;
                    stdout := stdout w2 ++ [EvSaved (out_path_of gene_id)] |})
            | Some e => (Raise e, w2)
            end
        | (Raise e, w2) => (Raise e, w2)
        end
    end.
Proof.
  unfold process_gene. unfold_M. rewrite fetch_run.
  cbn [net proj_total_cache files refused stdout].
  destruct (fetch_result (net w) gene_id) as [[|entry occ]|e]; try reflexivity.
  cbn [net proj_total_cache files refused stdout].
  match goal with
  | |- context [resolve_denominators ?ps ?d ?w0] =>
      pose proof (resolve_denominators_refused ps d w0) as Hr;
      destruct (resolve_denominators_spec ps d w0) as (den & w2 & reqs & Hrun & Hf & _)
  end.
  rewrite Hrun in *. cbn [snd files refused] in Hf, Hr.
  rewrite write_tsv_effect. unfold report_error. rewrite Hf, Hr.
  destruct (refused w (files w) OUT_DIR); [reflexivity|].
  destruct (refused w (files w) (out_path_of gene_id)); reflexivity.
Qed.

(** One pass of the driver loop, by cases on the outcome of the fetch
    and on whether the report can be written. *)
Lemma process_gene_spec `{FloatStr} idx n gene_id w :
  exists r w',
    process_gene idx n gene_id w = (r, w')
    /\ serve (net w') = serve (net w)
    /\ proj_total_cache w ⊆ proj_total_cache w'
    /\ refused w' = refused w
    /\ match fetch_result (net w) gene_id with
       | Raise e =>
           r = Ok tt
           /\ files w' = files w
           /\ proj_total_cache w' = proj_total_cache w
           /\ net w' = session_after (net w) (occurrence_request gene_id)
           /\ stdout w' = (stdout w ++ [EvProcessing idx n gene_id; EvFetchFailed e])%list
       | Ok [] =>
           r = Ok tt
           /\ files w' = files w
           /\ proj_total_cache w' = proj_total_cache w
           /\ net w' = session_after (net w) (occurrence_request gene_id)
           /\ stdout w' = (stdout w ++ [EvProcessing idx n gene_id; EvNoCases])%list
       | Ok occ =>
           exists w1 den w2,
             net w1 = session_after (net w) (occurrence_request gene_id)
             /\ proj_total_cache w1 = proj_total_cache w
             /\ stdout w1 = (stdout w ++ [EvProcessing idx n gene_id;
                                          EvProjects (length occ) (total_occurrences occ)])%list
             /\ resolve_denominators (map fst occ) ∅ w1 = (Ok den, w2)
             /\ net w' = net w2
             /\ proj_total_cache w' = proj_total_cache w2
             /\ match report_error w gene_id with
                | None =>
                    r = Ok tt
                    /\ files w'
                       = <[out_path_of gene_id := tsv_text (distribution_report occ den)]>
                           (files w)
                    /\ stdout w' = (stdout w2 ++ [EvSaved (out_path_of gene_id)])%list
                | Some e =>
                    r = Raise e /\ files w' = files w /\ stdout w' = stdout w2
                end
       end.
Proof.
  rewrite process_gene_run.
  destruct (fetch_result (net w) gene_id) as [[|entry occ]|e] eqn:Hfetch.
  - eexists _, _. split; [reflexivity|]. cbn. rewrite <- app_assoc.
    repeat split; reflexivity.
  - set (w1 := {| net := session_after (net w) (occurrence_request gene_id);
                  proj_total_cache := proj_total_cache w; files := files w;
                  refused := refused w; stdout := _ |}).
    pose proof (resolve_denominators_refused (map fst (entry :: occ)) ∅ w1) as Hr.
    destruct (resolve_denominators_spec (map fst (entry :: occ)) ∅ w1)
      as (den & w2 & reqs & Hrun & Hf & Hsv & Hsent & Hsub & Hc & _).
    rewrite Hrun in *. cbn [snd] in Hr.
    change (refused w1) with (refused w) in Hr. change (files w1) with (files w) in Hf.
    change (serve (net w1)) with (serve (net w)) in Hsv.
    change (proj_total_cache w1) with (proj_total_cache w) in Hc.
    assert (Hout1 : stdout w1
                    = (stdout w ++ [EvProcessing idx n gene_id;
                                    EvProjects (length (entry :: occ))
                                      (total_occurrences (entry :: occ))])%list).
    { unfold w1. cbn [stdout]. rewrite <- app_assoc. reflexivity. }
    destruct (report_error w gene_id) as [e|] eqn:Herr.
    + exists (Raise e), w2. split; [reflexivity|]. split; [rewrite Hsv; reflexivity|].
      split; [exact Hc|]. split; [exact Hr|].
      exists w1, den, w2. repeat split; auto.
    + eexists _, _. split; [reflexivity|]. cbn [net proj_total_cache files refused stdout].
      split; [rewrite Hsv; reflexivity|]. split; [exact Hc|]. split; [reflexivity|].
      exists w1, den, w2. repeat split; auto.
  - eexists _, _. split; [reflexivity|]. cbn. rewrite <- app_assoc.
    repeat split; reflexivity.
Qed.

(** The loop goes on after a pass that returns, and stops with the error
    of a pass that raises. *)
Lemma main_loop_step `{FloatStr} idx n gene_id rest w :
  main_loop idx n (gene_id :: rest) w
  = match process_gene idx n gene_id w with
    | (Ok _, w1) => main_loop (S idx) n rest w1
    | (Raise e, w1) => (Raise e, w1)
    end.
Proof. reflexivity. Qed.

Lemma main_loop_step_ok `{FloatStr} idx n gene_id rest w w1 :
  process_gene idx n gene_id w = (Ok tt, w1) ->
  main_loop idx n (gene_id :: rest) w = main_loop (S idx) n rest w1.
Proof. intros Hrun. rewrite main_loop_step, Hrun. reflexivity. Qed.

(** What every pass keeps, the loop keeps, wherever it stops. *)
Lemma main_loop_keeps `{FloatStr} (Q : world -> Prop) :
  (forall idx n gene_id w, Q w -> Q (snd (process_gene idx n gene_id w))) ->
  forall genes idx n w, Q w -> Q (snd (main_loop idx n genes w)).
Proof.
  intros Hpass. induction genes as [|g genes IH]; intros idx n w Hw; [exact Hw|].
  rewrite main_loop_step. specialize (Hpass idx n g w Hw).
  destruct (process_gene idx n g w) as [[[]|e] w1]; cbn [snd] in *; auto.
Qed.

Lemma sublist_Forall_keep {A} (Q : A -> Prop) (l1 l2 : list A) :
  sublist l1 l2 -> Forall Q l2 -> Forall Q l1.
Proof.
  induction 1 as [|x l1 l2 _ IH|x l1 l2 _ IH]; intros Hall.
  - constructor.
  - inversion Hall; subst. constructor; auto.
  - inversion Hall; subst. auto.
Qed.

Lemma denominator_requests_filtered reqs projs :
  sublist reqs (map denominator_request projs) ->
  List.filter is_occurrence_request reqs = [].
Proof.
  intros Hsub.
  assert (Hall : Forall (fun rq => is_occurrence_request rq = false) reqs).
  { eapply sublist_Forall_keep; [exact Hsub|].
    apply Forall_forall. intros rq Hrq.
    apply list_elem_of_In, in_map_iff in Hrq as (p & <- & _). reflexivity. }
  clear Hsub. induction Hall as [|rq reqs Hrq _ IH]; [reflexivity|].
  cbn. rewrite Hrq. exact IH.
Qed.

(** Each pass sends exactly one occurrence request, for its own gene. *)
Lemma process_gene_requests `{FloatStr} idx n gene_id w :
  List.filter is_occurrence_request (sent (net (snd (process_gene idx n gene_id w))))
  = (List.filter is_occurrence_request (sent (net w)) ++ [occurrence_request gene_id])%list.
Proof.
  destruct (process_gene_spec idx n gene_id w) as (r & w' & Hrun & _ & _ & _ & Hcases).
  rewrite Hrun. cbn [snd].
  assert (Hone : List.filter is_occurrence_request
                   (sent (session_after (net w) (occurrence_request gene_id)))
                 = (List.filter is_occurrence_request (sent (net w))
                    ++ [occurrence_request gene_id])%list).
  { cbn. rewrite List.filter_app. reflexivity. }
  destruct (fetch_result (net w) gene_id) as [[|entry occ]|e].
  - destruct Hcases as (_ & _ & _ & -> & _). exact Hone.
  - destruct Hcases as (w1 & den & w2 & Hnet & _ & _ & Hres & -> & _).
    destruct (resolve_denominators_spec (map fst (entry :: occ)) ∅ w1)
      as (den' & w2' & reqs & Hrun' & _ & _ & Hsent & Hsub & _).
    rewrite Hres in Hrun'. injection Hrun' as <- <-.
    rewrite Hsent, List.filter_app, (denominator_requests_filtered reqs _ Hsub), app_nil_r.
    rewrite Hnet. exact Hone.
  - destruct Hcases as (_ & _ & _ & -> & _). exact Hone.
Qed.

(** The loop over the genes: it stops at the first gene whose report
    cannot be written, with that error, and ends normally otherwise; the
    genes up to there have been queried once each, in order. *)
Lemma main_loop_spec `{FloatStr} genes : forall idx n w,
  exists r w' processed remaining,
    main_loop idx n genes w = (r, w')
    /\ serve (net w') = serve (net w)
    /\ proj_total_cache w ⊆ proj_total_cache w'
    /\ refused w' = refused w
    /\ genes = (processed ++ remaining)%list
    /\ List.filter is_occurrence_request (sent (net w'))
       = (List.filter is_occurrence_request (sent (net w))
          ++ map occurrence_request processed)%list
    /\ match r with
       | Ok _ => remaining = []
       | Raise e =>
           exists before g fs,
             processed = (before ++ [g])%list
             /\ (refused w fs OUT_DIR = Some e
                 \/ (refused w fs OUT_DIR = None
                     /\ refused w fs (out_path_of g) = Some e))
       end.
Proof.
  induction genes as [|g genes IH]; intros idx n w.
  - exists (Ok tt), w, [], []. cbn. rewrite app_nil_r. auto 10.
  - rewrite main_loop_step.
    pose proof (process_gene_requests idx n g w) as Hreq.
    destruct (process_gene_spec idx n g w) as (r1 & w1 & Hrun & Hsv & Hc & Hr & Hcase).
    rewrite Hrun in *. cbn [snd] in *.
    destruct r1 as [[]|e].
    + destruct (IH (S idx) n w1)
        as (r & w' & processed & remaining & Hloop & Hsv' & Hc' & Hr' & Hsplit & Hreq' & Hres).
      exists r, w', (g :: processed), remaining.
      split; [exact Hloop|]. split; [congruence|].
      split; [etransitivity; eassumption|]. split; [congruence|].
      split; [rewrite Hsplit; reflexivity|].
      split; [rewrite Hreq', Hreq, <- app_assoc; reflexivity|].
      destruct r as [u|e]; [exact Hres|].
      destruct Hres as (before & g' & fs & -> & Hwhy).
      exists (g :: before), g', fs. rewrite Hr in Hwhy. auto.
    + exists (Raise e), w1, [g], genes.
      split; [reflexivity|]. split; [exact Hsv|]. split; [exact Hc|]. split; [exact Hr|].
      split; [reflexivity|]. split; [exact Hreq|].
      exists [], g, (files w). split; [reflexivity|].
      destruct (fetch_result (net w) g) as [[|entry occ]|e'].
      * destruct Hcase as (Hok & _). discriminate.
      * destruct Hcase as (w0 & den & w2 & _ & _ & _ & _ & _ & _ & Herr).
        unfold report_error in Herr.
        destruct (refused w (files w) OUT_DIR) as [e0|] eqn:Hdir.
        -- destruct Herr as ([= <-] & _). left. reflexivity.
        -- destruct (refused w (files w) (out_path_of g)) as [e0|] eqn:Hfile.
           ++ destruct Herr as ([= <-] & _). right. auto.
           ++ destruct Herr as (Hok & _). discriminate.
      * destruct Hcase as (Hok & _). discriminate.
Qed.

(** When the operating system lets the reports of the genes be written,
    the loop ends normally, having gone through every gene. *)
Lemma main_loop_completes `{FloatStr} genes : forall idx n w,
  (forall g fs, In g genes ->
     refused w fs OUT_DIR = None /\ refused w fs (out_path_of g) = None) ->
  exists w',
    main_loop idx n genes w = (Ok tt, w')
    /\ serve (net w') = serve (net w)
    /\ proj_total_cache w ⊆ proj_total_cache w'
    /\ List.filter is_occurrence_request (sent (net w'))
       = (List.filter is_occurrence_request (sent (net w))
          ++ map occurrence_request genes)%list.
Proof.
  intros idx n w Hallowed.
  destruct (main_loop_spec genes idx n w)
    as (r & w' & processed & remaining & Hloop & Hsv & Hc & _ & Hsplit & Hreq & Hres).
  destruct r as [[]|e].
  - subst remaining. rewrite app_nil_r in Hsplit. subst processed.
    exists w'. auto.
  - exfalso. destruct Hres as (before & g & fs & -> & Hwhy).
    destruct (Hallowed g fs) as (Hdir & Hfile).
    { rewrite Hsplit. apply in_app_iff. left. apply in_app_iff. right. left. reflexivity. }
    destruct Hwhy as [Hwhy|[_ Hwhy]]; congruence.
Qed.

(** C7: when the fetch succeeds with an empty map, the pass returns
    normally without touching the files or the cache; the console gets the
    no-cases notice (not the failure notice, and no saved-file notice); one
    request was sent; and the loop goes on with the next gene. *)
Theorem empty_map_writes_no_file `{FloatStr} idx n gene_id rest w :
  fetch_result (net w) gene_id = Ok [] ->
  exists w',
    process_gene idx n gene_id w = (Ok tt, w')
    /\ files w' = files w
    /\ proj_total_cache w' = proj_total_cache w
    /\ net w' = session_after (net w) (occurrence_request gene_id)
    /\ stdout w' = (stdout w ++ [EvProcessing idx n gene_id; EvNoCases])%list
    /\ main_loop idx n (gene_id :: rest) w = main_loop (S idx) n rest w'.
Proof.
  intros Hfetch.
  destruct (process_gene_spec idx n gene_id w) as (r & w' & Hrun & _ & _ & _ & Hcases).
  rewrite Hfetch in Hcases. destruct Hcases as (-> & Hf & Hc & Hn & Hs).
  exists w'. split; [exact Hrun|]. repeat (split; [assumption|]).
  apply main_loop_step_ok. exact Hrun.
Qed.

(** ** The TSV file, written and read back *)

Lemma str_cons_app c s t : String c s ++ t = String c (s ++ t).
Proof. reflexivity. Qed.

Lemma str_app_nil_r s : s ++ "" = s.
Proof. induction s as [|c s IH]; [reflexivity|]. rewrite str_cons_app, IH. reflexivity. Qed.

Lemma str_app_assoc s t u : (s ++ t) ++ u = s ++ t ++ u.
Proof.
  induction s as [|c s IH]; [reflexivity|]. rewrite !str_cons_app, IH. reflexivity.
Qed.

Lemma special_false c :
  Csv.special c = false ->
  Ascii.eqb c PyStr.TAB = false /\ Ascii.eqb c PyStr.DQUOTE = false
  /\ Ascii.eqb c PyStr.CR = false /\ Ascii.eqb c PyStr.LF = false.
Proof.
  unfold Csv.special. intros H.
  repeat (apply orb_false_elim in H as [H ?]). auto.
Qed.

Lemma read_unquoted f : forall rest fld row,
  Csv.has_special f = false ->
  CsvReader.read_from (f ++ rest) CsvReader.Unquoted fld row
  = CsvReader.read_from rest CsvReader.Unquoted (fld ++ f) row.
Proof.
  induction f as [|c f IH]; intros rest fld row Hf.
  - rewrite str_app_nil_r. reflexivity.
  - cbn in Hf. apply orb_false_elim in Hf as [Hc Hf].
    apply special_false in Hc as (Ht & Hq & Hr & Hl).
    rewrite str_cons_app. cbn [CsvReader.read_from]. rewrite Ht, Hq, Hr, Hl.
    rewrite (IH _ _ _ Hf), str_app_assoc. reflexivity.
Qed.

Lemma read_quoted f : forall rest fld row,
  CsvReader.read_from (Csv.escape f ++ String PyStr.DQUOTE rest) CsvReader.Quoted fld row
  = CsvReader.read_from rest CsvReader.QuoteSeen (fld ++ f) row.
Proof.
  induction f as [|c f IH]; intros rest fld row.
  - rewrite str_app_nil_r. reflexivity.
  - cbn [Csv.escape]. destruct (Ascii.eqb c PyStr.DQUOTE) eqn:Hc.
    + apply Ascii.eqb_eq in Hc. subst c.
      rewrite !str_cons_app. cbn [CsvReader.read_from]. cbn.
      rewrite IH, str_app_assoc. reflexivity.
    + rewrite str_cons_app. cbn [CsvReader.read_from]. rewrite Hc.
      rewrite IH, str_app_assoc. reflexivity.
Qed.

Lemma read_field f st rest row :
  field_start st ->
  CsvReader.read_from (Csv.field f ++ rest) st "" row
  = CsvReader.read_from rest (after_field f st) f row.
Proof.
  intros Hst. unfold Csv.field, after_field.
  destruct (Csv.has_special f) eqn:Hf.
  - unfold Csv.quote. rewrite str_cons_app, str_app_assoc, str_cons_app.
    replace (CsvReader.read_from (String PyStr.DQUOTE (Csv.escape f ++ String PyStr.DQUOTE ("" ++ rest))) st "" row)
      with (CsvReader.read_from (Csv.escape f ++ String PyStr.DQUOTE rest) CsvReader.Quoted "" row)
      by (destruct Hst as [-> | ->]; reflexivity).
    apply read_quoted.
  - destruct f as [|c f]; [reflexivity|].
    cbn in Hf. apply orb_false_elim in Hf as [Hc Hf].
    apply special_false in Hc as (Ht & Hq & Hr & Hl).
    rewrite str_cons_app.
    replace (CsvReader.read_from (String c (f ++ rest)) st "" row)
      with (CsvReader.read_from (f ++ rest) CsvReader.Unquoted (String c "") row)
      by (destruct Hst as [-> | ->]; cbn [CsvReader.read_from]; rewrite Ht, Hq, Hr, Hl;
          reflexivity).
    apply read_unquoted. exact Hf.
Qed.

Lemma read_tab st rest fld row :
  CsvReader.read_from (String PyStr.TAB rest) st fld row
  = match st with
    | CsvReader.Quoted => CsvReader.read_from rest CsvReader.Quoted (fld ++ String PyStr.TAB "") row
    | _ => CsvReader.read_from rest CsvReader.FieldStart "" (row ++ [fld])%list
    end.
Proof. destruct st; reflexivity. Qed.

Lemma read_crlf st rest fld row :
  st <> CsvReader.Quoted ->
  CsvReader.read_from (Csv.CRLF ++ rest) st fld row
  = CsvReader.close_row st fld row :: CsvReader.read_from rest CsvReader.RowStart "" [].
Proof. destruct st; intros Hst; try congruence; reflexivity. Qed.

Lemma after_field_not_quoted f st : field_start st -> after_field f st <> CsvReader.Quoted.
Proof.
  unfold after_field. intros [-> | ->]; destruct (Csv.has_special f), f; discriminate.
Qed.

Lemma concat_cons2 sep x y l :
  String.concat sep (x :: y :: l) = x ++ sep ++ String.concat sep (y :: l).
Proof. reflexivity. Qed.

Lemma read_more_fields fs : forall f rest row,
  CsvReader.read_from
    (String.concat (String PyStr.TAB "") (map Csv.field (f :: fs)) ++ Csv.CRLF ++ rest)
    CsvReader.FieldStart "" row
  = (row ++ f :: fs)%list :: CsvReader.read_from rest CsvReader.RowStart "" [].
Proof.
  induction fs as [|g fs IH]; intros f rest row.
  - cbn [map String.concat]. rewrite read_field by (right; reflexivity).
    rewrite read_crlf by (apply after_field_not_quoted; right; reflexivity).
    unfold CsvReader.close_row, after_field.
    destruct (Csv.has_special f), f; reflexivity.
  - cbn [map]. rewrite concat_cons2, !str_app_assoc.
    rewrite read_field by (right; reflexivity).
    rewrite str_cons_app, read_tab.
    replace (match after_field f CsvReader.FieldStart with
             | CsvReader.Quoted => _
             | _ => CsvReader.read_from
                      ("" ++ String.concat (String PyStr.TAB "") (Csv.field g :: map Csv.field fs)
                          ++ Csv.CRLF ++ rest) CsvReader.FieldStart "" (row ++ [f])%list
             end)
      with (CsvReader.read_from
              (String.concat (String PyStr.TAB "") (map Csv.field (g :: fs)) ++ Csv.CRLF ++ rest)
              CsvReader.FieldStart "" (row ++ [f])%list)
      by (unfold after_field; destruct (Csv.has_special f), f; reflexivity).
    rewrite IH, <- app_assoc. reflexivity.
Qed.

Lemma read_row fields rest :
  CsvReader.read_from (Csv.writerow fields ++ rest) CsvReader.RowStart "" []
  = fields :: CsvReader.read_from rest CsvReader.RowStart "" [].
Proof.
  destruct fields as [|f [|g fs]].
  - reflexivity.
  - destruct f as [|c f]; [reflexivity|].
    unfold Csv.writerow. cbn [map String.concat]. rewrite str_app_assoc.
    rewrite read_field by (left; reflexivity).
    rewrite read_crlf by (apply after_field_not_quoted; left; reflexivity).
    unfold CsvReader.close_row, after_field.
    destruct (Csv.has_special (String c f)); reflexivity.
  - replace (Csv.writerow (f :: g :: fs))
      with (String.concat (String PyStr.TAB "") (map Csv.field (f :: g :: fs)) ++ Csv.CRLF)
      by (destruct f; reflexivity).
    cbn [map]. rewrite concat_cons2, !str_app_assoc.
    rewrite read_field by (left; reflexivity).
    rewrite str_cons_app, read_tab.
    replace (match after_field f CsvReader.RowStart with
             | CsvReader.Quoted => _
             | _ => CsvReader.read_from
                      ("" ++ String.concat (String PyStr.TAB "") (Csv.field g :: map Csv.field fs)
                          ++ Csv.CRLF ++ rest) CsvReader.FieldStart "" ([] ++ [f])%list
             end)
      with (CsvReader.read_from
              (String.concat (String PyStr.TAB "") (map Csv.field (g :: fs)) ++ Csv.CRLF ++ rest)
              CsvReader.FieldStart "" [f])
      by (unfold after_field; destruct (Csv.has_special f), f; reflexivity).
    rewrite read_more_fields. reflexivity.
Qed.

Lemma writerows_cons r rows : Csv.writerows (r :: rows) = Csv.writerow r ++ Csv.writerows rows.
Proof.
  unfold Csv.writerows. destruct rows as [|r' rows]; cbn [map String.concat].
  - rewrite str_app_nil_r. reflexivity.
  - reflexivity.
Qed.

(** Every sequence of records is read back as it was written. *)
Lemma read_writerows rows :
  CsvReader.read_from (Csv.writerows rows) CsvReader.RowStart "" [] = rows.
Proof.
  induction rows as [|r rows IH]; [reflexivity|].
  rewrite writerows_cons, read_row, IH. reflexivity.
Qed.

Lemma parse_int_str_int z : parse_int (PyStr.str_int z) = Some z.
Proof.
  unfold parse_int, PyStr.str_int. rewrite NilZero.isi.
  - cbn. rewrite DecimalZ.of_to. reflexivity.
  - destruct z as [|p|p]; cbn; try discriminate.
    intros [= Hp]. exact (DecimalPos.Unsigned.to_uint_nonnil p Hp).
  - destruct z as [|p|p]; cbn; try discriminate.
    intros [= Hp]. exact (DecimalPos.Unsigned.to_uint_nonnil p Hp).
Qed.

Lemma parse_count_str_int n : parse_count (PyStr.str_int (Z.of_nat n)) = Some n.
Proof.
  unfold parse_count. rewrite parse_int_str_int. cbn.
  destruct (Z.leb_spec 0 (Z.of_nat n)); [|lia]. rewrite Nat2Z.id. reflexivity.
Qed.

Lemma parse_row_cells `{FloatStr} float_of_str r :
  (forall x, float_of_str (float_str x) = Some x) ->
  (forall x, float_str x <> "") ->
  parse_row float_of_str (row_cells r) = Some r.
Proof.
  intros Hread Hne. destruct r as [proj n t pct]. unfold parse_row, row_cells. cbn.
  rewrite parse_count_str_int, parse_int_str_int. cbn.
  destruct pct as [x|]; [|reflexivity].
  destruct (String.eqb_spec (float_str x) "") as [He|_]; [destruct (Hne x He)|].
  rewrite Hread. reflexivity.
Qed.

Lemma mapM_parse_rows `{FloatStr} float_of_str rows :
  (forall x, float_of_str (float_str x) = Some x) ->
  (forall x, float_str x <> "") ->
  mapM (parse_row float_of_str) (map row_cells rows) = Some rows.
Proof.
  intros Hread Hne. induction rows as [|r rows IH]; [reflexivity|].
  cbn [map mapM]. rewrite (parse_row_cells float_of_str r Hread Hne). cbn [mbind option_bind].
  rewrite IH. reflexivity.
Qed.

Lemma read_tsv_text `{FloatStr} rows :
  CsvReader.read (tsv_text rows) = FIELDNAMES :: map row_cells rows.
Proof.
  unfold CsvReader.read, tsv_text. rewrite read_row, read_writerows. reflexivity.
Qed.

Lemma sample_float_code_read x : float_of_code (float_code x) = Some x.
Proof.
  destruct x as [[]|[]| |s m e]; try reflexivity.
  unfold float_code, float_of_code.
  repeat match goal with
    | |- context [(?a =? ?b)%positive] =>
        destruct (Pos.eqb_spec a b); [lia|]
    end.
  replace (5 + encode (s, m, e) - 5)%positive with (encode (s, m, e)) by lia.
  rewrite decode_encode. reflexivity.
Qed.

Lemma sample_float_str_read x : sample_float_of_str (sample_float_str x) = Some x.
Proof.
  unfold sample_float_str, sample_float_of_str.
  rewrite Ascii.eqb_refl, NilZero.usu by apply DecimalPos.Unsigned.to_uint_nonnil.
  cbn. rewrite DecimalPos.Unsigned.of_to. apply sample_float_code_read.
Qed.

(** C8: the file written for a report reads back, as tab-separated
    records, as the header of the four fixed column names followed by one
    record per row, in the report's order; the last field of a record is
    empty exactly when the row has no percentage (a zero percentage is the
    printed number, never the empty field); and re-parsing the file gives
    back exactly the rows that were written.  The writer stores that text
    under the report path whenever the file system lets it, and stores
    nothing when it raises.  The printer of floats is the
    language's own: the statement holds for every printer that never
    prints the empty string and whose output reads back as the value
    printed. *)
Theorem report_file_round_trip `{FloatStr} (float_of_str : string -> option spec_float) :
  (forall x, float_of_str (float_str x) = Some x) ->
  (forall x, float_str x <> "") ->
  forall rows,
    CsvReader.read (tsv_text rows) = FIELDNAMES :: map row_cells rows
    /\ (forall r, nth 3 (row_cells r) "x" = "" <-> percent_cases_affected r = None)
    /\ parse_tsv float_of_str (tsv_text rows) = Some rows
    /\ (forall gene_id occ den w,
          (report_error w gene_id = None ->
           files (snd (write_cancer_distribution_tsv gene_id occ den w))
             !! out_path_of gene_id
           = Some (tsv_text (distribution_report occ den)))
          /\ (forall e, report_error w gene_id = Some e ->
                write_cancer_distribution_tsv gene_id occ den w = (Raise e, w))
          /\ parse_tsv float_of_str (tsv_text (distribution_report occ den))
             = Some (distribution_report occ den))
    /\ tsv_text [ {| project_id := "ProjB"; cases_affected := 1;
                     total_cases_with_ssm_data := 0;
                     percent_cases_affected := None |} ]
       = "project_id" ++ String PyStr.TAB "cases_affected"
         ++ String PyStr.TAB "total_cases_with_ssm_data"
         ++ String PyStr.TAB "percent_cases_affected" ++ Csv.CRLF
         ++ "ProjB" ++ String PyStr.TAB "1" ++ String PyStr.TAB "0"
         ++ String PyStr.TAB "" ++ Csv.CRLF.
Proof.
  intros Hread Hne.
  assert (Hparse : forall rows, parse_tsv float_of_str (tsv_text rows) = Some rows).
  { intros rows. unfold parse_tsv. rewrite read_tsv_text.
    destruct (decide (FIELDNAMES = FIELDNAMES)) as [_|Hn]; [|congruence].
    apply mapM_parse_rows; assumption. }
  intros rows. split; [apply read_tsv_text|]. split; [|split; [apply Hparse|split]].
  - intros r. unfold row_cells. cbn [nth].
    destruct (percent_cases_affected r) as [x|]; [|tauto].
    split; [intros Hx; destruct (Hne x Hx)|discriminate].
  - intros gene_id occ den w. rewrite write_tsv_effect.
    split; [|split; [|apply Hparse]].
    + intros ->. cbn [snd files]. apply lookup_insert_eq.
    + intros e ->. reflexivity.
  - vm_compute. reflexivity.
Qed.

Lemma report_file_round_trip_witness :
  parse_tsv sample_float_of_str
    (@tsv_text sample_float_str (distribution_report demo_occurrences demo_denominators))
  = Some (distribution_report demo_occurrences demo_denominators).
Proof.
  destruct (@report_file_round_trip sample_float_str sample_float_of_str
              sample_float_str_read
              ltac:(discriminate)
              (distribution_report demo_occurrences demo_denominators))
    as (_ & _ & Hback & _).
  exact Hback.
Defined.

(** ** Rounding keeps a positive number positive *)

Lemma digits2_pos_bounds p :
  2 ^ (Z.pos (digits2_pos p) - 1) <= Z.pos p < 2 ^ Z.pos (digits2_pos p).
Proof.
  induction p as [p IH|p IH|]; cbn [digits2_pos].
  - rewrite Pos2Z.inj_succ.
    replace (Z.succ (Z.pos (digits2_pos p)) - 1) with (Z.succ (Z.pos (digits2_pos p) - 1)) by lia.
    rewrite !Z.pow_succ_r by lia. lia.
  - rewrite Pos2Z.inj_succ.
    replace (Z.succ (Z.pos (digits2_pos p)) - 1) with (Z.succ (Z.pos (digits2_pos p) - 1)) by lia.
    rewrite !Z.pow_succ_r by lia. lia.
  - cbn. lia.
Qed.

Lemma Zdigits2_bounds m :
  0 < m -> 1 <= Zdigits2 m /\ 2 ^ (Zdigits2 m - 1) <= m < 2 ^ Zdigits2 m.
Proof.
  destruct m as [|p|p]; try lia. intros _. cbn [Zdigits2].
  split; [lia|apply digits2_pos_bounds].
Qed.

Lemma Zdigits2_lower m k : 0 <= k -> 2 ^ k <= m -> k + 1 <= Zdigits2 m.
Proof.
  intros Hk Hm. assert (0 < m) by (pose proof (Z.pow_pos_nonneg 2 k); lia).
  destruct (Zdigits2_bounds m) as (Hd & _ & Hub); [assumption|].
  destruct (Z.le_gt_cases (k + 1) (Zdigits2 m)) as [|Hlt]; [assumption|].
  assert (2 ^ Zdigits2 m <= 2 ^ k) by (apply Z.pow_le_mono_r; lia). lia.
Qed.

Lemma shr_1_half mrs : 0 <= shr_m mrs -> shr_m (shr_1 mrs) = shr_m mrs / 2.
Proof.
  destruct mrs as [m r s]. cbn [shr_m]. intros Hm.
  destruct m as [|[p|p|]|p]; cbn [shr_1 shr_m]; try lia; try reflexivity.
  - rewrite (Pos2Z.inj_xI p). apply Z.div_unique with (r := 1); lia.
  - rewrite (Pos2Z.inj_xO p). apply Z.div_unique with (r := 0); lia.
Qed.

Lemma pow2_xI p : 2 ^ Z.pos p~1 = 2 * 2 ^ Z.pos p * 2 ^ Z.pos p.
Proof.
  rewrite (Pos2Z.inj_xI p). replace (2 * Z.pos p + 1) with (1 + Z.pos p + Z.pos p) by lia.
  rewrite (Z.pow_add_r 2 (1 + Z.pos p)), (Z.pow_add_r 2 1) by lia. reflexivity.
Qed.

Lemma pow2_xO p : 2 ^ Z.pos p~0 = 2 ^ Z.pos p * 2 ^ Z.pos p.
Proof.
  rewrite (Pos2Z.inj_xO p). replace (2 * Z.pos p) with (Z.pos p + Z.pos p) by lia.
  rewrite (Z.pow_add_r 2 (Z.pos p)) by lia. reflexivity.
Qed.

Lemma iter_shr_1 p : forall mrs,
  0 <= shr_m mrs ->
  0 <= shr_m (SpecFloat.iter_pos shr_1 p mrs)
  /\ shr_m (SpecFloat.iter_pos shr_1 p mrs) = shr_m mrs / 2 ^ Z.pos p.
Proof.
  induction p as [p IH|p IH|]; intros mrs Hm; cbn [SpecFloat.iter_pos].
  - pose proof (shr_1_nonneg mrs Hm) as H1.
    destruct (IH (shr_1 mrs) H1) as [H2 E2].
    destruct (IH _ H2) as [H3 E3].
    assert (0 < 2 ^ Z.pos p) by (apply Z.pow_pos_nonneg; lia).
    split; [exact H3|]. rewrite E3, E2, shr_1_half by assumption.
    rewrite !Z.div_div by lia. rewrite pow2_xI. f_equal. ring.
  - destruct (IH mrs Hm) as [H2 E2].
    destruct (IH _ H2) as [H3 E3].
    assert (0 < 2 ^ Z.pos p) by (apply Z.pow_pos_nonneg; lia).
    split; [exact H3|]. rewrite E3, E2.
    rewrite !Z.div_div by lia. rewrite pow2_xO. f_equal.
  - split; [apply shr_1_nonneg; exact Hm|].
    rewrite shr_1_half by exact Hm. reflexivity.
Qed.

(** One normalising shift: a positive mantissa that is not below the
    smallest subnormal stays positive, and digits plus exponent do not
    decrease. *)
Lemma shr_fexp_pos m e l :
  0 < m ->
  emin PyFloat.prec PyFloat.emax < Zdigits2 m + e ->
  0 < shr_m (fst (shr_fexp PyFloat.prec PyFloat.emax m e l))
  /\ Zdigits2 m + e
     <= Zdigits2 (shr_m (fst (shr_fexp PyFloat.prec PyFloat.emax m e l)))
        + snd (shr_fexp PyFloat.prec PyFloat.emax m e l).
Proof.
  intros Hm He. unfold shr_fexp, shr.
  destruct (Zdigits2_bounds m Hm) as (Hd1 & Hlo & Hhi).
  set (n := fexp PyFloat.prec PyFloat.emax (Zdigits2 m + e) - e).
  assert (Hn : n < Zdigits2 m).
  { unfold n, fexp, emin, PyFloat.prec, PyFloat.emax in *. lia. }
  destruct n as [|p|p] eqn:En; cbn [fst snd]; rewrite ?shr_record_of_loc_m; try lia.
  destruct (iter_shr_1 p (shr_record_of_loc m l)) as [_ Eq];
    [rewrite shr_record_of_loc_m; lia|].
  rewrite Eq, shr_record_of_loc_m.
  assert (Hpow : 2 ^ Z.pos p * 2 ^ (Zdigits2 m - 1 - Z.pos p) = 2 ^ (Zdigits2 m - 1)).
  { rewrite <- Z.pow_add_r by lia. f_equal. lia. }
  assert (Hq : 2 ^ (Zdigits2 m - 1 - Z.pos p) <= m / 2 ^ Z.pos p).
  { apply Z.div_le_lower_bound; [apply Z.pow_pos_nonneg; lia|]. lia. }
  assert (0 < 2 ^ (Zdigits2 m - 1 - Z.pos p)) by (apply Z.pow_pos_nonneg; lia).
  split; [lia|].
  pose proof (Zdigits2_lower (m / 2 ^ Z.pos p) (Zdigits2 m - 1 - Z.pos p) ltac:(lia) Hq).
  lia.
Qed.

Lemma Zdigits2_mono a b : 0 < a -> a <= b -> Zdigits2 a <= Zdigits2 b.
Proof.
  intros Ha Hab. destruct (Zdigits2_bounds a Ha) as (Hd & Hlo & _).
  pose proof (Zdigits2_lower b (Zdigits2 a - 1) ltac:(lia) ltac:(lia)). lia.
Qed.

Lemma round_nearest_even_ge m l : m <= round_nearest_even m l.
Proof.
  unfold round_nearest_even. destruct l as [|[]]; try lia. destruct (Z.even m); lia.
Qed.

(** A positive number that is not below the smallest subnormal rounds to
    a positive float or to plus infinity, never to zero. *)
Lemma binary_round_aux_pos m e l :
  0 < m ->
  emin PyFloat.prec PyFloat.emax < Zdigits2 m + e ->
  match binary_round_aux PyFloat.prec PyFloat.emax false m e l with
  | S754_finite false m' e' => Zdigits2 m + e <= Zdigits2 (Z.pos m') + e'
  | S754_infinity false => True
  | _ => False
  end.
Proof.
  intros Hm He. unfold binary_round_aux.
  destruct (shr_fexp_pos m e l Hm He) as [H1 D1].
  destruct (shr_fexp PyFloat.prec PyFloat.emax m e l) as [mrs' e'].
  cbn [fst snd] in H1, D1.
  set (m1 := round_nearest_even (shr_m mrs') (loc_of_shr_record mrs')).
  assert (Hm1 : shr_m mrs' <= m1) by apply round_nearest_even_ge.
  assert (Hd1 : Zdigits2 (shr_m mrs') <= Zdigits2 m1) by (apply Zdigits2_mono; lia).
  destruct (shr_fexp_pos m1 e' loc_Exact ltac:(lia) ltac:(lia)) as [H2 D2].
  destruct (shr_fexp PyFloat.prec PyFloat.emax m1 e' loc_Exact) as [mrs'' e''].
  cbn [fst snd] in H2, D2.
  destruct (shr_m mrs'') as [|p|p]; try lia.
  destruct (e'' <=? PyFloat.emax - PyFloat.prec); [lia|exact I].
Qed.

Lemma div_eucl_parts a b q r :
  Z.div_eucl a b = (q, r) -> q = a / b /\ r = a mod b.
Proof. unfold Z.div, Z.modulo. intros ->. split; reflexivity. Qed.

(** The quotient of two positive integers rounds to a positive float
    exactly when the divisor is below the dividend times 2^1075. *)
Lemma int_true_div_pos n t :
  1 <= n -> 1 <= t < n * 2 ^ 1075 ->
  match PyFloat.int_true_div n t with
  | S754_finite false m e => -1073 <= Zdigits2 (Z.pos m) + e
  | S754_infinity false => True
  | _ => False
  end.
Proof.
  intros Hn [Ht1 Ht2]. destruct n as [|p|p]; try lia. destruct t as [|q|q]; try lia.
  unfold PyFloat.int_true_div, PyFloat.exact_int, SFdiv, SFdiv_core_binary.
  destruct (Zdigits2_bounds (Z.pos p) ltac:(lia)) as (Hd1 & Hp1 & Hp2).
  destruct (Zdigits2_bounds (Z.pos q) ltac:(lia)) as (Hd2 & Hq1 & Hq2).
  set (d1 := Zdigits2 (Z.pos p)) in *. set (d2 := Zdigits2 (Z.pos q)) in *.
  set (e' := Z.min (fexp PyFloat.prec PyFloat.emax (d1 + 0 - (d2 + 0))) (0 - 0)).
  set (s := 0 - 0 - e').
  assert (Hs : 0 <= s /\ s = - e' /\ -1074 <= e'
               /\ (d2 - d1 <= 1021 -> d2 <= d1 - 1 + s /\ -1021 <= d1 - d2)
               /\ (1021 < d2 - d1 -> s = 1074)).
  { unfold s, e', fexp, emin, PyFloat.prec, PyFloat.emax. lia. }
  destruct Hs as (Hs0 & Hs2 & He' & Hsmall & Hbig).
  set (m' := match s with Z0 => Z.pos p | Z.pos _ => Z.shiftl (Z.pos p) s | Z.neg _ => 0 end).
  assert (Hm' : m' = Z.pos p * 2 ^ s).
  { unfold m'. destruct s as [|k|k] eqn:Es; [cbn; lia| |lia].
    apply Z.shiftl_mul_pow2. lia. }
  assert (Hspos : 0 < 2 ^ s) by (apply Z.pow_pos_nonneg; lia).
  destruct (Z.div_eucl m' (Z.pos q)) as [mz r] eqn:Hdiv.
  apply div_eucl_parts in Hdiv as [Hmz Hr]. cbn [xorb].
  assert (Hrange : 0 <= r < Z.pos q) by (subst r; apply Z.mod_pos_bound; lia).
  assert (Hsplit : m' = Z.pos q * mz + r)
    by (subst mz r; apply Z.div_mod; lia).
  assert (Hmz0 : 0 <= mz) by (subst mz; apply Z.div_pos; lia).
  destruct (Z.eq_dec mz 0) as [Hzero|Hnz].
  - (* the quotient is below one unit: it rounds up to the smallest float *)
    assert (Hsbig : s = 1074).
    { apply Hbig. destruct (Z_le_gt_dec (d2 - d1) 1021) as [Hle|Hgt]; [|lia].
      exfalso. destruct (Hsmall Hle) as [Hle' _].
      assert (Hpow : 2 ^ d2 <= 2 ^ (d1 - 1 + s)) by (apply Z.pow_le_mono_r; lia).
      rewrite Z.pow_add_r in Hpow by lia. nia. }
    assert (Hr' : r = Z.pos p * 2 ^ 1074) by (rewrite <- Hsbig; lia).
    assert (He1074 : e' = -1074) by lia.
    assert (Hloc : new_location (Z.pos q) r = loc_Inexact Gt).
    { assert (H2r : Z.pos q < 2 * r).
      { rewrite Hr'. replace (2 ^ 1075) with (2 * 2 ^ 1074) in Ht2 by reflexivity. lia. }
      assert (Hr0 : (r =? 0) = false) by (apply Z.eqb_neq; lia).
      unfold new_location.
      destruct (Z.even (Z.pos q)); unfold new_location_even, new_location_odd; rewrite Hr0.
      - replace (2 * r ?= Z.pos q) with Gt; [reflexivity|].
        symmetry. apply Z.compare_gt_iff. lia.
      - replace (2 * r + 1 ?= Z.pos q) with Gt; [reflexivity|].
        symmetry. apply Z.compare_gt_iff. lia. }
    rewrite Hloc, Hzero, He1074. vm_compute. discriminate.
  - pose proof (binary_round_aux_pos mz e' (new_location (Z.pos q) r) ltac:(lia)) as Hround.
    destruct (Zdigits2_bounds mz ltac:(lia)) as (Hdz & _).
    assert (He : emin PyFloat.prec PyFloat.emax < Zdigits2 mz + e').
    { unfold emin, PyFloat.prec, PyFloat.emax. lia. }
    specialize (Hround He).
    destruct (binary_round_aux PyFloat.prec PyFloat.emax false mz e' (new_location (Z.pos q) r))
      as [[]|[]| |[] m e]; try exact Hround. lia.
Qed.

(** From the dividend times 2^1075 on, the quotient underflows to zero. *)
Lemma int_true_div_underflow n t :
  1 <= n -> n * 2 ^ 1075 <= t -> PyFloat.int_true_div n t = S754_zero false.
Proof.
  intros Hn Ht. destruct n as [|p|p]; try lia. destruct t as [|q|q]; try lia.
  unfold PyFloat.int_true_div, PyFloat.exact_int, SFdiv, SFdiv_core_binary.
  destruct (Zdigits2_bounds (Z.pos p) ltac:(lia)) as (Hd1 & Hp1 & Hp2).
  destruct (Zdigits2_bounds (Z.pos q) ltac:(lia)) as (Hd2 & Hq1 & Hq2).
  set (d1 := Zdigits2 (Z.pos p)) in *. set (d2 := Zdigits2 (Z.pos q)) in *.
  assert (Hdd : d1 + 1074 < d2).
  { destruct (Z_lt_le_dec (d1 + 1074) d2) as [|Hle]; [assumption|exfalso].
    assert (Hpow : 2 ^ d2 <= 2 ^ (d1 - 1 + 1075)) by (apply Z.pow_le_mono_r; lia).
    rewrite Z.pow_add_r in Hpow by lia. nia. }
  replace (Z.min (fexp PyFloat.prec PyFloat.emax (d1 + 0 - (d2 + 0))) (0 - 0)) with (-1074)
    by (unfold fexp, emin, PyFloat.prec, PyFloat.emax; lia).
  change (0 - 0 - -1074) with 1074. cbv beta iota zeta.
  rewrite (Z.shiftl_mul_pow2 (Z.pos p) 1074) by lia.
  assert (Hlt : Z.pos p * 2 ^ 1074 < Z.pos q).
  { replace (2 ^ 1075) with (2 * 2 ^ 1074) in Ht by reflexivity.
    assert (0 < 2 ^ 1074) by (apply Z.pow_pos_nonneg; lia). nia. }
  assert (Hpos : 0 < Z.pos p * 2 ^ 1074).
  { assert (0 < 2 ^ 1074) by (apply Z.pow_pos_nonneg; lia). nia. }
  destruct (Z.div_eucl (Z.pos p * 2 ^ 1074) (Z.pos q)) as [mz r] eqn:Hdiv.
  apply div_eucl_parts in Hdiv as [Hmz Hr].
  rewrite Z.div_small in Hmz by lia. rewrite Z.mod_small in Hr by lia. subst mz. cbn [xorb].
  assert (Hloc : new_location (Z.pos q) r = loc_Inexact Lt
                 \/ new_location (Z.pos q) r = loc_Inexact Eq).
  { assert (H2r : 2 * r <= Z.pos q).
    { rewrite Hr. replace (2 ^ 1075) with (2 * 2 ^ 1074) in Ht by reflexivity. lia. }
    assert (Hr0 : (r =? 0) = false) by (apply Z.eqb_neq; lia).
    unfold new_location.
    destruct (Z.even (Z.pos q)) eqn:Heven;
      unfold new_location_even, new_location_odd; rewrite Hr0.
    - destruct (Z.compare_spec (2 * r) (Z.pos q)); auto. lia.
    - left. destruct (Z.compare_spec (2 * r + 1) (Z.pos q)) as [| |Hgt]; try reflexivity.
      exfalso. assert (Heq : Z.pos q = 2 * r) by lia.
      rewrite Heq, Z.even_mul in Heven. discriminate. }
  destruct Hloc as [-> | ->]; vm_compute; reflexivity.
Qed.

Lemma mul_100_pos m e :
  -1073 <= Zdigits2 (Z.pos m) + e ->
  PyFloat.ltb PyFloat.zero
    (PyFloat.mul (S754_finite false m e) (PyFloat.of_int 100)) = true.
Proof.
  intros Hme. rewrite float_100. unfold PyFloat.mul, SFmul. cbn [xorb].
  destruct (Zdigits2_bounds (Z.pos m) ltac:(lia)) as (Hd & Hlo & _).
  assert (Hprod : 2 ^ (Zdigits2 (Z.pos m) - 1 + 52) <= Z.pos (m * 7036874417766400)).
  { rewrite Pos2Z.inj_mul, Z.pow_add_r by lia.
    assert (2 ^ 52 <= 7036874417766400) by (vm_compute; discriminate).
    assert (0 < 2 ^ (Zdigits2 (Z.pos m) - 1)) by (apply Z.pow_pos_nonneg; lia).
    nia. }
  pose proof (Zdigits2_lower (Z.pos (m * 7036874417766400)) (Zdigits2 (Z.pos m) - 1 + 52)
                ltac:(lia) Hprod) as Hdig.
  pose proof (binary_round_aux_pos (Z.pos (m * 7036874417766400)) (e + -46) loc_Exact
                ltac:(lia)) as Hround.
  assert (He : emin PyFloat.prec PyFloat.emax
               < Zdigits2 (Z.pos (m * 7036874417766400)) + (e + -46)).
  { unfold emin, PyFloat.prec, PyFloat.emax. lia. }
  specialize (Hround He).
  destruct (binary_round_aux PyFloat.prec PyFloat.emax false
              (Z.pos (m * 7036874417766400)) (e + -46) loc_Exact)
    as [[]|[]| |[] m' e']; try contradiction; reflexivity.
Qed.

(** With at least one case and a denominator from 1 to below the number
    of cases times 2^1075 the percentage is present and strictly
    positive. *)
Lemma percent_positive n t :
  (1 <= n)%nat -> 1 <= t < Z.of_nat n * 2 ^ 1075 ->
  exists x, percent n t = Some x /\ PyFloat.ltb PyFloat.zero x = true.
Proof.
  intros Hn Ht. unfold percent. destruct (Z.eqb_spec t 0) as [|_]; [lia|].
  eexists. split; [reflexivity|].
  pose proof (int_true_div_pos (Z.of_nat n) t ltac:(lia) Ht) as Hdiv.
  destruct (PyFloat.int_true_div (Z.of_nat n) t) as [[]|[]| |[] m e]; try contradiction.
  - rewrite float_100. reflexivity.
  - apply mul_100_pos. exact Hdiv.
Qed.

(** From there on it is present and zero. *)
Lemma percent_underflow n t :
  (1 <= n)%nat -> Z.of_nat n * 2 ^ 1075 <= t -> percent n t = Some (S754_zero false).
Proof.
  intros Hn Ht. unfold percent.
  assert (0 < 2 ^ 1075) by (apply Z.pow_pos_nonneg; lia).
  destruct (Z.eqb_spec t 0) as [|_]; [nia|].
  rewrite int_true_div_underflow by lia. rewrite float_100. reflexivity.
Qed.

Lemma binary_round_aux_sign prec emax s m e l :
  0 <= m -> float_sign (binary_round_aux prec emax s m e l) = Some s.
Proof.
  intros H. unfold binary_round_aux.
  pose proof (shr_fexp_nonneg prec emax m e l H) as H1.
  destruct (shr_fexp prec emax m e l) as [mrs' e']. cbn [fst] in H1.
  pose proof (shr_fexp_nonneg prec emax
                (round_nearest_even (shr_m mrs') (loc_of_shr_record mrs')) e' loc_Exact
                (round_nearest_even_nonneg _ _ H1)) as H2.
  destruct (shr_fexp prec emax _ e' loc_Exact) as [mrs'' e'']. cbn [fst] in H2.
  destruct (shr_m mrs'') as [|p|p]; [reflexivity| |lia].
  destruct (e'' <=? emax - prec); reflexivity.
Qed.

Lemma int_true_div_sign a b :
  0 <= a -> b <> 0 -> float_sign (PyFloat.int_true_div a b) = Some (b <? 0).
Proof.
  intros Ha Hb. unfold PyFloat.int_true_div, PyFloat.exact_int.
  destruct a as [|p|p]; [| |lia]; destruct b as [|q|q]; try congruence; try reflexivity.
  all: unfold SFdiv;
    pose proof (div_core_nonneg PyFloat.prec PyFloat.emax (Z.pos p) 0 (Z.pos q) 0
                  ltac:(lia) ltac:(lia)) as Hq;
    destruct (SFdiv_core_binary PyFloat.prec PyFloat.emax (Z.pos p) 0 (Z.pos q) 0)
      as [[mz ez] lz]; cbn [fst] in Hq;
    rewrite binary_round_aux_sign by exact Hq; reflexivity.
Qed.

Lemma mul_100_sign x s :
  float_sign x = Some s -> float_sign (PyFloat.mul x (PyFloat.of_int 100)) = Some s.
Proof.
  rewrite float_100. unfold PyFloat.mul, SFmul.
  destruct x as [sx|sx| |sx m e]; cbn [float_sign]; try discriminate;
    intros [= <-]; try (destruct sx; reflexivity).
  rewrite binary_round_aux_sign by lia. destruct sx; reflexivity.
Qed.

Lemma percent_sign n t x : percent n t = Some x -> float_sign x = Some (t <? 0).
Proof.
  unfold percent. destruct (Z.eqb_spec t 0) as [|Hne]; [discriminate|].
  intros [= <-]. apply mul_100_sign. apply int_true_div_sign; [lia|exact Hne].
Qed.

Lemma float_sign_order x s :
  float_sign x = Some s ->
  if s then PyFloat.ltb PyFloat.zero x = false else PyFloat.ltb x PyFloat.zero = false.
Proof.
  destruct x as [sx|sx| |sx m e]; cbn [float_sign]; try discriminate;
    intros [= <-]; destruct sx; reflexivity.
Qed.

(** A percentage that is present is above zero exactly when the total
    lies from 1 to below the number of cases times 2^1075. *)
Lemma percent_positive_iff n t x :
  (1 <= n)%nat -> percent n t = Some x ->
  (PyFloat.ltb PyFloat.zero x = true <-> 1 <= t < Z.of_nat n * 2 ^ 1075).
Proof.
  intros Hn Hx. split.
  - intros Hpos. destruct (Z_lt_le_dec t 1) as [Hlow|Hge].
    + exfalso. pose proof (percent_sign n t x Hx) as Hs.
      destruct (Z.eq_dec t 0) as [->|Hnz]; [discriminate|].
      replace (t <? 0) with true in Hs by (symmetry; apply Z.ltb_lt; lia).
      apply float_sign_order in Hs. congruence.
    + split; [exact Hge|]. destruct (Z_lt_le_dec t (Z.of_nat n * 2 ^ 1075)) as [|Hbig];
        [assumption|exfalso].
      rewrite (percent_underflow n t Hn Hbig) in Hx. injection Hx as <-. discriminate.
  - intros Ht. destruct (percent_positive n t Hn Ht) as (y & Hy & Hpos). congruence.
Qed.

(** ** The rows of a run *)

Lemma resolver_value (Q : Z -> Prop) proj w r w1 :
  (forall hist rq resp t, serve (net w) hist rq = Ok resp -> json_total resp = Ok t -> Q t) ->
  map_Forall (fun _ t => Q t) (proj_total_cache w) ->
  get_total_ssm_cases_for_project proj w = (r, w1) ->
  map_Forall (fun _ t => Q t) (proj_total_cache w1) /\ (forall v, r = Ok v -> Q v).
Proof.
  intros Hsrv Hcache. unfold get_total_ssm_cases_for_project. unfold_M.
  destruct (proj_total_cache w !! proj) as [v|] eqn:Hc.
  - intros [= <- <-]. split; [exact Hcache|]. intros v' [= <-]. eapply Hcache. exact Hc.
  - destruct (serve (net w) (sent (net w)) (denominator_request proj)) as [resp|e] eqn:Hs;
      cbn.
    + destruct (ok resp); cbn.
      * destruct (json_total resp) as [t|e] eqn:Ht; cbn.
        -- intros [= <- <-]. cbn. pose proof (Hsrv _ _ _ _ Hs Ht) as Hq.
           split; [apply map_Forall_insert_2; assumption|]. intros v [= <-]. exact Hq.
        -- intros [= <- <-]. split; [exact Hcache|discriminate].
      * intros [= <- <-]. split; [exact Hcache|discriminate].
    + intros [= <- <-]. split; [exact Hcache|discriminate].
Qed.

Lemma resolve_denominators_values (Q : Z -> Prop) projs : forall d w d' w',
  Q 0 ->
  (forall hist rq resp t, serve (net w) hist rq = Ok resp -> json_total resp = Ok t -> Q t) ->
  map_Forall (fun _ t => Q t) (proj_total_cache w) ->
  map_Forall (fun _ t => Q t) d ->
  resolve_denominators projs d w = (Ok d', w') ->
  map_Forall (fun _ t => Q t) d'.
Proof.
  induction projs as [|proj rest IH]; intros d w d' w' H0 Hsrv Hcache Hd.
  - cbn. unfold_M. intros [= <- <-]. exact Hd.
  - destruct (get_total_ssm_cases_for_project proj w) as [r w1] eqn:Hcall.
    destruct (resolver_value Q proj w r w1 Hsrv Hcache Hcall) as [Hcache1 Hv].
    destruct (resolver_effect proj w r w1 Hcall) as (_ & _ & Hsv & _).
    destruct r as [v|e].
    + rewrite (resolve_denominators_success proj rest d w v w1 Hcall).
      apply IH; auto.
      * intros hist rq resp t. rewrite Hsv. apply Hsrv.
      * apply map_Forall_insert_2; auto.
    + rewrite (resolve_denominators_failure proj rest d w e w1 Hcall).
      apply IH; auto.
      * intros hist rq resp t. cbn. rewrite Hsv. apply Hsrv.
      * apply map_Forall_insert_2; auto.
Qed.

(** The file a pass writes is the text of [gene_report]. *)
Lemma process_gene_writes_report `{FloatStr} idx n gene_id w :
  files (snd (process_gene idx n gene_id w))
  = match gene_report idx n gene_id w with
    | Some rows => <[out_path_of gene_id := tsv_text rows]> (files w)
    | None => files w
    end.
Proof.
  rewrite process_gene_run. unfold gene_report.
  destruct (fetch_result (net w) gene_id) as [[|entry occ]|e]; try reflexivity.
  match goal with
  | |- context [resolve_denominators ?ps ?d ?w0] =>
      destruct (resolve_denominators_spec ps d w0) as (den & w2 & reqs & Hrun & Hf & _)
  end.
  rewrite Hrun. cbn [fst files] in *.
  destruct (report_error w gene_id); [exact Hf|reflexivity].
Qed.

Lemma gene_report_rows idx n gene_id w rows :
  gene_report idx n gene_id w = Some rows ->
  exists occ den,
    fetch_result (net w) gene_id = Ok occ
    /\ occ_wf occ
    /\ rows = distribution_report occ den
    /\ forall Q : Z -> Prop, Q 0 ->
         (forall hist rq resp t,
             serve (net w) hist rq = Ok resp -> json_total resp = Ok t -> Q t) ->
         map_Forall (fun _ t => Q t) (proj_total_cache w) ->
         map_Forall (fun _ t => Q t) den.
Proof.
  unfold gene_report.
  destruct (fetch_result (net w) gene_id) as [[|entry occ]|e] eqn:Hfetch; try discriminate.
  set (w1 := {| net := session_after (net w) (occurrence_request gene_id);
                proj_total_cache := proj_total_cache w; files := files w; refused := refused w;
                stdout := _ |}).
  destruct (resolve_denominators (map fst (entry :: occ)) ∅ w1) as [[den|e] w2] eqn:Hrun;
    cbn [fst]; [|discriminate].
  destruct (report_error w gene_id); [discriminate|].
  intros [= <-]. exists (entry :: occ), den.
  split; [reflexivity|]. split; [eapply fetch_result_wf; exact Hfetch|].
  split; [reflexivity|].
  intros Q H0 Hsrv Hcache.
  apply (resolve_denominators_values Q (map fst (entry :: occ)) ∅ w1 den w2 H0);
    [exact Hsrv|exact Hcache|apply map_Forall_empty|exact Hrun].
Qed.



Lemma nonempty_size (s : gset string) : s <> ∅ -> (1 <= size s)%nat.
Proof.
  intros Hs. destruct (size s) eqn:Hsize; [|lia].
  exfalso. apply Hs. apply size_empty_iff in Hsize. apply leibniz_equiv. exact Hsize.
Qed.

(** C10, as the code has it: the map a fetch returns has distinct keys
    and no empty case set, so every row of a report the pipeline writes
    counts at least one case; and in every such row a percentage that is
    present is strictly positive exactly when the row's own denominator
    lies from 1 to below the row's number of cases times 2^1075: it is
    not above zero for a negative denominator, and from that bound on the
    quotient underflows to zero. *)
Theorem pipeline_rows_count_cases `{FloatStr} :
  (forall s gene_id m,
      fetch_result s gene_id = Ok m ->
      List.NoDup (map fst m)
      /\ Forall (fun e => snd e <> ∅ /\ (1 <= size (snd e))%nat) m)
  /\ (forall idx n gene_id w,
        files (snd (process_gene idx n gene_id w))
        = match gene_report idx n gene_id w with
          | Some rows => <[out_path_of gene_id := tsv_text rows]> (files w)
          | None => files w
          end)
  /\ (forall idx n gene_id w rows,
        gene_report idx n gene_id w = Some rows ->
        Forall (fun r => (1 <= cases_affected r)%nat) rows)
  /\ (forall idx n gene_id w rows,
        gene_report idx n gene_id w = Some rows ->
        Forall (fun r => forall x, percent_cases_affected r = Some x ->
                  (PyFloat.ltb PyFloat.zero x = true
                   <-> 1 <= total_cases_with_ssm_data r
                            < Z.of_nat (cases_affected r) * 2 ^ 1075)) rows).
Proof.
  split; [|split; [|split]].
  - intros s gene_id m Hm. destruct (fetch_result_wf s gene_id m Hm) as [Hnd Hne].
    split; [exact Hnd|]. eapply Forall_impl; [exact Hne|].
    intros e He. split; [exact He|apply nonempty_size; exact He].
  - intros. apply process_gene_writes_report.
  - intros idx n gene_id w rows Hrep.
    destruct (gene_report_rows idx n gene_id w rows Hrep) as (occ & den & _ & [_ Hne] & -> & _).
    apply Forall_forall. intros r Hr.
    apply list_elem_of_In, distribution_report_rows in Hr as (p & s & Hin & ->). cbn.
    rewrite Forall_forall in Hne. apply nonempty_size.
    apply (Hne (p, s)). apply list_elem_of_In. exact Hin.
  - intros idx n gene_id w rows Hrep.
    destruct (gene_report_rows idx n gene_id w rows Hrep)
      as (occ & den & _ & [_ Hne] & -> & _).
    apply Forall_forall. intros r Hr.
    apply list_elem_of_In, distribution_report_rows in Hr as (p & s & Hin & ->).
    cbn [percent_cases_affected total_cases_with_ssm_data cases_affected].
    intros x Hx.
    assert (Hs : (1 <= size s)%nat).
    { rewrite Forall_forall in Hne. apply nonempty_size.
      apply (Hne (p, s)). apply list_elem_of_In. exact Hin. }
    apply percent_positive_iff; assumption.
Qed.

(** ** The cache over a run *)

(** C1: after a successful call for a project, the cache holds the
    returned value for it; a second call in the state the first one left,
    in any later state whose cache extends that one, and in particular
    after the driver loop has processed any further genes, returns the
    same value and leaves the world as it is (no request is sent, the
    cache is not written); the first call sent at most one request, and
    exactly one when the project was not cached; and every entry the cache
    held before the call is still there with its value (nothing is
    overwritten or removed, by the call or by the loop). *)
Theorem resolver_queries_each_project_once `{FloatStr} project_id w v w1 :
  get_total_ssm_cases_for_project project_id w = (Ok v, w1) ->
  get_total_ssm_cases_for_project project_id w1 = (Ok v, w1)
  /\ (forall w2, proj_total_cache w1 ⊆ proj_total_cache w2 ->
        get_total_ssm_cases_for_project project_id w2 = (Ok v, w2))
  /\ (sent (net w1) = sent (net w)
      \/ sent (net w1) = (sent (net w) ++ [denominator_request project_id])%list)
  /\ proj_total_cache w1 !! project_id = Some v
  /\ (forall q x, proj_total_cache w !! q = Some x -> proj_total_cache w1 !! q = Some x)
  /\ (proj_total_cache w !! project_id = None ->
        proj_total_cache w1 = <[project_id := v]> (proj_total_cache w)
        /\ sent (net w1) = (sent (net w) ++ [denominator_request project_id])%list)
  /\ (is_Some (proj_total_cache w !! project_id) -> w1 = w)
  /\ (forall idx n genes,
        proj_total_cache w1 ⊆ proj_total_cache (snd (main_loop idx n genes w1))
        /\ get_total_ssm_cases_for_project project_id (snd (main_loop idx n genes w1))
           = (Ok v, snd (main_loop idx n genes w1))).
Proof.
  intros Hcall.
  assert (Hhit : proj_total_cache w1 !! project_id = Some v).
  { destruct (resolver_cases project_id w)
      as [(v' & Hc & Heq)|(Hn & _ & _ & _ & _ & [(e & He & _)|(v' & Hv & Hcache)])];
      rewrite Hcall in *; cbn in *.
    - congruence.
    - discriminate.
    - injection Hv as ->. rewrite Hcache. apply lookup_insert_eq. }
  assert (Hlater : forall w2, proj_total_cache w1 ⊆ proj_total_cache w2 ->
             get_total_ssm_cases_for_project project_id w2 = (Ok v, w2)).
  { intros w2 Hsub.
    assert (H2 : proj_total_cache w2 !! project_id = Some v)
      by (eapply lookup_weaken; eauto).
    unfold get_total_ssm_cases_for_project. unfold_M. rewrite H2. reflexivity. }
  assert (Hrun_later : forall idx n genes,
             proj_total_cache w1 ⊆ proj_total_cache (snd (main_loop idx n genes w1))
             /\ get_total_ssm_cases_for_project project_id (snd (main_loop idx n genes w1))
                = (Ok v, snd (main_loop idx n genes w1))).
  { intros idx n genes.
    destruct (main_loop_spec genes idx n w1) as (r & w' & ? & ? & Hrun & _ & Hsub & _).
    rewrite Hrun. cbn [snd]. split; [exact Hsub|apply Hlater; exact Hsub]. }
  split; [apply Hlater; reflexivity|].
  split; [exact Hlater|].
  pose proof (resolver_cache_mono project_id w) as Hmono.
  destruct (resolver_cases project_id w)
    as [(v' & Hc & Heq)|(Hn & Hsent & _ & _ & _ & Hres)];
    rewrite Hcall in *; cbn in *.
  - injection Heq as -> ->.
    split; [left; reflexivity|]. split; [exact Hhit|].
    split; [tauto|]. split; [congruence|]. split; [reflexivity|exact Hrun_later].
  - split; [right; exact Hsent|]. split; [exact Hhit|].
    split; [intros q x Hq; eapply lookup_weaken; eauto|].
    split; [|split].
    + intros _. destruct Hres as [(e & He & _)|(v' & Hv & Hcache)]; [discriminate|].
      injection Hv as ->. split; assumption.
    + intros [x Hx]. congruence.
    + exact (Hrun_later).
Qed.

Lemma resolver_queries_each_project_once_witness :
  let w1 := snd (get_total_ssm_cases_for_project "TCGA-BRCA" (demo_world (demo_server 10))) in
  get_total_ssm_cases_for_project "TCGA-BRCA" w1 = (Ok 10, w1)
  /\ proj_total_cache w1 !! "TCGA-BRCA" = Some 10.
Proof.
  intros w1.
  destruct (@resolver_queries_each_project_once sample_float_str "TCGA-BRCA"
              (demo_world (demo_server 10)) 10 w1) as (H1 & _ & _ & H4 & _).
  - vm_compute. reflexivity.
  - split; [exact H1 | exact H4].
Defined.

(** ** Sample runs *)

Lemma pipeline_rows_count_cases_witness :
  exists rows,
    gene_report 1 1 demo_gene (demo_world (sample_server demo_hits 10)) = Some rows
    /\ Forall (fun r => forall x, percent_cases_affected r = Some x ->
                  (PyFloat.ltb PyFloat.zero x = true
                   <-> 1 <= total_cases_with_ssm_data r
                            < Z.of_nat (cases_affected r) * 2 ^ 1075)) rows.
Proof.
  destruct (@pipeline_rows_count_cases sample_float_str) as (_ & _ & _ & Hpos).
  destruct (gene_report 1 1 demo_gene (demo_world (sample_server demo_hits 10)))
    as [rows|] eqn:Hrep; [|vm_compute in Hrep; discriminate].
  exists rows. split; [reflexivity|].
  apply (Hpos 1%nat 1%nat demo_gene (demo_world (sample_server demo_hits 10)) rows Hrep).
Defined.

(** C10, counterexample: a run in which the server reports a negative
    denominator writes a row whose percentage is present and negative, and
    one in which it reports 2^1100 writes a row whose percentage is
    present and zero. *)
Lemma pipeline_row_with_nonpositive_percent :
  gene_report 1 1 demo_gene
    (demo_world (sample_server (JArr [hit (JStr "ProjA") (JStr "case1")]) (-4)))
  = Some [ {| project_id := "ProjA"; cases_affected := 1;
              total_cases_with_ssm_data := -4;
              percent_cases_affected := Some (PyFloat.of_int (-25)) |} ]
  /\ PyFloat.ltb PyFloat.zero (PyFloat.of_int (-25)) = false
  /\ gene_report 1 1 demo_gene
       (demo_world (sample_server (JArr [hit (JStr "ProjA") (JStr "case1")]) (2 ^ 1100)))
     = Some [ {| project_id := "ProjA"; cases_affected := 1;
                 total_cases_with_ssm_data := 2 ^ 1100;
                 percent_cases_affected := Some (S754_zero false) |} ]
  /\ PyFloat.ltb PyFloat.zero (S754_zero false) = false.
Proof. repeat split; vm_compute; reflexivity. Qed.

Lemma empty_map_writes_no_file_witness :
  exists w',
    @process_gene sample_float_str 1 1 demo_gene (demo_world (hits_server (JArr [])))
    = (Ok tt, w')
    /\ files w' = ∅
    /\ stdout w' = [EvProcessing 1 1 demo_gene; EvNoCases].
Proof.
  destruct (@empty_map_writes_no_file sample_float_str 1%nat 1%nat demo_gene []
              (demo_world (hits_server (JArr []))))
    as (w' & Hrun & Hfiles & _ & _ & Hout & _).
  - reflexivity.
  - exists w'. split; [exact Hrun|]. split; [exact Hfiles|exact Hout].
Defined.



(** * Further properties of the code *)

(** ** Header cells: padding and letter case *)

Lemma lstrip_by_pad p a s : all_chars p a = true ->
  PyStr.lstrip_by p (a ++ s) = PyStr.lstrip_by p s.
Proof.
  induction a as [|c a IH]; cbn; [reflexivity|].
  intros H. apply andb_prop in H as [Hc Ha]. rewrite str_cons_app. cbn.
  rewrite Hc. apply IH. exact Ha.
Qed.

Lemma rstrip_by_all p b : all_chars p b = true -> PyStr.rstrip_by p b = "".
Proof.
  induction b as [|c b IH]; cbn; [reflexivity|].
  intros H. apply andb_prop in H as [Hc Hb]. rewrite (IH Hb), Hc. reflexivity.
Qed.

Lemma rstrip_by_pad p s b : all_chars p b = true ->
  PyStr.rstrip_by p (s ++ b) = PyStr.rstrip_by p s.
Proof.
  intros Hb. induction s as [|c s IH].
  - cbn. apply rstrip_by_all. exact Hb.
  - rewrite str_cons_app. cbn. rewrite IH. reflexivity.
Qed.

Lemma lstrip_by_all p a : all_chars p a = true -> PyStr.lstrip_by p a = "".
Proof.
  intros H. rewrite <- (str_app_nil_r a). rewrite lstrip_by_pad by exact H. reflexivity.
Qed.

Lemma lstrip_by_app p s b :
  PyStr.lstrip_by p (s ++ b)
  = if all_chars p s then PyStr.lstrip_by p b else PyStr.lstrip_by p s ++ b.
Proof.
  induction s as [|c s IH]; [reflexivity|].
  rewrite str_cons_app. cbn. destruct (p c); cbn; [exact IH|reflexivity].
Qed.

Lemma strip_pad a s b :
  all_chars PyStr.is_space a = true -> all_chars PyStr.is_space b = true ->
  PyStr.strip (a ++ s ++ b) = PyStr.strip s.
Proof.
  intros Ha Hb. unfold PyStr.strip.
  rewrite lstrip_by_pad by exact Ha. rewrite lstrip_by_app.
  destruct (all_chars PyStr.is_space s) eqn:Hs.
  - rewrite (lstrip_by_all _ b Hb), (lstrip_by_all _ s Hs). reflexivity.
  - apply rstrip_by_pad. exact Hb.
Qed.

Lemma lower_char_idem c : PyStr.lower_char (PyStr.lower_char c) = PyStr.lower_char c.
Proof. destruct c as [[] [] [] [] [] [] [] []]; vm_compute; reflexivity. Qed.

Lemma lower_char_space c : PyStr.is_space (PyStr.lower_char c) = PyStr.is_space c.
Proof. destruct c as [[] [] [] [] [] [] [] []]; vm_compute; reflexivity. Qed.

Lemma lower_idem s : PyStr.lower (PyStr.lower s) = PyStr.lower s.
Proof.
  induction s as [|c s IH]; cbn; [reflexivity|]. rewrite lower_char_idem, IH. reflexivity.
Qed.

Lemma lstrip_lower s :
  PyStr.lstrip_by PyStr.is_space (PyStr.lower s)
  = PyStr.lower (PyStr.lstrip_by PyStr.is_space s).
Proof.
  induction s as [|c s IH]; cbn; [reflexivity|].
  rewrite lower_char_space. destruct (PyStr.is_space c); [exact IH|reflexivity].
Qed.

Lemma rstrip_lower s :
  PyStr.rstrip_by PyStr.is_space (PyStr.lower s)
  = PyStr.lower (PyStr.rstrip_by PyStr.is_space s).
Proof.
  induction s as [|c s IH]; cbn; [reflexivity|].
  rewrite IH, lower_char_space.
  destruct (PyStr.rstrip_by PyStr.is_space s); cbn; [|reflexivity].
  destruct (PyStr.is_space c); reflexivity.
Qed.

Lemma strip_lower s : PyStr.strip (PyStr.lower s) = PyStr.lower (PyStr.strip s).
Proof. unfold PyStr.strip. rewrite lstrip_lower, rstrip_lower. reflexivity. Qed.

(** X1: whether a header cell is taken for the To column does not depend
    on white space around it nor on the case of its letters. *)
Theorem to_header_ignores_padding_and_case a h b :
  all_chars PyStr.is_space a = true ->
  all_chars PyStr.is_space b = true ->
  is_to_header (a ++ h ++ b) = is_to_header (PyStr.lower h)
  /\ is_to_header (a ++ h ++ b) = is_to_header h.
Proof.
  intros Ha Hb. unfold is_to_header.
  rewrite (strip_pad a h b Ha Hb), strip_lower, lower_idem. split; reflexivity.
Qed.

Lemma to_header_ignores_padding_and_case_witness :
  is_to_header (" " ++ "TO" ++ String PyStr.TAB (String PyStr.CR "")) = true.
Proof.
  destruct (to_header_ignores_padding_and_case " " "TO" (String PyStr.TAB (String PyStr.CR "")))
    as [H _]; [reflexivity|reflexivity|].
  rewrite H. reflexivity.
Defined.

(** ** Data lines: order, repetition, padding *)

Lemma rstrip_by_idem p s : PyStr.rstrip_by p (PyStr.rstrip_by p s) = PyStr.rstrip_by p s.
Proof.
  induction s as [|c s IH]; cbn; [reflexivity|].
  destruct (PyStr.rstrip_by p s) as [|d r] eqn:Hr.
  - destruct (p c) eqn:Hc; cbn; [reflexivity|]. rewrite Hc. reflexivity.
  - cbn [PyStr.rstrip_by] in *. rewrite IH. reflexivity.
Qed.

Lemma lstrip_by_shape p s :
  PyStr.lstrip_by p s = ""
  \/ exists c t, PyStr.lstrip_by p s = String c t /\ p c = false.
Proof.
  induction s as [|c s IH]; cbn; [left; reflexivity|].
  destruct (p c) eqn:Hc; [exact IH|]. right. exists c, s. split; [reflexivity|exact Hc].
Qed.

Lemma rstrip_by_head p c t :
  p c = false -> exists r, PyStr.rstrip_by p (String c t) = String c r.
Proof.
  intros Hc. cbn. destruct (PyStr.rstrip_by p t); [rewrite Hc|]; eexists; reflexivity.
Qed.

Lemma strip_idem s : PyStr.strip (PyStr.strip s) = PyStr.strip s.
Proof.
  unfold PyStr.strip.
  destruct (lstrip_by_shape PyStr.is_space s) as [->|(c & t & -> & Hc)]; [reflexivity|].
  destruct (rstrip_by_head PyStr.is_space c t Hc) as (r & Hr).
  rewrite Hr. cbn [PyStr.lstrip_by]. rewrite Hc. rewrite <- Hr. apply rstrip_by_idem.
Qed.

Lemma line_gene_id_strip to_idx line :
  line_gene_id to_idx (PyStr.strip line) = line_gene_id to_idx line.
Proof. unfold line_gene_id. rewrite strip_idem. reflexivity. Qed.

Lemma load_lines_ext to_idx lines1 lines2 :
  (forall l, In l (map PyStr.strip lines1) <-> In l (map PyStr.strip lines2)) ->
  foldl (load_line to_idx) ∅ lines1 = foldl (load_line to_idx) ∅ lines2.
Proof.
  assert (Hone : forall a b g,
    (forall l, In l (map PyStr.strip a) -> In l (map PyStr.strip b)) ->
    (exists line, In line a /\ line_gene_id to_idx line = Some g) ->
    exists line, In line b /\ line_gene_id to_idx line = Some g).
  { intros a b g Hab (line & Hin & Hg).
    assert (Hs : In (PyStr.strip line) (map PyStr.strip b)).
    { apply Hab. apply in_map. exact Hin. }
    apply in_map_iff in Hs as (line' & Heq & Hin').
    exists line'. split; [exact Hin'|].
    rewrite <- line_gene_id_strip, Heq, line_gene_id_strip. exact Hg. }
  intros Hl. apply set_eq. intros g. rewrite !load_lines_spec.
  split; intros [Hg|Hg]; auto; right; eapply Hone; try exact Hg; intros l; apply Hl.
Qed.

(** X2: the identifiers loaded depend on the header row and on the set of
    data lines only, each line taken without the white space around it:
    neither the order of the lines, nor a repeated line, nor padding or
    the kind of line ending changes the result. *)
Theorem loader_ignores_line_order_and_padding text1 text2 :
  header_cells text1 = header_cells text2 ->
  (forall l, In l (map PyStr.strip (tl (PyStr.readlines text1)))
             <-> In l (map PyStr.strip (tl (PyStr.readlines text2)))) ->
  load_gene_ids_text text1 = load_gene_ids_text text2.
Proof.
  intros Hh Hl. unfold load_gene_ids_text.
  fold (header_cells text1). fold (header_cells text2). rewrite Hh.
  destruct (to_columns (header_cells text2)) as [|to_idx rest]; [reflexivity|].
  rewrite (load_lines_ext to_idx _ _ Hl). reflexivity.
Qed.

Lemma loader_ignores_line_order_and_padding_witness :
  load_gene_ids_text demo_table = load_gene_ids_text demo_table_shuffled.
Proof.
  apply loader_ignores_line_order_and_padding; [reflexivity|].
  intros l. vm_compute. tauto.
Defined.

(** ** A table without identifiers *)

Lemma load_lines_none to_idx lines :
  (forall line, In line lines -> line_gene_id to_idx line = None) ->
  foldl (load_line to_idx) ∅ lines = ∅.
Proof.
  intros Hnone. apply set_eq. intros g. rewrite load_lines_spec.
  split; [|intros Hg; left; exact Hg].
  intros [Hg|(line & Hin & Hg)]; [exact Hg|].
  rewrite (Hnone line Hin) in Hg. discriminate.
Qed.

Lemma sorted_strings_empty : sorted_strings ∅ = [].
Proof. unfold sorted_strings. rewrite elements_empty. reflexivity. Qed.

Lemma sorted_strings_nil (s : gset string) : sorted_strings s = [] -> s = ∅.
Proof.
  intros Hnil. destruct (sorted_strings_spec s) as (_ & _ & Hin).
  apply set_eq. intros g. rewrite <- Hin, Hnil. cbn. split; [tauto|].
  intros Hg. apply elem_of_empty in Hg. exact Hg.
Qed.

(** X3: the loader returns the empty list exactly when no data line has
    an identifier in the column it located (no line at all, blank lines,
    cells without the prefix, identifiers in other columns only); the
    program then ends normally after its two opening messages: it sends
    no request, writes no file and starts with an empty cache. *)
Theorem table_without_identifiers_gives_no_work `{FloatStr} text w to_idx rest :
  files w !! MAPPING_FILE = Some text ->
  to_columns (header_cells text) = to_idx :: rest ->
  (load_gene_ids_text text = Ok []
   <-> forall line, In line (tl (PyStr.readlines text)) ->
         line_gene_id to_idx line = None)
  /\ (load_gene_ids_text text = Ok [] ->
      exists w', main w = (Ok tt, w')
        /\ net w' = net w
        /\ files w' = files w
        /\ proj_total_cache w' = ∅
        /\ stdout w' = (stdout w ++ [EvLoading MAPPING_FILE; EvFound 0])%list).
Proof.
  intros Hfile Hcol.
  assert (Hload : load_gene_ids_text text
                  = Ok (sorted_strings
                          (foldl (load_line to_idx) ∅ (tl (PyStr.readlines text))))).
  { unfold load_gene_ids_text. fold (header_cells text). rewrite Hcol. reflexivity. }
  split.
  - rewrite Hload. split.
    + intros [= Hnil] line Hin. apply sorted_strings_nil in Hnil.
      destruct (line_gene_id to_idx line) as [g|] eqn:Hg; [exfalso|reflexivity].
      assert (Hmem : g ∈ foldl (load_line to_idx) ∅ (tl (PyStr.readlines text))).
      { apply load_lines_spec. right. exists line. auto. }
      rewrite Hnil in Hmem. apply elem_of_empty in Hmem. exact Hmem.
    + intros Hnone. rewrite (load_lines_none to_idx _ Hnone), sorted_strings_empty.
      reflexivity.
  - intros Hempty. unfold main, load_gene_ids. unfold_M.
    cbn [files net proj_total_cache stdout].
    rewrite Hfile, Hempty. cbn. eexists. split; [reflexivity|]. cbn.
    rewrite <- app_assoc. repeat split; reflexivity.
Qed.

Lemma table_without_identifiers_gives_no_work_witness :
  load_gene_ids_text blank_table = Ok []
  /\ exists w',
       @main sample_float_str
         {| net := {| sent := []; serve := failing_server |};
            proj_total_cache := ∅;
            files := {[ MAPPING_FILE := blank_table ]}; refused := never_refused;
            stdout := [] |} = (Ok tt, w')
       /\ sent (net w') = []
       /\ stdout w' = [EvLoading MAPPING_FILE; EvFound 0].
Proof.
  destruct (@table_without_identifiers_gives_no_work sample_float_str blank_table
              {| net := {| sent := []; serve := failing_server |};
                 proj_total_cache := ∅;
                 files := {[ MAPPING_FILE := blank_table ]}; refused := never_refused;
                 stdout := [] |} 1%nat [])
    as (Hiff & Hmain).
  - apply lookup_singleton_eq.
  - reflexivity.
  - assert (Hempty : load_gene_ids_text blank_table = Ok []).
    { apply Hiff. intros line Hin. vm_compute in Hin.
      destruct Hin as [<-|[<-|[<-|[]]]]; reflexivity. }
    split; [exact Hempty|].
    destruct (Hmain Hempty) as (w' & Hrun & Hnet & _ & _ & Hout).
    exists w'. split; [exact Hrun|]. rewrite Hnet, Hout. split; reflexivity.
Defined.

(** ** Failed queries: the error raised *)

Lemma take_length n : forall s,
  String.length (PyStr.take n s) = Nat.min n (String.length s).
Proof.
  unfold PyStr.take. induction n as [|n IH]; intros [|c s]; cbn; try reflexivity.
  rewrite IH. reflexivity.
Qed.

Lemma take_prefix n : forall s, String.prefix (PyStr.take n s) s = true.
Proof.
  unfold PyStr.take. induction n as [|n IH]; intros [|c s]; cbn; try reflexivity.
  destruct (ascii_dec c c); [apply IH|congruence].
Qed.

Lemma resolver_run project_id w :
  get_total_ssm_cases_for_project project_id w
  = match proj_total_cache w !! project_id with
    | Some v => (Ok v, w)
    | None =>
        (denominator_result (net w) project_id,
         {| net := session_after (net w) (denominator_request project_id);
            proj_total_cache :=
              match denominator_result (net w) project_id with
              | Ok t => <[project_id := t]> (proj_total_cache w)
              | Raise _ => proj_total_cache w
              end;
            files := files w; refused := refused w; stdout := stdout w |})
    end.
Proof.
  unfold get_total_ssm_cases_for_project, denominator_result, session_after. unfold_M.
  destruct (proj_total_cache w !! project_id) as [v|]; [reflexivity|].
  destruct (serve (net w) (sent (net w)) (denominator_request project_id)) as [resp|e];
    cbn; [|reflexivity].
  destruct (ok resp); cbn; [|reflexivity].
  destruct (json_total resp); reflexivity.
Qed.

(** X4: when the service answers a query with an error status, the call
    raises an error that carries the status code and the start of the
    body, at most 500 characters of it; the body is not parsed.  For an
    occurrence query the driver then reports that error and writes no
    file for the gene; for a denominator query nothing is cached. *)
Theorem http_failure_raises_status_and_body_start `{FloatStr} w resp :
  ok resp = false ->
  String.prefix (PyStr.take 500 (text resp)) (text resp) = true
  /\ String.length (PyStr.take 500 (text resp)) = Nat.min 500 (String.length (text resp))
  /\ (forall gene_id idx n,
        serve (net w) (sent (net w)) (occurrence_request gene_id) = Ok resp ->
        fst (get_mutated_cases_by_project gene_id w)
        = Raise (OccurrenceQueryFailed (status_code resp) (PyStr.take 500 (text resp)))
        /\ files (snd (process_gene idx n gene_id w)) = files w
        /\ stdout (snd (process_gene idx n gene_id w))
           = (stdout w ++
              [EvProcessing idx n gene_id;
               EvFetchFailed (OccurrenceQueryFailed (status_code resp)
                                (PyStr.take 500 (text resp)))])%list)
  /\ (forall project_id,
        proj_total_cache w !! project_id = None ->
        serve (net w) (sent (net w)) (denominator_request project_id) = Ok resp ->
        fst (get_total_ssm_cases_for_project project_id w)
        = Raise (DenominatorQueryFailed (status_code resp) (PyStr.take 500 (text resp)))
        /\ proj_total_cache (snd (get_total_ssm_cases_for_project project_id w))
           = proj_total_cache w).
Proof.
  intros Hok. split; [apply take_prefix|]. split; [apply take_length|]. split.
  - intros gene_id idx n Hserve.
    assert (Hfetch : fetch_result (net w) gene_id
                     = Raise (OccurrenceQueryFailed (status_code resp)
                                (PyStr.take 500 (text resp)))).
    { unfold fetch_result. rewrite Hserve, Hok. reflexivity. }
    split; [rewrite fetch_run; exact Hfetch|].
    destruct (process_gene_spec idx n gene_id w) as (r & w' & Hrun & _ & _ & _ & Hcase).
    rewrite Hfetch in Hcase. destruct Hcase as (_ & Hf & _ & _ & Hout).
    rewrite Hrun. cbn. split; assumption.
  - intros project_id Hmiss Hserve. rewrite resolver_run, Hmiss.
    unfold denominator_result. rewrite Hserve, Hok. cbn. split; reflexivity.
Qed.

Lemma http_failure_raises_status_and_body_start_witness :
  fst (get_mutated_cases_by_project demo_gene (demo_world error_server))
  = Raise (OccurrenceQueryFailed 503 "Service Unavailable")
  /\ fst (get_total_ssm_cases_for_project "TCGA-BRCA" (demo_world error_server))
     = Raise (DenominatorQueryFailed 503 "Service Unavailable").
Proof.
  destruct (@http_failure_raises_status_and_body_start sample_float_str
              (demo_world error_server) error_response)
    as (_ & _ & Hocc & Hden); [reflexivity|].
  destruct (Hocc demo_gene 1%nat 1%nat) as (Hfetch & _); [reflexivity|].
  destruct (Hden "TCGA-BRCA") as (Hres & _); [reflexivity|reflexivity|].
  rewrite Hfetch, Hres. split; reflexivity.
Defined.

(** ** Hits that make the loop raise *)

Lemma hit_step_cases m item :
  hit_step m item
  = match hit_error item with
    | Some e => Raise e
    | None => Ok (match hit_pair item with Some pc => add_pair m pc | None => m end)
    end.
Proof.
  unfold hit_error, hit_pair, hit_step, hit_ids.
  destruct (getitem item "case") as [c|e]; cbn; [|reflexivity].
  destruct (getitem c "project") as [pr|e]; cbn; [|reflexivity].
  destruct (getitem pr "project_id") as [proj|e]; cbn; [|reflexivity].
  destruct (getitem c "case_id") as [cid|e]; cbn; [|reflexivity].
  destruct proj as [|p|l|o], cid as [|c'|l'|o']; cbn; try reflexivity;
    try (destruct (String.eqb p ""); reflexivity);
    try (destruct (String.eqb c' ""); cbn; try rewrite andb_false_r; reflexivity);
    try (destruct l; reflexivity); try (destruct o; reflexivity).
  - destruct (String.eqb p ""), (String.eqb c' ""); reflexivity.
  - destruct (String.eqb p ""); cbn; [reflexivity|]. destruct l'; reflexivity.
  - destruct (String.eqb p ""); cbn; [reflexivity|]. destruct o'; reflexivity.
  - destruct l; cbn; [reflexivity|]. destruct (String.eqb c' ""); reflexivity.
  - destruct l; cbn; [reflexivity|]. destruct l'; reflexivity.
  - destruct l; cbn; [reflexivity|]. destruct o'; reflexivity.
  - destruct o; cbn; [reflexivity|]. destruct (String.eqb c' ""); reflexivity.
  - destruct o; cbn; [reflexivity|]. destruct l'; reflexivity.
  - destruct o; cbn; [reflexivity|]. destruct o'; reflexivity.
Qed.

Lemma hits_loop_app good : forall m rest,
  Forall (fun item => hit_error item = None) good ->
  hits_loop m (good ++ rest) = hits_loop (foldl add_pair m (omap hit_pair good)) rest.
Proof.
  induction good as [|item good IH]; intros m rest Hall; [reflexivity|].
  inversion Hall as [|? ? Hitem Hgood]; subst. cbn [hits_loop app].
  rewrite hit_step_cases, Hitem. cbn. rewrite (IH _ _ Hgood).
  destruct (hit_pair item); reflexivity.
Qed.

Lemma getitem_error v k e : getitem v k = Raise e -> e = KeyError k \/ e = TypeError.
Proof.
  unfold getitem. destruct v as [| | |members]; try (intros [= <-]; auto).
  destruct (assoc_get k members); [discriminate|]. intros [= <-]. auto.
Qed.

Lemma hit_error_shape item e :
  hit_error item = Some e ->
  e = TypeError
  \/ exists k, e = KeyError k /\ In k ["case"; "project"; "project_id"; "case_id"].
Proof.
  unfold hit_error, hit_ids.
  destruct (getitem item "case") as [c|e1] eqn:H1; cbn.
  2:{ intros [= <-]. apply getitem_error in H1 as [->| ->]; [right|left; reflexivity].
      eexists. split; [reflexivity|]. cbn. auto. }
  destruct (getitem c "project") as [pr|e2] eqn:H2; cbn.
  2:{ intros [= <-]. apply getitem_error in H2 as [->| ->]; [right|left; reflexivity].
      eexists. split; [reflexivity|]. cbn. auto. }
  destruct (getitem pr "project_id") as [proj|e3] eqn:H3; cbn.
  2:{ intros [= <-]. apply getitem_error in H3 as [->| ->]; [right|left; reflexivity].
      eexists. split; [reflexivity|]. cbn. auto. }
  destruct (getitem c "case_id") as [cid|e4] eqn:H4; cbn.
  2:{ intros [= <-]. apply getitem_error in H4 as [->| ->]; [right|left; reflexivity].
      eexists. split; [reflexivity|]. cbn. auto 6. }
  destruct (truthy proj && truthy cid); [|discriminate].
  destruct proj, cid; try discriminate; intros [= <-]; left; reflexivity.
Qed.

(** X5: the loop over the hits stops at the first hit on which its body
    raises: the call raises that hit's error (a missing field gives a
    KeyError with the field's name, a value of the wrong kind a
    TypeError), what the hits before it gave is lost, the hits after it
    are not looked at, and the driver writes no file for the gene. *)
Theorem fetch_fails_with_first_offending_hit `{FloatStr}
    idx n gene_id w resp good bad rest e :
  serve (net w) (sent (net w)) (occurrence_request gene_id) = Ok resp ->
  ok resp = true ->
  json_hits resp = Ok (JArr (good ++ bad :: rest)) ->
  Forall (fun item => hit_error item = None) good ->
  hit_error bad = Some e ->
  fst (get_mutated_cases_by_project gene_id w) = Raise e
  /\ (e = TypeError
      \/ exists k, e = KeyError k /\ In k ["case"; "project"; "project_id"; "case_id"])
  /\ files (snd (process_gene idx n gene_id w)) = files w
  /\ proj_total_cache (snd (process_gene idx n gene_id w)) = proj_total_cache w
  /\ stdout (snd (process_gene idx n gene_id w))
     = (stdout w ++ [EvProcessing idx n gene_id; EvFetchFailed e])%list.
Proof.
  intros Hserve Hok Hhits Hgood Hbad.
  assert (Hfetch : fetch_result (net w) gene_id = Raise e).
  { unfold fetch_result. rewrite Hserve, Hok. cbn. rewrite Hhits. cbn.
    rewrite (hits_loop_app good [] (bad :: rest) Hgood). cbn [hits_loop].
    rewrite hit_step_cases, Hbad. reflexivity. }
  split; [rewrite fetch_run; exact Hfetch|].
  split; [eapply hit_error_shape; exact Hbad|].
  destruct (process_gene_spec idx n gene_id w) as (r & w' & Hrun & _ & _ & _ & Hcase).
  rewrite Hfetch in Hcase. destruct Hcase as (_ & Hf & Hc & _ & Hout).
  rewrite Hrun. cbn. auto.
Qed.

Lemma fetch_fails_with_first_offending_hit_witness :
  fst (get_mutated_cases_by_project demo_gene
         (demo_world (hits_server (JArr broken_hit_list))))
  = Raise (KeyError "project").
Proof.
  destruct (@fetch_fails_with_first_offending_hit sample_float_str 1%nat 1%nat demo_gene
              (demo_world (hits_server (JArr broken_hit_list)))
              {| ok := true; status_code := 200; text := "";
                 json_hits := Ok (JArr broken_hit_list); json_total := Ok 0 |}
              [hit (JStr "ProjA") (JStr "case1")]
              (hit_without_project (JStr "case2"))
              [hit (JStr "ProjB") (JStr "case3")]
              (KeyError "project")) as (Hfetch & _).
  - reflexivity.
  - reflexivity.
  - reflexivity.
  - repeat constructor.
  - reflexivity.
  - exact Hfetch.
Defined.

(** ** The map of a successful fetch *)

Lemma hits_loop_ok items : forall m m',
  hits_loop m items = Ok m' -> m' = foldl add_pair m (omap hit_pair items).
Proof.
  induction items as [|item items IH]; intros m m'; cbn [hits_loop].
  - intros [= <-]. reflexivity.
  - rewrite hit_step_cases. destruct (hit_error item); cbn; [discriminate|].
    intros Hrun. apply IH in Hrun. rewrite Hrun.
    destruct (hit_pair item); reflexivity.
Qed.

Lemma existsb_eqb_In p (l : list string) : existsb (String.eqb p) l = true <-> In p l.
Proof.
  rewrite existsb_exists. split.
  - intros (x & Hin & Heq). apply String.eqb_eq in Heq. subst. exact Hin.
  - intros Hin. exists p. split; [exact Hin|apply String.eqb_refl].
Qed.

Lemma add_pair_keys m pc : map fst (add_pair m pc) = seen_add (map fst m) (fst pc).
Proof.
  unfold add_pair, seen_add.
  destruct (occ_add_keys (fst pc) (snd pc) m) as [[Hin ->]|[Hnin ->]].
  - apply existsb_eqb_In in Hin. rewrite Hin. reflexivity.
  - destruct (existsb (String.eqb (fst pc)) (map fst m)) eqn:Hex; [|reflexivity].
    apply existsb_eqb_In in Hex. contradiction.
Qed.

Lemma fold_pairs_keys pairs : forall m,
  map fst (foldl add_pair m pairs) = first_seen_from (map fst m) (map fst pairs).
Proof.
  induction pairs as [|pc pairs IH]; intros m; [reflexivity|].
  cbn [foldl map]. rewrite IH, add_pair_keys. reflexivity.
Qed.

Lemma first_seen_from_spec l : forall acc,
  List.NoDup acc ->
  List.NoDup (first_seen_from acc l)
  /\ (forall x, In x (first_seen_from acc l) <-> In x acc \/ In x l).
Proof.
  unfold first_seen_from. induction l as [|y l IH]; intros acc Hnd; cbn [foldl].
  - split; [exact Hnd|]. intros x. cbn. tauto.
  - unfold seen_add at 2 4. destruct (existsb (String.eqb y) acc) eqn:Hex.
    + apply existsb_eqb_In in Hex. destruct (IH acc Hnd) as (Hnd' & Hin').
      split; [exact Hnd'|]. intros x. rewrite Hin'. cbn [In].
      split; [tauto|]. intros [Hx|[Hx|Hx]]; subst; auto.
    + assert (Hny : ~ In y acc).
      { intros Hy. apply existsb_eqb_In in Hy. congruence. }
      assert (Hnd1 : List.NoDup (acc ++ [y])%list).
      { apply List.NoDup_app; [exact Hnd|repeat constructor; intros []|].
        intros x Hx [<-|[]]. contradiction. }
      destruct (IH _ Hnd1) as (Hnd' & Hin').
      split; [exact Hnd'|]. intros x. rewrite Hin', in_app_iff. cbn. tauto.
Qed.

Lemma fold_pairs_wf pairs : forall m, occ_wf m -> occ_wf (foldl add_pair m pairs).
Proof.
  induction pairs as [|pc pairs IH]; intros m Hwf; [exact Hwf|].
  cbn [foldl]. apply IH. apply occ_add_wf. exact Hwf.
Qed.

Lemma NoDup_fst_In_eq {B} (l : list (string * B)) p s s' :
  List.NoDup (map fst l) -> In (p, s) l -> In (p, s') l -> s = s'.
Proof.
  induction l as [|[q t] l IH]; cbn; [tauto|].
  intros Hnd. apply NoDup_cons_iff in Hnd as [Hq Hnd].
  assert (Hkey : forall x, In (q, x) l -> False).
  { intros x Hx. apply Hq. change q with (fst (q, x)). apply in_map. exact Hx. }
  intros [H1|H1] [H2|H2].
  - congruence.
  - injection H1 as -> _. exfalso. eapply Hkey. exact H2.
  - injection H2 as -> _. exfalso. eapply Hkey. exact H1.
  - eapply IH; eassumption.
Qed.

Lemma cases_of_In p pairs c : In c (cases_of p pairs) <-> In (p, c) pairs.
Proof.
  unfold cases_of. rewrite <- !list_elem_of_In, list_elem_of_omap. split.
  - intros ([q d] & Hin & Hq). cbn in Hq.
    destruct (String.eqb_spec q p) as [->|]; [|discriminate].
    injection Hq as ->. exact Hin.
  - intros Hin. exists (p, c). split; [exact Hin|]. cbn. rewrite String.eqb_refl.
    reflexivity.
Qed.

Lemma size_list_to_set_dups (l : list string) :
  size (list_to_set l : gset string) = length (remove_dups l).
Proof.
  rewrite <- (size_list_to_set (C := gset string) (remove_dups l))
    by apply NoDup_remove_dups.
  f_equal. apply set_eq. intros x.
  rewrite !elem_of_list_to_set, elem_of_remove_dups. reflexivity.
Qed.

(** X6: the map that a successful call returns lists the projects in the
    order in which the accepted hits first name them, each once, and
    gives each project the set of the case identifiers that the hits pair
    with it, so that a case named by several hits of a project counts
    once. *)
Theorem fetched_map_orders_projects_and_merges_cases items m :
  hits_loop [] items = Ok m ->
  map fst m = first_seen (map fst (omap hit_pair items))
  /\ List.NoDup (map fst m)
  /\ (forall p, In p (map fst m) <-> exists c, In (p, c) (omap hit_pair items))
  /\ (forall p s, In (p, s) m ->
        s = list_to_set (cases_of p (omap hit_pair items))
        /\ size s = length (remove_dups (cases_of p (omap hit_pair items)))).
Proof.
  intros Hrun. apply hits_loop_ok in Hrun. subst m.
  set (pairs := omap hit_pair items).
  assert (Hkeys : map fst (foldl add_pair [] pairs) = first_seen (map fst pairs)).
  { apply (fold_pairs_keys pairs []). }
  destruct (first_seen_from_spec (map fst pairs) [] (List.NoDup_nil _)) as (Hnd & Hin).
  fold (first_seen (map fst pairs)) in Hnd, Hin.
  split; [exact Hkeys|]. split; [rewrite Hkeys; exact Hnd|]. split.
  - intros p. rewrite Hkeys, Hin. cbn. split.
    + intros [[]|Hp]. apply in_map_iff in Hp as ([q c] & <- & Hqc). exists c. exact Hqc.
    + intros (c & Hc). right. change p with (fst (p, c)). apply in_map. exact Hc.
  - intros p s Hps.
    assert (Hs : s = list_to_set (cases_of p pairs)).
    { apply set_eq. intros c. rewrite elem_of_list_to_set, list_elem_of_In, cases_of_In.
      pose proof (occurrence_map_fold_lookup pairs [] p c) as Hlook.
      split.
      - intros Hc. destruct Hlook as [Hlook _].
        destruct Hlook as [Hpc|(s' & [] & _)]; [|exact Hpc]. exists s. auto.
      - intros Hpc. destruct Hlook as [_ Hlook].
        destruct Hlook as (s' & Hs' & Hc); [left; exact Hpc|].
        assert (Heq : s = s').
        { eapply NoDup_fst_In_eq; [|exact Hps|exact Hs'].
          rewrite Hkeys. exact Hnd. }
        subst. exact Hc. }
    split; [exact Hs|]. rewrite Hs. apply size_list_to_set_dups.
Qed.

Lemma fetched_map_orders_projects_and_merges_cases_witness :
  map fst demo_occurrences = first_seen (map fst (omap hit_pair demo_hit_list))
  /\ first_seen (map fst (omap hit_pair demo_hit_list)) = ["ProjA"; "ProjB"].
Proof.
  destruct (fetched_map_orders_projects_and_merges_cases demo_hit_list
              [("ProjA", {[ "case2"; "case1" ]}); ("ProjB", {[ "case3" ]})])
    as (Hkeys & _); [reflexivity|].
  split; [exact Hkeys|reflexivity].
Defined.

(** ** The totals of the progress line *)

Lemma total_occurrences_cons q (s : gset string) m :
  total_occurrences ((q, s) :: m) = (size s + total_occurrences m)%nat.
Proof. reflexivity. Qed.

Lemma occ_add_total p c m :
  List.NoDup (map fst m) ->
  ((exists s, In (p, s) m /\ c ∈ s)
   /\ total_occurrences (occ_add p c m) = total_occurrences m)
  \/ (~ (exists s, In (p, s) m /\ c ∈ s)
      /\ total_occurrences (occ_add p c m) = S (total_occurrences m)).
Proof.
  induction m as [|[q s] m IH]; intros Hnd.
  - right. split; [intros (s & [] & _)|].
    cbn [occ_add]. rewrite total_occurrences_cons, size_singleton. reflexivity.
  - cbn [map fst] in Hnd. apply NoDup_cons_iff in Hnd as [Hq Hnd]. cbn [occ_add].
    destruct (String.eqb_spec q p) as [->|Hne].
    + destruct (decide (c ∈ s)) as [Hc|Hc].
      * left. split; [exists s; split; [left; reflexivity|exact Hc]|].
        rewrite !total_occurrences_cons. f_equal. f_equal.
        apply subseteq_union_1_L. apply singleton_subseteq_l. exact Hc.
      * right. split.
        -- intros (s' & [Heq|Hin] & Hc').
           ++ injection Heq as <-. contradiction.
           ++ apply Hq. change p with (fst (p, s')). apply in_map. exact Hin.
        -- rewrite !total_occurrences_cons.
           rewrite size_union by (apply disjoint_singleton_l; exact Hc).
           rewrite size_singleton. reflexivity.
    + destruct (IH Hnd) as [[(s' & Hin & Hc) Ht]|[Hno Ht]].
      * left. split; [exists s'; split; [right; exact Hin|exact Hc]|].
        rewrite !total_occurrences_cons, Ht. reflexivity.
      * right. split.
        -- intros (s' & [Heq|Hin] & Hc).
           ++ injection Heq as Hqp _. contradiction.
           ++ apply Hno. exists s'. auto.
        -- rewrite !total_occurrences_cons, Ht. lia.
Qed.

Lemma fold_pairs_total pairs :
  total_occurrences (foldl add_pair [] pairs)
  = size (list_to_set pairs : gset (string * string)).
Proof.
  induction pairs as [|[p c] pairs IH] using rev_ind.
  - cbn. rewrite size_empty. reflexivity.
  - rewrite foldl_snoc, list_to_set_snoc_L. unfold add_pair at 1. cbn [fst snd].
    assert (Hwf : occ_wf (foldl add_pair [] pairs)) by (apply fold_pairs_wf, occ_wf_nil).
    pose proof (occurrence_map_fold_lookup pairs [] p c) as Hlook.
    destruct (occ_add_total p c _ (proj1 Hwf)) as [[Hex ->]|[Hno ->]].
    + rewrite IH. f_equal. symmetry. rewrite (comm_L (∪)).
      apply subseteq_union_1_L. apply singleton_subseteq_l.
      apply elem_of_list_to_set, list_elem_of_In.
      apply Hlook in Hex as [Hin|(s & [] & _)]. exact Hin.
    + rewrite IH, (comm_L (∪)), size_union, size_singleton; [reflexivity|].
      apply disjoint_singleton_l. intros Hin. apply Hno, Hlook. left.
      apply elem_of_list_to_set in Hin. apply list_elem_of_In. exact Hin.
Qed.

Lemma first_seen_length (l : list string) :
  length (first_seen l) = size (list_to_set l : gset string).
Proof.
  destruct (first_seen_from_spec l [] (List.NoDup_nil _)) as (Hnd & Hin).
  fold (first_seen l) in Hnd, Hin.
  rewrite <- (size_list_to_set (C := gset string) (first_seen l))
    by (apply NoDup_ListNoDup; exact Hnd).
  f_equal. apply set_eq. intros x.
  rewrite !elem_of_list_to_set, !list_elem_of_In, Hin. cbn. tauto.
Qed.

(** ** The inner loop over the projects of a gene *)

Lemma resolver_step proj w r w1 :
  get_total_ssm_cases_for_project proj w = (r, w1) ->
  files w1 = files w /\ stdout w1 = stdout w /\ serve (net w1) = serve (net w)
  /\ (forall q, q <> proj -> proj_total_cache w1 !! q = proj_total_cache w !! q)
  /\ match r with
     | Ok v => proj_total_cache w1 !! proj = Some v
     | Raise _ => proj_total_cache w1 !! proj = None
     end.
Proof.
  rewrite resolver_run. destruct (proj_total_cache w !! proj) as [v|] eqn:Hc.
  - intros [= <- <-]. repeat split; auto.
  - intros [= <- <-]. cbn. destruct (denominator_result (net w) proj) as [t|e]; cbn.
    + repeat split; auto.
      * intros q Hq. apply lookup_insert_ne. congruence.
      * apply lookup_insert_eq.
    + repeat split; auto.
Qed.

Lemma resolve_denominators_frame projs : forall d w d' w',
  resolve_denominators projs d w = (Ok d', w') ->
  (forall q, ~ In q projs -> proj_total_cache w' !! q = proj_total_cache w !! q)
  /\ exists evs, stdout w' = (stdout w ++ evs)%list
       /\ Forall (fun ev => exists p e, ev = EvTotalFailed p e /\ In p projs) evs.
Proof.
  induction projs as [|proj rest IH]; intros d w d' w' Hrun.
  - cbn in Hrun. unfold_M. injection Hrun as <- <-. split; [reflexivity|].
    exists []. rewrite app_nil_r. split; constructor.
  - destruct (get_total_ssm_cases_for_project proj w) as [[v|e] w1] eqn:Hstep.
    + rewrite (resolve_denominators_success _ _ _ _ _ _ Hstep) in Hrun.
      apply resolver_step in Hstep as (_ & Hout & _ & Hother & _).
      apply IH in Hrun as (Hc & evs & Hevs & Hall). split.
      * intros q Hq. cbn in Hq. rewrite Hc by tauto. apply Hother. intros ->. tauto.
      * exists evs. rewrite Hevs, Hout. split; [reflexivity|].
        eapply List.Forall_impl; [|exact Hall].
        intros ev (p & e & -> & Hin). exists p, e. split; [reflexivity|right; exact Hin].
    + rewrite (resolve_denominators_failure _ _ _ _ _ _ Hstep) in Hrun.
      apply resolver_step in Hstep as (_ & Hout & _ & Hother & _).
      apply IH in Hrun as (Hc & evs & Hevs & Hall). cbn in Hc, Hevs. split.
      * intros q Hq. cbn in Hq. rewrite Hc by tauto. apply Hother. intros ->. tauto.
      * exists (EvTotalFailed proj e :: evs). rewrite Hevs, Hout, <- app_assoc.
        split; [reflexivity|]. constructor.
        -- exists proj, e. split; [reflexivity|left; reflexivity].
        -- eapply List.Forall_impl; [|exact Hall].
           intros ev (p & e' & -> & Hin). exists p, e'.
           split; [reflexivity|right; exact Hin].
Qed.

(** X7: the two numbers of a gene's progress line are the number of
    distinct projects among the accepted hits and the number of distinct
    (project, case) pairs among them: a pair that several hits repeat is
    counted once. *)
Theorem progress_line_counts_distinct_projects_and_pairs `{FloatStr}
    idx n gene_id w resp items m :
  serve (net w) (sent (net w)) (occurrence_request gene_id) = Ok resp ->
  ok resp = true ->
  json_hits resp = Ok (JArr items) ->
  hits_loop [] items = Ok m ->
  length m = size (list_to_set (map fst (omap hit_pair items)) : gset string)
  /\ total_occurrences m
     = size (list_to_set (omap hit_pair items) : gset (string * string))
  /\ (m <> [] ->
      exists evs,
        stdout (snd (process_gene idx n gene_id w))
        = (stdout w ++
           EvProcessing idx n gene_id
           :: EvProjects
                (size (list_to_set (map fst (omap hit_pair items)) : gset string))
                (size (list_to_set (omap hit_pair items) : gset (string * string)))
           :: evs)%list).
Proof.
  intros Hserve Hok Hhits Hloop.
  assert (Hfetch : fetch_result (net w) gene_id = Ok m).
  { unfold fetch_result. rewrite Hserve, Hok. cbn. rewrite Hhits. cbn. exact Hloop. }
  pose proof (hits_loop_ok items [] m Hloop) as Hm.
  assert (Hlen : length m
                 = size (list_to_set (map fst (omap hit_pair items)) : gset string)).
  { rewrite <- first_seen_length, <- (length_map fst m), Hm.
    f_equal. apply (fold_pairs_keys _ []). }
  assert (Htot : total_occurrences m
                 = size (list_to_set (omap hit_pair items) : gset (string * string))).
  { rewrite Hm. apply fold_pairs_total. }
  split; [exact Hlen|]. split; [exact Htot|].
  intros Hne. rewrite process_gene_run, Hfetch.
  destruct m as [|entry occ]; [contradiction|].
  match goal with
  | |- context [resolve_denominators ?ps ?d ?w0] =>
      destruct (resolve_denominators_spec ps d w0) as (den & w2 & reqs & Hrun & _);
      destruct (resolve_denominators_frame ps d w0 den w2 Hrun) as (_ & evs & Hevs & _)
  end.
  rewrite Hrun. cbn [stdout] in Hevs.
  destruct (report_error w gene_id); cbn [snd stdout]; rewrite ?Hevs, Hlen, Htot.
  - exists evs. rewrite <- !app_assoc. reflexivity.
  - exists (evs ++ [EvSaved (out_path_of gene_id)])%list.
    rewrite <- !app_assoc. reflexivity.
Qed.

Lemma progress_line_counts_distinct_projects_and_pairs_witness :
  total_occurrences demo_occurrences = 3%nat
  /\ size (list_to_set (omap hit_pair demo_hit_list) : gset (string * string)) = 3%nat.
Proof.
  destruct (@progress_line_counts_distinct_projects_and_pairs sample_float_str
              1%nat 1%nat demo_gene (demo_world (hits_server demo_hits))
              {| ok := true; status_code := 200; text := "";
                 json_hits := Ok demo_hits; json_total := Ok 0 |}
              demo_hit_list
              [("ProjA", {[ "case2"; "case1" ]}); ("ProjB", {[ "case3" ]})])
    as (_ & Htot & _); try reflexivity.
  split; [reflexivity|]. rewrite <- Htot. reflexivity.
Defined.

(** ** Hits that are not a list *)

(** X8: the loop takes whatever the response has under the hits path:
    null cannot be iterated and gives a TypeError; a string or an object
    is iterated by character or by key, so that the first subscript
    raises a TypeError, unless it is empty, in which case the call
    returns the empty map as for a gene without hits; a list is walked
    hit by hit. *)
Theorem hits_of_another_kind gene_id w resp data :
  serve (net w) (sent (net w)) (occurrence_request gene_id) = Ok resp ->
  ok resp = true ->
  json_hits resp = Ok data ->
  fst (get_mutated_cases_by_project gene_id w)
  = match data with
    | JNull => Raise TypeError
    | JStr s => if String.eqb s "" then Ok [] else Raise TypeError
    | JObj members => match members with [] => Ok [] | _ => Raise TypeError end
    | JArr items => hits_loop [] items
    end.
Proof.
  intros Hserve Hok Hhits. rewrite fetch_run. cbn [fst]. unfold fetch_result.
  rewrite Hserve, Hok. cbn. rewrite Hhits. cbn.
  destruct data as [|s|items|members]; cbn; try reflexivity.
  - destruct s; reflexivity.
  - destruct members as [|[k v] members]; reflexivity.
Qed.

Lemma hits_of_another_kind_witness :
  fst (get_mutated_cases_by_project demo_gene
         (demo_world (hits_server (JObj [("message", JStr "no hits")]))))
  = Raise TypeError.
Proof.
  rewrite (hits_of_another_kind demo_gene
             (demo_world (hits_server (JObj [("message", JStr "no hits")])))
             {| ok := true; status_code := 200; text := "";
                json_hits := Ok (JObj [("message", JStr "no hits")]);
                json_total := Ok 0 |}
             (JObj [("message", JStr "no hits")]));
    reflexivity.
Defined.

(** ** Where a gene's denominators come from *)

(** X9: the inner loop over a gene's projects always ends normally, and
    the denominator it leaves for a project is either the total that the
    cache now holds for it, or 0 where the project's query failed: the
    failure was then printed, and the project is still absent from the
    cache, so that the next gene naming it asks again. *)
Theorem denominator_is_cached_total_or_logged_zero projs d w p :
  In p projs ->
  exists d' evs,
    fst (resolve_denominators projs d w) = Ok d'
    /\ stdout (snd (resolve_denominators projs d w)) = (stdout w ++ evs)%list
    /\ ((exists v, d' !! p = Some v
                   /\ proj_total_cache (snd (resolve_denominators projs d w)) !! p = Some v)
        \/ (d' !! p = Some 0
            /\ proj_total_cache (snd (resolve_denominators projs d w)) !! p = None
            /\ exists e, In (EvTotalFailed p e) evs)).
Proof.
  revert d w. induction projs as [|proj rest IH]; intros d w Hin; [destruct Hin|].
  destruct (get_total_ssm_cases_for_project proj w) as [[v|e] w1] eqn:Hstep.
  - rewrite (resolve_denominators_success _ _ _ _ _ _ Hstep).
    pose proof (resolver_step _ _ _ _ Hstep) as (_ & Hout & _ & _ & Hcached).
    destruct (in_dec string_dec p rest) as [Hrest|Hrest].
    + destruct (IH (<[proj := v]> d) w1 Hrest) as (d' & evs & Hrun & Hevs & Hcase).
      exists d', evs. rewrite Hevs, Hout. auto.
    + destruct Hin as [->|Hin]; [|contradiction].
      destruct (resolve_denominators_spec rest (<[p := v]> d) w1)
        as (d' & w' & reqs & Hrun & _ & _ & _ & _ & _ & _ & Hkeep).
      destruct (resolve_denominators_frame _ _ _ _ _ Hrun) as (Hc & evs & Hevs & _).
      rewrite Hrun. cbn [fst snd]. exists d', evs.
      split; [reflexivity|]. split; [rewrite Hevs, Hout; reflexivity|].
      left. exists v. rewrite (Hkeep p Hrest), (Hc p Hrest), lookup_insert_eq. auto.
  - rewrite (resolve_denominators_failure _ _ _ _ _ _ Hstep).
    pose proof (resolver_step _ _ _ _ Hstep) as (_ & Hout & _ & _ & Hcached).
    destruct (in_dec string_dec p rest) as [Hrest|Hrest].
    + match goal with
      | |- context [resolve_denominators rest ?d0 ?w0] =>
          destruct (IH d0 w0 Hrest) as (d' & evs & Hrun & Hevs & Hcase);
          set (run := resolve_denominators rest d0 w0) in *
      end.
      cbn [stdout] in Hevs. rewrite Hout, <- app_assoc in Hevs.
      exists d', (EvTotalFailed proj e :: evs).
      split; [exact Hrun|]. split; [exact Hevs|].
      destruct Hcase as [Hcase|(H0 & Hnone & e' & He')]; [left; exact Hcase|].
      right. split; [exact H0|]. split; [exact Hnone|]. exists e'. right. exact He'.
    + destruct Hin as [->|Hin]; [|contradiction].
      match goal with
      | |- context [resolve_denominators rest ?d0 ?w0] =>
          destruct (resolve_denominators_spec rest d0 w0)
            as (d' & w' & reqs & Hrun & _ & _ & _ & _ & _ & _ & Hkeep);
          destruct (resolve_denominators_frame _ _ _ _ _ Hrun) as (Hc & evs & Hevs & _)
      end.
      cbn [stdout proj_total_cache] in Hevs, Hc.
      rewrite Hrun. cbn [fst snd]. exists d', (EvTotalFailed p e :: evs).
      split; [reflexivity|]. split; [rewrite Hevs, Hout, <- app_assoc; reflexivity|].
      right. rewrite (Hkeep p Hrest), (Hc p Hrest), lookup_insert_eq.
      split; [reflexivity|]. split; [exact Hcached|]. exists e. left. reflexivity.
Qed.

Lemma denominator_is_cached_total_or_logged_zero_witness :
  exists d',
    fst (resolve_denominators ["ProjA"; "ProjB"] ∅ (demo_world partial_server)) = Ok d'
    /\ d' !! "ProjB" = Some 0
    /\ proj_total_cache
         (snd (resolve_denominators ["ProjA"; "ProjB"] ∅ (demo_world partial_server)))
       !! "ProjB" = None.
Proof.
  destruct (denominator_is_cached_total_or_logged_zero ["ProjA"; "ProjB"] ∅
              (demo_world partial_server) "ProjB")
    as (d' & evs & Hrun & _ & Hcase); [cbn; auto|].
  exists d'. split; [exact Hrun|].
  assert (Hnone : proj_total_cache
            (snd (resolve_denominators ["ProjA"; "ProjB"] ∅ (demo_world partial_server)))
          !! "ProjB" = None) by (vm_compute; reflexivity).
  destruct Hcase as [(v & _ & Hv)|(H0 & _ & _)]; [congruence|].
  split; [exact H0|exact Hnone].
Defined.

(** ** The cache and the log of requests *)

Lemma app_snoc_decomp {A} (pre post log : list A) x y :
  (pre ++ x :: post)%list = (log ++ [y])%list ->
  (post = [] /\ pre = log /\ x = y)
  \/ (exists post', post = (post' ++ [y])%list /\ log = (pre ++ x :: post')%list).
Proof.
  induction post as [|z post _] using rev_ind; intros Heq.
  - left. apply app_inj_tail in Heq as [-> ->]. auto.
  - right. change (x :: post ++ [z])%list with ((x :: post) ++ [z])%list in Heq.
    rewrite app_assoc in Heq. apply app_inj_tail in Heq as [<- ->].
    exists post. auto.
Qed.

Lemma denominator_request_inj p q :
  denominator_request p = denominator_request q -> p = q.
Proof. intros [= ->]. reflexivity. Qed.

Lemma occurrence_request_other gene_id p :
  occurrence_request gene_id <> denominator_request p.
Proof. discriminate. Qed.

Lemma denominator_result_Ok s p t :
  denominator_result s p = Ok t
  <-> exists resp, serve s (sent s) (denominator_request p) = Ok resp
                   /\ ok resp = true /\ json_total resp = Ok t.
Proof.
  unfold denominator_result. split.
  - destruct (serve s (sent s) (denominator_request p)) as [resp|e]; [|discriminate].
    destruct (ok resp) eqn:Hok; cbn; [|discriminate]. intros Ht. exists resp. auto.
  - intros (resp & -> & -> & Ht). exact Ht.
Qed.

Lemma answered_in_snoc srv log rq p v :
  answered_in srv (log ++ [rq]) p v
  <-> answered_in srv log p v
      \/ (rq = denominator_request p
          /\ exists resp, srv log rq = Ok resp /\ ok resp = true /\ json_total resp = Ok v).
Proof.
  unfold answered_in. split.
  - intros (pre & post & resp & Hlog & Hsrv & Hok & Hv).
    symmetry in Hlog. apply app_snoc_decomp in Hlog as [(-> & -> & Heq)|(post' & -> & ->)].
    + right. subst rq. split; [reflexivity|]. exists resp. auto.
    + left. exists pre, post', resp. auto.
  - intros [(pre & post & resp & -> & Hsrv & Hok & Hv)|(-> & resp & Hsrv & Hok & Hv)].
    + exists pre, (post ++ [rq])%list, resp. rewrite <- app_assoc. auto.
    + exists log, [], resp. auto.
Qed.

Lemma cache_agrees_fresh srv : cache_agrees {| sent := []; serve := srv |} ∅.
Proof.
  split; [|split]; cbn.
  - intros p v (pre & post & resp & Hlog & _). destruct pre; discriminate.
  - intros p v Hp. rewrite lookup_empty in Hp. discriminate.
  - intros pre post p v Hlog. destruct pre; discriminate.
Qed.

Lemma cache_agrees_other s c rq :
  (forall p, rq <> denominator_request p) ->
  cache_agrees s c -> cache_agrees (session_after s rq) c.
Proof.
  intros Hrq (Ha & Hb & Hc). unfold cache_agrees, session_after. cbn [sent serve].
  split; [|split].
  - intros p v Hans. apply answered_in_snoc in Hans as [Hans|(Heq & _)]; [auto|].
    exfalso. eapply Hrq. exact Heq.
  - intros p v Hp. apply answered_in_snoc. left. auto.
  - intros pre post p v Hlog. symmetry in Hlog.
    apply app_snoc_decomp in Hlog as [(_ & _ & Heq)|(post' & _ & Hlog)].
    + exfalso. eapply Hrq. symmetry. exact Heq.
    + eapply Hc. exact Hlog.
Qed.

Lemma cache_agrees_query s c p :
  c !! p = None -> cache_agrees s c ->
  cache_agrees (session_after s (denominator_request p))
    (match denominator_result s p with Ok t => <[p := t]> c | Raise _ => c end).
Proof.
  intros Hmiss (Ha & Hb & Hc).
  assert (Hnot : forall v, ~ answered_in (serve s) (sent s) p v).
  { intros v Hans. apply Ha in Hans. congruence. }
  unfold cache_agrees, session_after. cbn [sent serve]. split; [|split].
  - intros q v Hans. apply answered_in_snoc in Hans as [Hans|(Heq & Hresp)].
    + assert (Hq : q <> p) by (intros ->; eapply Hnot; exact Hans).
      apply Ha in Hans. destruct (denominator_result s p); [|exact Hans].
      rewrite lookup_insert_ne by congruence. exact Hans.
    + apply denominator_request_inj in Heq. subst q.
      apply denominator_result_Ok in Hresp. rewrite Hresp. apply lookup_insert_eq.
  - intros q v Hq. apply answered_in_snoc.
    destruct (denominator_result s p) as [t|e] eqn:Hres; [|left; auto].
    destruct (decide (p = q)) as [<-|Hne].
    + rewrite lookup_insert_eq in Hq. injection Hq as <-.
      right. split; [reflexivity|]. apply denominator_result_Ok. exact Hres.
    + rewrite lookup_insert_ne in Hq by exact Hne. left. auto.
  - intros pre post q v Hlog. symmetry in Hlog.
    apply app_snoc_decomp in Hlog as [(_ & -> & Heq)|(post' & _ & Hlog)].
    + apply denominator_request_inj in Heq. subst q. apply Hnot.
    + eapply Hc. exact Hlog.
Qed.

Lemma cache_agrees_resolver proj w r w1 :
  get_total_ssm_cases_for_project proj w = (r, w1) ->
  cache_agrees (net w) (proj_total_cache w) ->
  cache_agrees (net w1) (proj_total_cache w1).
Proof.
  rewrite resolver_run. destruct (proj_total_cache w !! proj) eqn:Hmiss.
  - intros [= <- <-]. auto.
  - intros [= <- <-] Hagree. cbn [net proj_total_cache].
    apply cache_agrees_query; assumption.
Qed.

Lemma cache_agrees_resolve projs : forall d w d' w',
  resolve_denominators projs d w = (Ok d', w') ->
  cache_agrees (net w) (proj_total_cache w) ->
  cache_agrees (net w') (proj_total_cache w').
Proof.
  induction projs as [|proj rest IH]; intros d w d' w' Hrun Hagree.
  - cbn in Hrun. unfold_M. injection Hrun as <- <-. exact Hagree.
  - destruct (get_total_ssm_cases_for_project proj w) as [[v|e] w1] eqn:Hstep.
    + rewrite (resolve_denominators_success _ _ _ _ _ _ Hstep) in Hrun.
      eapply IH; [exact Hrun|]. eapply cache_agrees_resolver; eassumption.
    + rewrite (resolve_denominators_failure _ _ _ _ _ _ Hstep) in Hrun.
      eapply IH; [exact Hrun|]. cbn [net proj_total_cache].
      eapply cache_agrees_resolver; eassumption.
Qed.

Lemma cache_agrees_gene `{FloatStr} idx n gene_id w :
  cache_agrees (net w) (proj_total_cache w) ->
  cache_agrees (net (snd (process_gene idx n gene_id w)))
               (proj_total_cache (snd (process_gene idx n gene_id w))).
Proof.
  intros Hagree.
  assert (Hfetch : cache_agrees (session_after (net w) (occurrence_request gene_id))
                                (proj_total_cache w)).
  { apply cache_agrees_other; [|exact Hagree]. intros p. apply occurrence_request_other. }
  rewrite process_gene_run.
  destruct (fetch_result (net w) gene_id) as [[|entry occ]|e]; cbn [snd net proj_total_cache];
    try exact Hfetch.
  match goal with
  | |- context [resolve_denominators ?ps ?d ?w0] =>
      destruct (resolve_denominators_spec ps d w0) as (den & w2 & reqs & Hrun & _);
      pose proof (cache_agrees_resolve ps d w0 den w2 Hrun Hfetch) as Hend
  end.
  rewrite Hrun. destruct (report_error w gene_id); exact Hend.
Qed.

Lemma cache_agrees_loop `{FloatStr} genes : forall idx n w,
  cache_agrees (net w) (proj_total_cache w) ->
  cache_agrees (net (snd (main_loop idx n genes w)))
               (proj_total_cache (snd (main_loop idx n genes w))).
Proof.
  apply (main_loop_keeps (fun w => cache_agrees (net w) (proj_total_cache w))).
  intros idx n gene_id w. apply cache_agrees_gene.
Qed.

(** X10: all along a run the cache mirrors the log of requests: it holds
    a total for a project exactly when a denominator query for that
    project was answered with that total, and once such a query has been
    answered no further one is sent for the project.  The loop over the
    genes keeps this, whatever the service answers, and a run of the
    program that starts with a fresh session ends in such a state. *)
Theorem cache_mirrors_answered_queries `{FloatStr} :
  (forall genes idx n w,
      cache_agrees (net w) (proj_total_cache w) ->
      cache_agrees (net (snd (main_loop idx n genes w)))
                   (proj_total_cache (snd (main_loop idx n genes w))))
  /\ (forall w,
        sent (net w) = [] ->
        fst (main w) = Ok tt ->
        cache_agrees (net (snd (main w))) (proj_total_cache (snd (main w)))).
Proof.
  split; [intros genes idx n w; apply cache_agrees_loop|].
  intros w Hsent. unfold main, load_gene_ids. unfold_M.
  cbn [files net proj_total_cache stdout].
  destruct (files w !! MAPPING_FILE) as [text|]; cbn; [|discriminate].
  destruct (load_gene_ids_text text) as [ids|e]; cbn; [|discriminate].
  intros _. apply cache_agrees_loop. cbn [net proj_total_cache].
  destruct (net w) as [log srv]. cbn in Hsent. subst log. apply cache_agrees_fresh.
Qed.

Lemma cache_mirrors_answered_queries_witness :
  cache_agrees
    (net (snd (@main_loop sample_float_str 1 1 [demo_gene]
                 (demo_world (sample_server demo_hits 10)))))
    (proj_total_cache (snd (@main_loop sample_float_str 1 1 [demo_gene]
                              (demo_world (sample_server demo_hits 10))))).
Proof.
  apply (proj1 (@cache_mirrors_answered_queries sample_float_str)).
  apply cache_agrees_fresh.
Defined.

(** ** A failed denominator query is asked again *)

(** X11: a denominator query that fails, for whatever reason, leaves the
    cache as it was, so that the project is still unknown; the next call
    for the same project sends the request a second time and returns
    what the service answers then. *)
Theorem failed_denominator_query_is_asked_again project_id w e w1 :
  get_total_ssm_cases_for_project project_id w = (Raise e, w1) ->
  proj_total_cache w1 = proj_total_cache w
  /\ proj_total_cache w1 !! project_id = None
  /\ sent (net w1) = (sent (net w) ++ [denominator_request project_id])%list
  /\ fst (get_total_ssm_cases_for_project project_id w1)
     = denominator_result (net w1) project_id
  /\ sent (net (snd (get_total_ssm_cases_for_project project_id w1)))
     = (sent (net w) ++ [denominator_request project_id;
                         denominator_request project_id])%list.
Proof.
  rewrite resolver_run.
  destruct (proj_total_cache w !! project_id) as [v|] eqn:Hmiss; [discriminate|].
  destruct (denominator_result (net w) project_id) as [t|e'] eqn:Hres; [discriminate|].
  intros [= <- <-]. cbn [net proj_total_cache sent session_after].
  split; [reflexivity|]. split; [exact Hmiss|]. split; [reflexivity|].
  rewrite resolver_run. cbn [net proj_total_cache]. rewrite Hmiss.
  cbn [fst snd net sent session_after]. rewrite <- app_assoc. split; reflexivity.
Qed.

Lemma failed_denominator_query_is_asked_again_witness :
  sent (net (snd (get_total_ssm_cases_for_project "TCGA-BRCA"
                    (snd (get_total_ssm_cases_for_project "TCGA-BRCA"
                            (demo_world error_server))))))
  = [denominator_request "TCGA-BRCA"; denominator_request "TCGA-BRCA"].
Proof.
  destruct (failed_denominator_query_is_asked_again "TCGA-BRCA"
              (demo_world error_server)
              (DenominatorQueryFailed 503 "Service Unavailable")
              (snd (get_total_ssm_cases_for_project "TCGA-BRCA" (demo_world error_server))))
    as (_ & _ & _ & _ & Hsent); [reflexivity|].
  exact Hsent.
Defined.

(** ** The sign of a percentage *)

(** X12: the sign of a percentage is that of the total it is computed
    from: with a positive total the percentage is never below zero, with
    a negative total it is never above zero; it is never a
    not-a-number. *)
Theorem percent_sign_follows_total n t x :
  percent n t = Some x ->
  float_sign x = Some (t <? 0)
  /\ PyFloat.is_nan x = false
  /\ (0 < t -> PyFloat.ltb x PyFloat.zero = false)
  /\ (t < 0 -> PyFloat.ltb PyFloat.zero x = false).
Proof.
  intros Hp. pose proof (percent_not_nan n t x Hp) as Hnan.
  unfold percent in Hp. destruct (Z.eqb_spec t 0) as [|Hne]; [discriminate|].
  injection Hp as <-.
  pose proof (mul_100_sign _ _ (int_true_div_sign (Z.of_nat n) t ltac:(lia) Hne)) as Hs.
  split; [exact Hs|]. split; [exact Hnan|].
  destruct (PyFloat.mul _ _) as [s|s| |s m e]; cbn [float_sign] in Hs;
    try discriminate; injection Hs as ->.
  all: split; intros Ht.
  all: try (replace (t <? 0) with false by (symmetry; apply Z.ltb_ge; lia); reflexivity).
  all: try (replace (t <? 0) with true by (symmetry; apply Z.ltb_lt; lia); reflexivity).
Qed.

Lemma percent_sign_follows_total_witness :
  float_sign (PyFloat.of_int (-25)) = Some true
  /\ PyFloat.ltb PyFloat.zero (PyFloat.of_int (-25)) = false.
Proof.
  destruct (percent_sign_follows_total 1 (-4) (PyFloat.of_int (-25)))
    as (Hs & _ & _ & Hneg); [vm_compute; reflexivity|].
  split; [exact Hs|apply Hneg; lia].
Defined.

(** ** All cases affected *)

Lemma div_eucl_exact a b : 0 < b -> Z.div_eucl (a * b) b = (a, 0).
Proof.
  intros Hb. pose proof (Z.div_mul a b ltac:(lia)) as Hq.
  pose proof (Z.mod_mul a b ltac:(lia)) as Hr.
  unfold Z.div, Z.modulo in Hq, Hr.
  destruct (Z.div_eucl (a * b) b) as [q r]. subst. reflexivity.
Qed.

Lemma int_true_div_same p :
  PyFloat.int_true_div (Z.pos p) (Z.pos p) = S754_finite false 4503599627370496 (-52).
Proof.
  unfold PyFloat.int_true_div, PyFloat.exact_int, SFdiv, SFdiv_core_binary.
  replace (Zdigits2 (Z.pos p) + 0 - (Zdigits2 (Z.pos p) + 0)) with 0 by lia.
  change (Z.min (fexp PyFloat.prec PyFloat.emax 0) (0 - 0)) with (-53).
  change (0 - 0 - -53) with 53.
  cbv beta iota zeta.
  rewrite (Z.shiftl_mul_pow2 (Z.pos p) 53) by lia.
  rewrite (Z.mul_comm (Z.pos p)), (div_eucl_exact (2 ^ 53) (Z.pos p)) by lia.
  unfold new_location, new_location_even, new_location_odd. cbn [Z.eqb].
  destruct (Z.even (Z.pos p)); vm_compute; reflexivity.
Qed.

(** X13: a project all of whose cases with data are affected gets
    exactly 100.0, whatever the number of cases: the quotient of a
    positive integer by itself is exactly 1.0. *)
Theorem percent_of_all_cases_is_100 n :
  (1 <= n)%nat -> percent n (Z.of_nat n) = Some (PyFloat.of_int 100).
Proof.
  intros Hn. unfold percent.
  destruct (Z.of_nat n) as [|p|p] eqn:Hz; [lia| |lia].
  cbn [Z.eqb]. rewrite int_true_div_same. vm_compute. reflexivity.
Qed.

Lemma percent_of_all_cases_is_100_witness :
  percent 7 7 = Some (PyFloat.of_int 100).
Proof. apply (percent_of_all_cases_is_100 7). lia. Defined.

(** ** Where the rows without a percentage stand *)

Lemma StronglySorted_app_tail {A} (R : A -> A -> Prop) l1 x l2 :
  StronglySorted R (l1 ++ x :: l2) -> Forall (R x) l2.
Proof.
  induction l1 as [|y l1 IH]; cbn; intros Hs; inversion Hs; subst; auto.
Qed.

Lemma StronglySorted_app_head {A} (R : A -> A -> Prop) l1 x l2 :
  StronglySorted R (l1 ++ x :: l2) -> Forall (fun y => R y x) l1.
Proof.
  induction l1 as [|y l1 IH]; cbn; intros Hs; [constructor|].
  inversion Hs as [|? ? Hrest Hall]; subst. constructor; [|apply IH; exact Hrest].
  rewrite List.Forall_forall in Hall. apply Hall. apply in_elt.
Qed.

Lemma sort_key_of_percent r x :
  percent_cases_affected r = Some x ->
  (PyFloat.ltb PyFloat.zero (sort_key r) = false -> PyFloat.ltb PyFloat.zero x = false)
  /\ (PyFloat.ltb (sort_key r) PyFloat.zero = false -> PyFloat.ltb x PyFloat.zero = false).
Proof.
  unfold sort_key. intros ->. destruct x as [s|s| |s m e]; auto.
Qed.

(** X14: in a report a row without a percentage (its total is 0) stands
    with the rows whose percentage is zero: no row after it has a
    percentage above zero, and no row before it one below zero. *)
Theorem rows_without_percentage_stand_at_zero occ den before r after :
  distribution_report occ den = (before ++ r :: after)%list ->
  percent_cases_affected r = None ->
  total_cases_with_ssm_data r = 0
  /\ Forall (fun r' => forall x, percent_cases_affected r' = Some x ->
                                PyFloat.ltb PyFloat.zero x = false) after
  /\ Forall (fun r' => forall x, percent_cases_affected r' = Some x ->
                                PyFloat.ltb x PyFloat.zero = false) before.
Proof.
  intros Hrep Hnone.
  destruct (sort_rows_spec (build_rows occ den) (build_rows_keys occ den))
    as (_ & Hsorted & _).
  fold (distribution_report occ den) in Hsorted. rewrite Hrep in Hsorted.
  assert (Hkey : sort_key r = PyFloat.zero) by (unfold sort_key; rewrite Hnone; reflexivity).
  split; [|split].
  - assert (Hin : In r (distribution_report occ den)) by (rewrite Hrep; apply in_elt).
    apply distribution_report_rows in Hin as (proj & case_set & _ & ->).
    cbn in *. unfold percent in Hnone.
    destruct (Z.eqb_spec (default 0 (den !! proj)) 0) as [Hz|]; [exact Hz|discriminate].
  - apply StronglySorted_app_tail in Hsorted. rewrite Hkey in Hsorted.
    eapply List.Forall_impl; [|exact Hsorted].
    intros r' Hr' x Hx. apply (sort_key_of_percent r' x Hx). exact Hr'.
  - apply StronglySorted_app_head in Hsorted. rewrite Hkey in Hsorted.
    eapply List.Forall_impl; [|exact Hsorted].
    intros r' Hr' x Hx. apply (sort_key_of_percent r' x Hx). exact Hr'.
Qed.

Lemma rows_without_percentage_stand_at_zero_witness :
  Forall (fun r' => forall x, percent_cases_affected r' = Some x ->
                              PyFloat.ltb x PyFloat.zero = false)
    [ {| project_id := "ProjA"; cases_affected := 2;
         total_cases_with_ssm_data := 10;
         percent_cases_affected := Some (PyFloat.of_int 20) |} ].
Proof.
  destruct (rows_without_percentage_stand_at_zero demo_occurrences demo_denominators
              [ {| project_id := "ProjA"; cases_affected := 2;
                   total_cases_with_ssm_data := 10;
                   percent_cases_affected := Some (PyFloat.of_int 20) |} ]
              {| project_id := "ProjB"; cases_affected := 1;
                 total_cases_with_ssm_data := 0;
                 percent_cases_affected := None |}
              [])
    as (_ & _ & Hbefore); [vm_compute; reflexivity|reflexivity|].
  exact Hbefore.
Defined.

(** ** The paths of the reports *)

Lemma str_length_app s t :
  String.length (s ++ t) = (String.length s + String.length t)%nat.
Proof.
  induction s as [|c s IH]; [reflexivity|]. rewrite str_cons_app. cbn. rewrite IH.
  reflexivity.
Qed.

Lemma str_app_inj_l s t1 t2 : s ++ t1 = s ++ t2 -> t1 = t2.
Proof.
  induction s as [|c s IH]; [intros Heq; exact Heq|].
  rewrite !str_cons_app. intros [= Heq]. apply IH. exact Heq.
Qed.

Lemma str_app_inj_r t : forall s1 s2, s1 ++ t = s2 ++ t -> s1 = s2.
Proof.
  induction s1 as [|c s1 IH]; intros [|d s2] Heq.
  - reflexivity.
  - exfalso. apply (f_equal String.length) in Heq.
    rewrite str_cons_app in Heq. cbn in Heq. rewrite !str_length_app in Heq.
    cbn in Heq. lia.
  - exfalso. apply (f_equal String.length) in Heq.
    rewrite str_cons_app in Heq. cbn in Heq. rewrite !str_length_app in Heq.
    cbn in Heq. lia.
  - rewrite !str_cons_app in Heq. injection Heq as -> Heq. f_equal. apply IH. exact Heq.
Qed.

Lemma startswith_slash s :
  PyStr.startswith s "/" = true -> exists s', s = String "/" s'.
Proof.
  unfold PyStr.startswith. destruct s as [|c s]; cbn [String.prefix]; [discriminate|].
  destruct (ascii_dec "/"%char c) as [<-|]; [|discriminate]. exists s. reflexivity.
Qed.

Lemma out_path_of_cases gene_id :
  (exists rest, out_path_of gene_id = String "/" rest
                /\ out_path_of gene_id = gene_id ++ "_cancer_distribution_ssm.tsv")
  \/ out_path_of gene_id
     = OUT_DIR ++ "/" ++ gene_id ++ "_cancer_distribution_ssm.tsv".
Proof.
  unfold out_path_of, path_join.
  destruct (PyStr.startswith (gene_id ++ "_cancer_distribution_ssm.tsv") "/") eqn:Hs.
  - left. apply startswith_slash in Hs as (rest & Hs). exists rest. rewrite Hs. auto.
  - right. reflexivity.
Qed.

Lemma out_path_of_inj g1 g2 : out_path_of g1 = out_path_of g2 -> g1 = g2.
Proof.
  destruct (out_path_of_cases g1) as [(r1 & Hs1 & H1)|H1],
           (out_path_of_cases g2) as [(r2 & Hs2 & H2)|H2]; intros Heq.
  - rewrite H1, H2 in Heq. eapply str_app_inj_r. exact Heq.
  - rewrite Hs1, H2 in Heq. discriminate.
  - rewrite H1, Hs2 in Heq. discriminate.
  - rewrite H1, H2 in Heq. apply str_app_inj_l, str_app_inj_l in Heq.
    eapply str_app_inj_r. exact Heq.
Qed.

Lemma out_path_not_mapping_file gene_id : out_path_of gene_id <> MAPPING_FILE.
Proof.
  destruct (out_path_of_cases gene_id) as [(r & Hs & _)|H]; intros Heq.
  - rewrite Hs in Heq. discriminate.
  - rewrite H in Heq. discriminate.
Qed.

Lemma out_path_of_loaded gene_id :
  PyStr.startswith gene_id GENE_PREFIX = true ->
  out_path_of gene_id = OUT_DIR ++ "/" ++ gene_id ++ "_cancer_distribution_ssm.tsv".
Proof.
  intros Hp. destruct (out_path_of_cases gene_id) as [(r & _ & Hs)|H]; [|exact H].
  exfalso. unfold out_path_of, path_join in Hs.
  unfold PyStr.startswith in Hp. destruct gene_id as [|c g]; [discriminate|].
  cbn [String.prefix GENE_PREFIX] in Hp.
  destruct (ascii_dec "E"%char c) as [<-|]; [|discriminate].
  discriminate.
Qed.

Lemma process_gene_files_frame `{FloatStr} idx n gene_id w path :
  path <> out_path_of gene_id ->
  files (snd (process_gene idx n gene_id w)) !! path = files w !! path.
Proof.
  intros Hne. rewrite process_gene_writes_report.
  destruct (gene_report idx n gene_id w); [|reflexivity].
  apply lookup_insert_ne. congruence.
Qed.

Lemma main_loop_files_frame `{FloatStr} genes : forall idx n w path,
  (forall g, In g genes -> path <> out_path_of g) ->
  files (snd (main_loop idx n genes w)) !! path = files w !! path.
Proof.
  induction genes as [|g rest IH]; intros idx n w path Hne; [reflexivity|].
  rewrite main_loop_step.
  pose proof (process_gene_files_frame idx n g w path (Hne g (or_introl eq_refl))) as Hg.
  destruct (process_gene idx n g w) as [[[]|e] w1]; cbn [snd] in *; [|exact Hg].
  rewrite IH by (intros g' Hg'; apply Hne; right; exact Hg'). exact Hg.
Qed.

(** X15: reports go to files of their own.  Two genes never share a
    report path, and no report path is the mapping file; for an
    identifier as the loader returns them the path lies in the output
    directory.  The loop over the genes leaves every other file as it
    was, a report once written is not touched by the genes after it, and
    the mapping file is the same after a run. *)
Theorem reports_are_kept_apart `{FloatStr} :
  (forall g1 g2, out_path_of g1 = out_path_of g2 -> g1 = g2)
  /\ (forall g, out_path_of g <> MAPPING_FILE)
  /\ (forall g, PyStr.startswith g GENE_PREFIX = true ->
        out_path_of g = OUT_DIR ++ "/" ++ g ++ "_cancer_distribution_ssm.tsv")
  /\ (forall genes idx n w path,
        (forall g, In g genes -> path <> out_path_of g) ->
        files (snd (main_loop idx n genes w)) !! path = files w !! path)
  /\ (forall g rest idx n w,
        ~ In g rest ->
        files (snd (main_loop idx n (g :: rest) w)) !! out_path_of g
        = files (snd (process_gene idx n g w)) !! out_path_of g)
  /\ (forall w, files (snd (main w)) !! MAPPING_FILE = files w !! MAPPING_FILE).
Proof.
  split; [exact out_path_of_inj|]. split; [exact out_path_not_mapping_file|].
  split; [exact out_path_of_loaded|]. split; [intros; apply main_loop_files_frame; auto|].
  split.
  - intros g rest idx n w Hnin. rewrite main_loop_step.
    destruct (process_gene idx n g w) as [[[]|e] w1]; cbn [snd]; [|reflexivity].
    apply main_loop_files_frame. intros g' Hg' Heq.
    apply out_path_of_inj in Heq. subst. contradiction.
  - intros w. unfold main, load_gene_ids. unfold_M.
    cbn [files net proj_total_cache stdout].
    destruct (files w !! MAPPING_FILE) as [text|] eqn:Hfile; cbn; [|exact Hfile].
    destruct (load_gene_ids_text text) as [ids|e]; cbn; [|exact Hfile].
    match goal with
    | |- files (snd (main_loop ?i ?k ?g ?w0)) !! _ = _ =>
        rewrite (main_loop_files_frame g i k w0 MAPPING_FILE)
    end.
    + exact Hfile.
    + intros g _ Heq. symmetry in Heq. eapply out_path_not_mapping_file. exact Heq.
Qed.

Lemma reports_are_kept_apart_witness :
  out_path_of demo_gene
  = "cancer_distribution_tsv/ENSG00000100342_cancer_distribution_ssm.tsv".
Proof.
  rewrite (proj1 (proj2 (proj2 (@reports_are_kept_apart sample_float_str)))
             demo_gene); reflexivity.
Defined.

(** ** The console log of a run *)

Lemma filter_total_failed_processing evs projs :
  Forall (fun ev => exists p e, ev = EvTotalFailed p e /\ In p projs) evs ->
  List.filter is_processing evs = []
  /\ forall path, ~ In (EvSaved path) evs.
Proof.
  induction 1 as [|ev evs (p & e & -> & _) _ [IH1 IH2]]; [split; [reflexivity|intros ? []]|].
  split; [exact IH1|]. intros path [Hhead|Htail]; [discriminate|]. eapply IH2. exact Htail.
Qed.

Lemma process_gene_log `{FloatStr} idx n gene_id w :
  exists evs,
    stdout (snd (process_gene idx n gene_id w)) = (stdout w ++ evs)%list
    /\ List.filter is_processing evs = [EvProcessing idx n gene_id]
    /\ (forall path, In (EvSaved path) evs ->
          path = out_path_of gene_id
          /\ is_Some (files (snd (process_gene idx n gene_id w)) !! path))
    /\ (forall path,
          files (snd (process_gene idx n gene_id w)) !! path <> files w !! path ->
          In (EvSaved path) evs).
Proof.
  rewrite process_gene_run.
  destruct (fetch_result (net w) gene_id) as [[|entry occ]|e].
  - exists [EvProcessing idx n gene_id; EvNoCases]. cbn [snd stdout files].
    rewrite <- app_assoc. split; [reflexivity|]. split; [reflexivity|].
    split; [|intros path Hne; contradiction].
    intros path [Hev|[Hev|[]]]; discriminate.
  - match goal with
    | |- context [resolve_denominators ?ps ?d ?w0] =>
        destruct (resolve_denominators_spec ps d w0)
          as (den & w2 & reqs & Hrun & Hfiles & _);
        destruct (resolve_denominators_frame ps d w0 den w2 Hrun)
          as (_ & evs & Hevs & Hall)
    end.
    rewrite Hrun. cbn [stdout files] in Hevs, Hfiles.
    apply filter_total_failed_processing in Hall as [Hproc Hsaved].
    destruct (report_error w gene_id); cbn [snd stdout files].
    + exists ([EvProcessing idx n gene_id;
               EvProjects (length (entry :: occ)) (total_occurrences (entry :: occ))]
              ++ evs)%list.
      split; [rewrite Hevs, <- !app_assoc; reflexivity|]. split.
      * cbn [app List.filter is_processing]. rewrite Hproc. reflexivity.
      * rewrite Hfiles. split; [|intros path Hne; contradiction].
        intros path Hin. cbn [app In] in Hin.
        destruct Hin as [Hev|[Hev|Hin]]; try discriminate.
        exfalso. eapply Hsaved. exact Hin.
    + exists ([EvProcessing idx n gene_id;
               EvProjects (length (entry :: occ)) (total_occurrences (entry :: occ))]
              ++ evs ++ [EvSaved (out_path_of gene_id)])%list.
      split; [rewrite Hevs, <- !app_assoc; reflexivity|]. split.
      * cbn [app List.filter is_processing]. rewrite List.filter_app, Hproc. reflexivity.
      * split.
        -- intros path Hin. cbn [app In] in Hin.
           destruct Hin as [Hev|[Hev|Hin]]; try discriminate.
           apply in_app_iff in Hin as [Hin|[Hev|[]]]; [exfalso; eapply Hsaved; exact Hin|].
           injection Hev as <-. split; [reflexivity|].
           rewrite lookup_insert_eq. eexists. reflexivity.
        -- intros path Hne. destruct (decide (path = out_path_of gene_id)) as [->|Hp].
           ++ cbn [app In]. right. right. apply in_app_iff. right. left. reflexivity.
           ++ exfalso. apply Hne. apply lookup_insert_ne. congruence.
  - exists [EvProcessing idx n gene_id; EvFetchFailed e]. cbn [snd stdout files].
    rewrite <- app_assoc. split; [reflexivity|]. split; [reflexivity|].
    split; [|intros path Hne; contradiction].
    intros path [Hev|[Hev|[]]]; discriminate.
Qed.



Lemma main_loop_progress `{FloatStr} genes : forall idx n w,
  exists evs processed remaining,
    stdout (snd (main_loop idx n genes w)) = (stdout w ++ evs)%list
    /\ genes = (processed ++ remaining)%list
    /\ List.filter is_processing evs = progress_events idx n processed
    /\ match fst (main_loop idx n genes w) with
       | Ok _ => remaining = []
       | Raise _ => processed <> []
       end.
Proof.
  induction genes as [|g rest IH]; intros idx n w.
  - exists [], [], []. cbn. rewrite app_nil_r. auto.
  - rewrite main_loop_step.
    destruct (process_gene_log idx n g w) as (evs1 & Hout1 & Hproc1 & _).
    destruct (process_gene idx n g w) as [[[]|e] w1]; cbn [fst snd] in *.
    + destruct (IH (S idx) n w1) as (evs2 & processed & remaining & Hout2 & -> & Hproc2 & Hend).
      exists (evs1 ++ evs2)%list, (g :: processed), remaining.
      rewrite Hout2, Hout1, <- app_assoc. split; [reflexivity|]. split; [reflexivity|].
      split; [rewrite List.filter_app, Hproc1, Hproc2; reflexivity|].
      destruct (fst (main_loop (S idx) n (processed ++ remaining) w1));
        [exact Hend|discriminate].
    + exists evs1, [g], rest. split; [exact Hout1|]. split; [reflexivity|].
      split; [exact Hproc1|discriminate].
Qed.



(** X17: with a mapping file that has the column and a file system that
    lets the reports of the loaded identifiers be written, the program
    ends normally: it prints the two opening messages with the number of
    identifiers, then sends exactly one occurrence query per loaded
    identifier, in the loader's order, and prints one progress line for
    each, numbered from 1; without the mapping file it stops with the
    file error after the first message, before any request. *)
Theorem run_queries_each_loaded_gene_once `{FloatStr} :
  (forall w text ids,
      files w !! MAPPING_FILE = Some text ->
      load_gene_ids_text text = Ok ids ->
      (forall g fs, In g ids ->
         refused w fs OUT_DIR = None /\ refused w fs (out_path_of g) = None) ->
      exists w' evs,
        main w = (Ok tt, w')
        /\ serve (net w') = serve (net w)
        /\ List.filter is_occurrence_request (sent (net w'))
           = (List.filter is_occurrence_request (sent (net w))
              ++ map occurrence_request ids)%list
        /\ stdout w'
           = (stdout w ++ EvLoading MAPPING_FILE :: EvFound (length ids) :: evs)%list
        /\ List.filter is_processing evs = progress_events 1 (length ids) ids)
  /\ (forall w,
        files w !! MAPPING_FILE = None ->
        main w = (Raise (FileNotFoundError MAPPING_FILE),
                  {| net := net w; proj_total_cache := proj_total_cache w;
                     files := files w; refused := refused w;
                     stdout := stdout w ++ [EvLoading MAPPING_FILE] |})).
Proof.
  split.
  - intros w text ids Hfile Hload Hallowed. unfold main, load_gene_ids. unfold_M.
    cbn [files net proj_total_cache stdout]. rewrite Hfile, Hload. cbn.
    match goal with
    | |- context [main_loop ?i ?k ?g ?w0] =>
        destruct (main_loop_completes g i k w0 Hallowed) as (w' & Hrun & Hserve & _ & Hsent);
        destruct (main_loop_progress g i k w0)
          as (evs & processed & remaining & Hout & Hsplit & Hproc & Hend)
    end.
    rewrite Hrun in Hout, Hend. cbn [fst snd net stdout] in *.
    subst remaining. rewrite app_nil_r in Hsplit. subst processed.
    exists w', evs. split; [exact Hrun|]. split; [exact Hserve|].
    split; [exact Hsent|]. split; [|exact Hproc].
    rewrite Hout, <- !app_assoc. reflexivity.
  - intros w Hfile. unfold main, load_gene_ids. unfold_M.
    cbn [files net proj_total_cache stdout]. rewrite Hfile. reflexivity.
Qed.

Lemma run_queries_each_loaded_gene_once_witness :
  exists w' evs,
    @main sample_float_str
      {| net := {| sent := []; serve := sample_server demo_hits 10 |};
         proj_total_cache := ∅;
         files := {[ MAPPING_FILE := demo_table ]}; refused := never_refused;
         stdout := [] |} = (Ok tt, w')
    /\ List.filter is_occurrence_request (sent (net w')) = [occurrence_request demo_gene]
    /\ stdout w' = EvLoading MAPPING_FILE :: EvFound 1 :: evs.
Proof.
  destruct (proj1 (@run_queries_each_loaded_gene_once sample_float_str)
              {| net := {| sent := []; serve := sample_server demo_hits 10 |};
                 proj_total_cache := ∅;
                 files := {[ MAPPING_FILE := demo_table ]}; refused := never_refused;
                 stdout := [] |}
              demo_table [demo_gene])
    as (w' & evs & Hrun & _ & Hsent & Hout & _).
  - apply lookup_singleton_eq.
  - vm_compute. reflexivity.
  - intros g fs _. split; reflexivity.
  - exists w', evs. split; [exact Hrun|]. split; [exact Hsent|exact Hout].
Defined.

(** ** The requests of the inner loop *)

Lemma uncached_ext c1 c2 projs :
  (forall p, In p projs -> c1 !! p = c2 !! p) -> uncached c1 projs = uncached c2 projs.
Proof.
  intros Hsame. unfold uncached. apply List.filter_ext_in.
  intros p Hp. rewrite (Hsame p Hp). reflexivity.
Qed.

(** X18: for the distinct projects of a gene the inner loop sends one
    denominator query for each project that the cache does not hold yet,
    in the order of the map, and none for the others, whether the
    queries succeed or fail. *)
Theorem inner_loop_queries_uncached_projects projs d w :
  List.NoDup projs ->
  sent (net (snd (resolve_denominators projs d w)))
  = (sent (net w)
     ++ map denominator_request (uncached (proj_total_cache w) projs))%list.
Proof.
  revert d w. induction projs as [|proj rest IH]; intros d w Hnd.
  - cbn. rewrite app_nil_r. reflexivity.
  - apply NoDup_cons_iff in Hnd as [Hnin Hnd].
    destruct (proj_total_cache w !! proj) as [v|] eqn:Hc.
    + assert (Hstep : get_total_ssm_cases_for_project proj w = (Ok v, w))
        by (rewrite resolver_run, Hc; reflexivity).
      rewrite (resolve_denominators_success _ _ _ _ _ _ Hstep), (IH _ _ Hnd).
      unfold uncached. cbn [List.filter]. rewrite Hc. reflexivity.
    + assert (Hrest : forall t,
                uncached (<[proj := t]> (proj_total_cache w)) rest
                = uncached (proj_total_cache w) rest).
      { intros t. apply uncached_ext. intros p Hp. apply lookup_insert_ne.
        intros ->. contradiction. }
      pose proof (resolver_run proj w) as Hstep. rewrite Hc in Hstep.
      destruct (denominator_result (net w) proj) as [t|e] eqn:Hres.
      * rewrite (resolve_denominators_success _ _ _ _ _ _ Hstep), (IH _ _ Hnd).
        cbn [net sent session_after proj_total_cache]. rewrite Hrest.
        unfold uncached at 2. cbn [List.filter]. rewrite Hc.
        rewrite <- app_assoc. reflexivity.
      * rewrite (resolve_denominators_failure _ _ _ _ _ _ Hstep), (IH _ _ Hnd).
        cbn [net sent session_after proj_total_cache].
        unfold uncached at 2. cbn [List.filter]. rewrite Hc.
        rewrite <- app_assoc. reflexivity.
Qed.

Lemma inner_loop_queries_uncached_projects_witness :
  sent (net (snd (resolve_denominators ["ProjA"; "ProjB"] ∅
                    (snd (get_total_ssm_cases_for_project "ProjA"
                            (demo_world (demo_server 10)))))))
  = [denominator_request "ProjA"; denominator_request "ProjB"].
Proof.
  rewrite (inner_loop_queries_uncached_projects ["ProjA"; "ProjB"] ∅).
  - vm_compute. reflexivity.
  - repeat constructor; cbn; intuition discriminate.
Defined.

(** ** The report and the progress line *)

Lemma list_sum_perm (l1 l2 : list nat) : Permutation l1 l2 -> list_sum l1 = list_sum l2.
Proof. unfold list_sum. induction 1; cbn in *; lia. Qed.

Lemma build_rows_cases occ den :
  list_sum (map cases_affected (build_rows occ den)) = total_occurrences occ.
Proof.
  induction occ as [|[proj case_set] occ IH]; [reflexivity|].
  rewrite total_occurrences_cons, <- IH. reflexivity.
Qed.

(** X19: the total of the progress line is the sum of the affected-cases
    column of the report written for the gene: sorting the rows loses and
    repeats none. *)
Theorem report_cases_sum_to_progress_total occ den :
  list_sum (map cases_affected (distribution_report occ den)) = total_occurrences occ.
Proof.
  destruct (sort_rows_spec (build_rows occ den) (build_rows_keys occ den)) as (Hperm & _).
  fold (distribution_report occ den) in Hperm.
  rewrite (list_sum_perm _ _ (Permutation_map cases_affected Hperm)).
  apply build_rows_cases.
Qed.
